(** * zsgnet-pytorch, [code/utils.py]: the training harness

    A shallow embedding of the utilities of [code/utils.py] (the smoothed
    values, the weighted average, and the [Learner] class with its log file,
    its checkpoint and its training loop), and the properties of the
    specification stated and settled on it.

    Conventions of the embedding.
    - Python floats and 0-dim tensors are exact rationals ([Q]); a division
      says explicitly what happens at a zero denominator.
    - A Python object that is mutated is a record that is passed in and
      returned; a method that may raise returns the state it reached together
      with a [result], since in Python the mutations made before a [raise]
      stay.
    - The file system is a finite map from paths to file contents; a text
      file is the list of the strings written to it, a pickled file is the
      list of the tokens written to it.
    - Exceptions are the instances of Python's [Exception] class.
    - The model, the loss, the evaluation function, the optimizer and the
      scheduler are collaborators from outside: what they return, batch by
      batch, is data given to the run, and an exception that does not follow
      from this data is a fault given to the run, at most one. *)

From Stdlib Require Import QArith Qfield Lia.
From stdpp Require Import base option list strings gmap pretty.

Open Scope string_scope.
Open Scope list_scope.

(** ** Exceptions and results *)

Inductive exn : Type :=
| ZeroDivisionError (msg : string)
| RuntimeError (msg : string)
| AttributeError (msg : string)
| KeyError (msg : string)
| IndexError (msg : string)
| TypeError (msg : string)
| UnboundLocalError (msg : string)
| AssertionError (msg : string)
| UnpicklingError (msg : string)
| MemoryError (msg : string).

(** [str(e)], as the f-string of the trailing log line formats it. *)
Definition str_exn (e : exn) : string :=
  match e with
  | ZeroDivisionError m | RuntimeError m | AttributeError m | KeyError m
  | IndexError m | TypeError m | UnboundLocalError m | AssertionError m
  | UnpicklingError m | MemoryError m => m
  end.

Inductive result (A : Type) : Type :=
| Ok (a : A)
| Raise (e : exn).
Arguments Ok {A} a.
Arguments Raise {A} e.

Definition raised {A} (r : result A) : option exn :=
  match r with Ok _ => None | Raise e => Some e end.

(** Computations over a mutable state [S]: the state reached is returned also
    when the computation raises. *)
Definition M (S A : Type) : Type := S -> S * result A.

Definition ret {S A} (a : A) : M S A := fun s => (s, Ok a).
Definition throw {S A} (e : exn) : M S A := fun s => (s, Raise e).
Definition bind {S A B} (m : M S A) (k : A -> M S B) : M S B :=
  fun s => match m s with
           | (s', Ok a) => k a s'
           | (s', Raise e) => (s', Raise e)
           end.
Definition get {S} : M S S := fun s => (s, Ok s).
Definition modify {S} (f : S -> S) : M S unit := fun s => (f s, Ok tt).
Definition lift {S A} (r : result A) : M S A := fun s => (s, r).

Declare Scope py_scope.
Delimit Scope py_scope with py.
Notation "x <- m ;; k" := (bind m (fun x => k))
  (at level 100, m at next level, right associativity) : py_scope.
Notation "m ;;; k" := (bind m (fun _ => k))
  (at level 100, right associativity) : py_scope.

(** ** Numbers *)

Definition Qltb (x y : Q) : bool := negb (Qle_bool y x).

(** [b ** n] for an integer count [n]. *)
Fixpoint Qpow (b : Q) (n : nat) : Q :=
  match n with
  | O => 1%Q
  | S k => (b * Qpow b k)%Q
  end.

(** ** [SmoothenValue] *)

Module SmoothenValue.

Record t : Type := mk {
  beta : Q;
  n : nat;
  mov_avg : Q;
  smooth : Q
}.

(** [__init__]: [self.beta, self.n, self.mov_avg = beta, 0, 0; self.smooth = 0]. *)
Definition init (beta : Q) : t :=
  {| beta := beta; n := 0; mov_avg := 0%Q; smooth := 0%Q |}.

(** [add_value].  The two first assignments are made before the division
    is evaluated; with float operands Python raises [ZeroDivisionError] at
    a zero denominator and [self.smooth] keeps its previous value. *)
Definition add_value (val : Q) : M t unit :=
  fun self =>
    let n' := S (n self) in
    let mov_avg' := (beta self * mov_avg self + (1 - beta self) * val)%Q in
    let den := (1 - Qpow (beta self) n')%Q in
    if Qeq_bool den 0
    then ({| beta := beta self; n := n'; mov_avg := mov_avg';
             smooth := smooth self |},
          Raise (ZeroDivisionError "float division by zero"))
    else ({| beta := beta self; n := n'; mov_avg := mov_avg';
             smooth := (mov_avg' / den)%Q |},
          Ok tt).

(** A sequence of calls, stopping at the first one that raises. *)
Fixpoint add_values (vals : list Q) : M t unit :=
  match vals with
  | [] => ret tt
  | v :: vs => (add_value v ;;; add_values vs)%py
  end.

(** The raw exponential moving average of the spec, written as a
    recurrence over the values in the order of the calls. *)
Definition ema (b : Q) (vals : list Q) : Q :=
  fold_left (fun acc x => b * acc + (1 - b) * x)%Q vals 0%Q.

End SmoothenValue.

(** ** Tensors of rank one, and [compute_avg] *)

(** A float scalar as a tensor holds it.  IEEE division does not raise: a
    zero denominator gives an infinity or a NaN. *)
Inductive tscalar : Type :=
| Fin (q : Q)
| PosInf
| NegInf
| NaN.

Definition tensor_div (x y : Q) : tscalar :=
  if Qeq_bool y 0
  then (if Qltb 0 x then PosInf else if Qltb x 0 then NegInf else NaN)
  else Fin (x / y)%Q.

Definition tensor_sum (t : list Q) : Q := fold_right Qplus 0%Q t.

(** [torch.stack] of a list of 0-dim tensors: a rank-one tensor; the empty
    list is refused. *)
Definition torch_stack (inp : list Q) : result (list Q) :=
  match inp with
  | [] => Raise (RuntimeError "stack expects a non-empty TensorList")
  | _ => Ok inp
  end.

Definition zip_mul (a b : list Q) : list Q :=
  zip_with Qmult a b.

(** Elementwise product of two rank-one tensors, with torch's broadcasting:
    the sizes must be equal, or one of them must be 1. *)
Definition tensor_mul (a b : list Q) : result (list Q) :=
  if Nat.eqb (length a) (length b) then Ok (zip_mul a b)
  else match a, b with
       | [x], _ => Ok (map (fun y => x * y)%Q b)
       | _, [y] => Ok (map (fun x => x * y)%Q a)
       | _, _ => Raise (RuntimeError
                  "The size of tensor a must match the size of tensor b at non-singleton dimension 0")
       end.

(** [compute_avg]: [(torch.stack(inp) * nums).sum() / nums.sum()]. *)
Definition compute_avg (inp : list Q) (nums : list Q) : result tscalar :=
  match torch_stack inp with
  | Raise e => Raise e
  | Ok st =>
      match tensor_mul st nums with
      | Raise e => Raise e
      | Ok prod => Ok (tensor_div (tensor_sum prod) (tensor_sum nums))
      end
  end.

(** [compute_avg_dict]: one shared [nums] for every key, in the order of the
    keys of [inp]; the first key that fails aborts the whole call. *)
Fixpoint compute_avg_dict (inp : list (string * list Q)) (nums : list Q)
  : result (list (string * tscalar)) :=
  match inp with
  | [] => Ok []
  | (k, vs) :: rest =>
      match compute_avg vs nums with
      | Raise e => Raise e
      | Ok a =>
          match compute_avg_dict rest nums with
          | Raise e => Raise e
          | Ok out => Ok ((k, a) :: out)
          end
      end
  end.

(** The weighted sum of the spec, [Sum (values[i] * weights[i])]. *)
Fixpoint weighted_sum (values weights : list Q) : Q :=
  match values, weights with
  | v :: vs, w :: ws => (v * w + weighted_sum vs ws)%Q
  | _, _ => 0%Q
  end.

(** ** Non-finite scalars: comparison and truth value *)

(** [a < b] on floats: false as soon as one side is a NaN. *)
Definition tlt (a b : tscalar) : bool :=
  match a, b with
  | Fin x, Fin y => Qltb x y
  | Fin _, PosInf => true
  | NegInf, Fin _ => true
  | NegInf, PosInf => true
  | _, _ => false
  end.

(** [bool(x)]: only a zero is false. *)
Definition truthy (a : tscalar) : bool :=
  match a with
  | Fin x => negb (Qeq_bool x 0)
  | _ => true
  end.

(** ** Dictionaries with string keys, in insertion order *)

Definition dict (V : Type) : Type := list (string * V).

Fixpoint dict_get {V} (k : string) (d : dict V) : option V :=
  match d with
  | [] => None
  | (k', v) :: rest => if String.eqb k k' then Some v else dict_get k rest
  end.

(** [d[k]], raising [KeyError]. *)
Definition subscript {V} (d : dict V) (k : string) : result V :=
  match dict_get k d with
  | Some v => Ok v
  | None => Raise (KeyError k)
  end.

(** [l[0]], raising [IndexError]. *)
Definition first {A} (l : list A) : result A :=
  match l with
  | x :: _ => Ok x
  | [] => Raise (IndexError "list index out of range")
  end.

(** ** The configuration and the external collaborators *)

(** The recognised options of [cfg]. *)
Record Cfg : Type := {
  resume : bool;
  resume_path : string;
  load_opt : bool;
  load_normally : bool;
  strict_load : bool;
  del_existing : bool;
  lr : Q;
  epochs : nat;
  sfn : option string
}.

(** Library functions whose results are not computed here: [json.dumps],
    the float formats of the f-strings, and [load_state_dict] of a module
    (which may refuse a state under [strict]).  State dictionaries of the
    model, the optimizer and the scheduler are opaque numbers. *)
Class External : Type := {
  json_dumps : Cfg -> string;
  fmt_4f : tscalar -> string;          (* f'{x:.4f}' *)
  fmt_time : Q -> string;              (* f'{x: 0.4f}' *)
  load_state_dict : bool -> nat -> nat -> result nat;
  opt_fn : nat -> Q -> nat;            (* a new optimizer for a model *)
  lr_sched_fn : option string -> nat -> nat  (* a new scheduler for an optimizer *)
}.

(** ** Checkpoints, predictions and files *)

(** The dictionary handed to [torch.save]; a field is [None] when the key is
    absent from the dictionary. *)
Record checkpoint : Type := {
  model_state_dict : option nat;
  optimizer_state_dict : option nat;
  scheduler_state_dict : option nat;
  ck_num_it : option nat;
  ck_num_epoch : option nat;
  cfgtxt : option string;
  ck_best_met : option tscalar
}.

Definition empty_checkpoint : checkpoint :=
  {| model_state_dict := None; optimizer_state_dict := None;
     scheduler_state_dict := None; ck_num_it := None; ck_num_epoch := None;
     cfgtxt := None; ck_best_met := None |}.

Record prediction : Type := {
  id : nat;
  pred_boxes : list Q;
  pred_scores : Q
}.

(** What a pickled file is made of: one token per dictionary entry or list
    element, and the closing [STOP] opcode. *)
Inductive token : Type :=
| TModel (s : nat)
| TOptimizer (s : nat)
| TScheduler (s : nat)
| TNumIt (n : nat)
| TNumEpoch (n : nat)
| TCfgtxt (s : string)
| TBestMet (m : tscalar)
| TPred (p : prediction)
| TStop.

Definition opt_token {A} (f : A -> token) (o : option A) : list token :=
  match o with Some a => [f a] | None => [] end.

(** The tokens of a checkpoint, in the order of the keys of the dictionary
    built by [save_model_dict]. *)
Definition dump_checkpoint (ck : checkpoint) : list token :=
  opt_token TModel (model_state_dict ck) ++
  opt_token TOptimizer (optimizer_state_dict ck) ++
  opt_token TScheduler (scheduler_state_dict ck) ++
  opt_token TNumIt (ck_num_it ck) ++
  opt_token TNumEpoch (ck_num_epoch ck) ++
  opt_token TCfgtxt (cfgtxt ck) ++
  opt_token TBestMet (ck_best_met ck) ++
  [TStop].

Definition dump_predictions (ps : list prediction) : list token :=
  map TPred ps ++ [TStop].

Definition set_entry (t : token) (ck : checkpoint) : option checkpoint :=
  match t with
  | TModel s => Some {| model_state_dict := Some s;
      optimizer_state_dict := optimizer_state_dict ck;
      scheduler_state_dict := scheduler_state_dict ck;
      ck_num_it := ck_num_it ck; ck_num_epoch := ck_num_epoch ck;
      cfgtxt := cfgtxt ck; ck_best_met := ck_best_met ck |}
  | TOptimizer s => Some {| model_state_dict := model_state_dict ck;
      optimizer_state_dict := Some s;
      scheduler_state_dict := scheduler_state_dict ck;
      ck_num_it := ck_num_it ck; ck_num_epoch := ck_num_epoch ck;
      cfgtxt := cfgtxt ck; ck_best_met := ck_best_met ck |}
  | TScheduler s => Some {| model_state_dict := model_state_dict ck;
      optimizer_state_dict := optimizer_state_dict ck;
      scheduler_state_dict := Some s;
      ck_num_it := ck_num_it ck; ck_num_epoch := ck_num_epoch ck;
      cfgtxt := cfgtxt ck; ck_best_met := ck_best_met ck |}
  | TNumIt n => Some {| model_state_dict := model_state_dict ck;
      optimizer_state_dict := optimizer_state_dict ck;
      scheduler_state_dict := scheduler_state_dict ck;
      ck_num_it := Some n; ck_num_epoch := ck_num_epoch ck;
      cfgtxt := cfgtxt ck; ck_best_met := ck_best_met ck |}
  | TNumEpoch n => Some {| model_state_dict := model_state_dict ck;
      optimizer_state_dict := optimizer_state_dict ck;
      scheduler_state_dict := scheduler_state_dict ck;
      ck_num_it := ck_num_it ck; ck_num_epoch := Some n;
      cfgtxt := cfgtxt ck; ck_best_met := ck_best_met ck |}
  | TCfgtxt s => Some {| model_state_dict := model_state_dict ck;
      optimizer_state_dict := optimizer_state_dict ck;
      scheduler_state_dict := scheduler_state_dict ck;
      ck_num_it := ck_num_it ck; ck_num_epoch := ck_num_epoch ck;
      cfgtxt := Some s; ck_best_met := ck_best_met ck |}
  | TBestMet m => Some {| model_state_dict := model_state_dict ck;
      optimizer_state_dict := optimizer_state_dict ck;
      scheduler_state_dict := scheduler_state_dict ck;
      ck_num_it := ck_num_it ck; ck_num_epoch := ck_num_epoch ck;
      cfgtxt := cfgtxt ck; ck_best_met := Some m |}
  | TPred _ | TStop => None
  end.

(** Unpickling a checkpoint: the entries are read in order and the stream
    must end with [STOP]; a stream cut short does not load. *)
Fixpoint parse_checkpoint (toks : list token) (acc : checkpoint)
  : option checkpoint :=
  match toks with
  | [] => None
  | [TStop] => Some acc
  | t :: rest =>
      match set_entry t acc with
      | Some acc' => parse_checkpoint rest acc'
      | None => None
      end
  end.

Inductive filedata : Type :=
| Text (chunks : list string)
| Binary (toks : list token).

(** A file system: paths are strings, directories are the prefixes of the
    paths of the files ([mkdir(parents=True, exist_ok=True)] changes
    nothing at this level). *)
Abbreviation FS := (gmap string filedata).

Definition path_join (dir name : string) : string := dir +:+ "/" +:+ name.

Definition exists_ (p : string) (fs : FS) : bool := bool_decide (is_Some (fs !! p)).

(** [open(p, 'w')] / [open(p, 'wb')]: the file is created or cut to length
    zero. *)
Definition open_w (p : string) (fs : FS) : FS := <[p := Text []]> fs.
Definition open_wb (p : string) (fs : FS) : FS := <[p := Binary []]> fs.

(** [open(p, 'a')]: the file is created when missing, its content is kept
    otherwise. *)
Definition open_a (p : string) (fs : FS) : FS :=
  match fs !! p with
  | Some _ => fs
  | None => <[p := Text []]> fs
  end.

(** [f.write(s)] on a text file opened for writing or appending. *)
Definition write_text (p : string) (s : string) (fs : FS) : FS :=
  match fs !! p with
  | Some (Text chunks) => <[p := Text (chunks ++ [s])]> fs
  | _ => <[p := Text [s]]> fs
  end.

Definition write_tokens (p : string) (toks : list token) (fs : FS) : FS :=
  match fs !! p with
  | Some (Binary old) => <[p := Binary (old ++ toks)]> fs
  | _ => <[p := Binary toks]> fs
  end.

(** [shutil.rmtree(d)]: every file below [d] goes. *)
Definition rmtree (d : string) (fs : FS) : FS :=
  filter (fun kv => negb (String.prefix (d +:+ "/") kv.1) = true) fs.

(** ** The state the [Learner] works on *)

(** The writes made to files, in order.  [EvTorchSave] and [EvPickleDump]
    are recorded when the call starts, that is when the file is opened. *)
Inductive event : Type :=
| EvWrite (p : string) (s : string)
| EvTorchSave (p : string) (ck : checkpoint)
| EvPickleDump (p : string) (ps : list prediction).

(** The attributes of a [Learner].  [log_dir] is read by [prepare_log_file]
    but assigned nowhere in the class: it is [None] unless a caller has put
    it on the object.  [optimizer] and [lr_scheduler] exist once [fit] or
    [load_model_dict] has set them. *)
Record Learner : Type := {
  uid : string;
  data_path : string;
  mdl : nat;
  cfg : Cfg;
  loss_keys : list string;
  met_keys : list string;
  log_keys : list string;
  log_file : string;
  tb_log_dir : string;
  extra_log_dir : string;
  predictions_file : string;
  model_file : string;
  log_dir : option string;
  num_it : nat;
  num_epoch : nat;
  best_met : tscalar;
  optimizer : option nat;
  lr_scheduler : option nat;
  sched_using_val_metric : bool
}.

(** The local variables of a running [fit] that its [finally] block reads:
    the loop variable [epoch] (unbound before the first iteration) and
    [met_to_use] (initially [None]). *)
Record Frame : Type := {
  epoch : option nat;
  met_to_use : option tscalar
}.

Record St : Type := {
  self : Learner;
  fs : FS;
  trace : list event;
  frame : Frame
}.

Definition with_self (f : Learner -> Learner) (s : St) : St :=
  {| self := f (self s); fs := fs s; trace := trace s; frame := frame s |}.
Definition with_fs (f : FS -> FS) (s : St) : St :=
  {| self := self s; fs := f (fs s); trace := trace s; frame := frame s |}.
Definition with_frame (f : Frame -> Frame) (s : St) : St :=
  {| self := self s; fs := fs s; trace := trace s; frame := f (frame s) |}.
Definition emit (ev : event) (s : St) : St :=
  {| self := self s; fs := fs s; trace := trace s ++ [ev]; frame := frame s |}.

Definition set_num_it (n : nat) (l : Learner) : Learner :=
  {| uid := uid l; data_path := data_path l; mdl := mdl l; cfg := cfg l;
     loss_keys := loss_keys l; met_keys := met_keys l; log_keys := log_keys l;
     log_file := log_file l; tb_log_dir := tb_log_dir l;
     extra_log_dir := extra_log_dir l; predictions_file := predictions_file l;
     model_file := model_file l; log_dir := log_dir l;
     num_it := n; num_epoch := num_epoch l; best_met := best_met l;
     optimizer := optimizer l; lr_scheduler := lr_scheduler l;
     sched_using_val_metric := sched_using_val_metric l |}.
Definition set_num_epoch (n : nat) (l : Learner) : Learner :=
  {| uid := uid l; data_path := data_path l; mdl := mdl l; cfg := cfg l;
     loss_keys := loss_keys l; met_keys := met_keys l; log_keys := log_keys l;
     log_file := log_file l; tb_log_dir := tb_log_dir l;
     extra_log_dir := extra_log_dir l; predictions_file := predictions_file l;
     model_file := model_file l; log_dir := log_dir l;
     num_it := num_it l; num_epoch := n; best_met := best_met l;
     optimizer := optimizer l; lr_scheduler := lr_scheduler l;
     sched_using_val_metric := sched_using_val_metric l |}.
Definition set_best_met (m : tscalar) (l : Learner) : Learner :=
  {| uid := uid l; data_path := data_path l; mdl := mdl l; cfg := cfg l;
     loss_keys := loss_keys l; met_keys := met_keys l; log_keys := log_keys l;
     log_file := log_file l; tb_log_dir := tb_log_dir l;
     extra_log_dir := extra_log_dir l; predictions_file := predictions_file l;
     model_file := model_file l; log_dir := log_dir l;
     num_it := num_it l; num_epoch := num_epoch l; best_met := m;
     optimizer := optimizer l; lr_scheduler := lr_scheduler l;
     sched_using_val_metric := sched_using_val_metric l |}.
Definition set_mdl (m : nat) (l : Learner) : Learner :=
  {| uid := uid l; data_path := data_path l; mdl := m; cfg := cfg l;
     loss_keys := loss_keys l; met_keys := met_keys l; log_keys := log_keys l;
     log_file := log_file l; tb_log_dir := tb_log_dir l;
     extra_log_dir := extra_log_dir l; predictions_file := predictions_file l;
     model_file := model_file l; log_dir := log_dir l;
     num_it := num_it l; num_epoch := num_epoch l; best_met := best_met l;
     optimizer := optimizer l; lr_scheduler := lr_scheduler l;
     sched_using_val_metric := sched_using_val_metric l |}.
Definition set_optimizer (o : nat) (l : Learner) : Learner :=
  {| uid := uid l; data_path := data_path l; mdl := mdl l; cfg := cfg l;
     loss_keys := loss_keys l; met_keys := met_keys l; log_keys := log_keys l;
     log_file := log_file l; tb_log_dir := tb_log_dir l;
     extra_log_dir := extra_log_dir l; predictions_file := predictions_file l;
     model_file := model_file l; log_dir := log_dir l;
     num_it := num_it l; num_epoch := num_epoch l; best_met := best_met l;
     optimizer := Some o; lr_scheduler := lr_scheduler l;
     sched_using_val_metric := sched_using_val_metric l |}.
Definition set_lr_scheduler (sc : nat) (l : Learner) : Learner :=
  {| uid := uid l; data_path := data_path l; mdl := mdl l; cfg := cfg l;
     loss_keys := loss_keys l; met_keys := met_keys l; log_keys := log_keys l;
     log_file := log_file l; tb_log_dir := tb_log_dir l;
     extra_log_dir := extra_log_dir l; predictions_file := predictions_file l;
     model_file := model_file l; log_dir := log_dir l;
     num_it := num_it l; num_epoch := num_epoch l; best_met := best_met l;
     optimizer := optimizer l; lr_scheduler := Some sc;
     sched_using_val_metric := sched_using_val_metric l |}.
Definition set_sched_using_val_metric (b : bool) (l : Learner) : Learner :=
  {| uid := uid l; data_path := data_path l; mdl := mdl l; cfg := cfg l;
     loss_keys := loss_keys l; met_keys := met_keys l; log_keys := log_keys l;
     log_file := log_file l; tb_log_dir := tb_log_dir l;
     extra_log_dir := extra_log_dir l; predictions_file := predictions_file l;
     model_file := model_file l; log_dir := log_dir l;
     num_it := num_it l; num_epoch := num_epoch l; best_met := best_met l;
     optimizer := optimizer l; lr_scheduler := lr_scheduler l;
     sched_using_val_metric := b |}.

Definition set_epoch (e : nat) (f : Frame) : Frame :=
  {| epoch := Some e; met_to_use := met_to_use f |}.
Definition set_met_to_use (m : tscalar) (f : Frame) : Frame :=
  {| epoch := epoch f; met_to_use := Some m |}.

(** ** What the collaborators do in a run *)

(** The model, the loss and the evaluation function are called once per
    batch; what they return in an epoch is given batch by batch.  [tb_mdl]
    and [tb_opt] are the states of the model and of the optimizer after
    [optimizer.step()]. *)
Record TrainBatch : Type := {
  tb_out_loss : dict Q;
  tb_metric : dict Q;
  tb_mdl : nat;
  tb_opt : nat
}.

Record ValBatch : Type := {
  vb_out_loss : dict Q;
  vb_metric : dict Q;
  vb_size : nat;                    (* batch[next(iter(batch))].shape[0] *)
  vb_idxs : list nat;               (* metric['idxs'].tolist() *)
  vb_pred_boxes : list (list Q);    (* metric['pred_boxes'].tolist() *)
  vb_pred_scores : list Q           (* metric['pred_scores'].tolist() *)
}.

Record EpochData : Type := {
  ed_train : list TrainBatch;
  ed_valid : list ValBatch;
  ed_sched : nat                    (* the scheduler after its step *)
}.

(** Where an exception that does not follow from the data can be raised in
    the body of the epoch loop (by a collaborator, by the file system, by
    the allocator): inside [train_epoch] or [validate] while batch [j] is
    processed, inside [scheduler_step], at the comparison that follows the
    assignment of [met_to_use], inside [torch.save] or [pickle.dump] after
    [written] tokens, inside [prepare_to_write], the display, or
    [update_log_file]. *)
Inductive Point : Type :=
| PTrainBatch (j : nat)
| PValidateBatch (j : nat)
| PSchedulerStep
| PCompare
| PSaveModelDict (written : nat)
| PUpdatePredictionFile (written : nat)
| PPrepareToWrite
| PDisplay
| PUpdateLogFile.

(** At most one such exception is raised in a run: the first one ends the
    loop. *)
Record Fault : Type := {
  f_epoch : nat;
  f_point : Point;
  f_exn : exn
}.

Global Instance Point_eq_dec : EqDecision Point.
Proof. solve_decision. Defined.

(** The exception to raise at point [pt] of epoch [e], if any. *)
Definition fault_at (flt : option Fault) (e : nat) (pt : Point) : option exn :=
  match flt with
  | Some f =>
      if bool_decide (f_epoch f = e /\ f_point f = pt) then Some (f_exn f)
      else None
  | None => None
  end.

(** The exception to raise in a call made of numbered steps, with the step
    at which it is raised. *)
Definition fault_in (flt : option Fault) (e : nat) (pt : nat -> Point)
  : option (nat * exn) :=
  match flt with
  | Some f =>
      match f_point f with
      | PTrainBatch j | PValidateBatch j | PSaveModelDict j
      | PUpdatePredictionFile j =>
          if bool_decide (f_epoch f = e /\ f_point f = pt j)
          then Some (j, f_exn f) else None
      | _ => None
      end
  | None => None
  end.

Definition check (x : option exn) : M St unit :=
  match x with
  | Some e => throw e
  | None => ret tt
  end.

(** ** [SmoothenDict] *)

Module SmoothenDict.

Record t : Type := mk {
  keys : list string;
  smooth_vals : dict SmoothenValue.t
}.

(** [{k: SmoothenValue(val) for k in keys}]: a key that comes twice has
    one entry. *)
Fixpoint comprehension {V} (ks : list string) (v : V) (acc : dict V) : dict V :=
  match ks with
  | [] => acc
  | k :: rest =>
      match dict_get k acc with
      | Some _ => comprehension rest v acc
      | None => comprehension rest v (app acc [(k, v)])
      end
  end.

Definition init (keys : list string) (val : Q) : t :=
  {| keys := keys;
     smooth_vals := comprehension keys (SmoothenValue.init val) [] |}.

Fixpoint dict_set {V} (k : string) (v : V) (d : dict V) : dict V :=
  match d with
  | [] => [(k, v)]
  | (k', v') :: rest =>
      if String.eqb k k' then (k, v) :: rest else (k', v') :: dict_set k v rest
  end.

Fixpoint add_value_keys (ks : list string) (val : dict Q)
  (sv : dict SmoothenValue.t) : dict SmoothenValue.t * result unit :=
  match ks with
  | [] => (sv, Ok tt)
  | k :: rest =>
      match subscript sv k, subscript val k with
      | Raise e, _ => (sv, Raise e)
      | _, Raise e => (sv, Raise e)
      | Ok s, Ok x =>
          match SmoothenValue.add_value x s with
          | (s', Ok _) => add_value_keys rest val (dict_set k s' sv)
          | (s', Raise e) => (dict_set k s' sv, Raise e)
          end
      end
  end.

(** [for k in self.keys: self.smooth_vals[k].add_value(val[k].detach())]. *)
Definition add_value (val : dict Q) : M t unit :=
  fun d =>
    let '(sv, r) := add_value_keys (keys d) val (smooth_vals d) in
    ({| keys := keys d; smooth_vals := sv |}, r).

Fixpoint smooth_keys (ks : list string) (sv : dict SmoothenValue.t)
  (acc : dict Q) : result (dict Q) :=
  match ks with
  | [] => Ok acc
  | k :: rest =>
      match subscript sv k with
      | Raise e => Raise e
      | Ok s => smooth_keys rest sv (dict_set k (SmoothenValue.smooth s) acc)
      end
  end.

(** [{k: self.smooth_vals[k].smooth for k in self.keys}]. *)
Definition smooth (d : t) : result (dict Q) :=
  smooth_keys (keys d) (smooth_vals d) [].

(** [self.smooth_vals[self.keys[0]].smooth]. *)
Definition smooth1 (d : t) : result Q :=
  match first (keys d) with
  | Raise e => Raise e
  | Ok k =>
      match subscript (smooth_vals d) k with
      | Raise e => Raise e
      | Ok s => Ok (SmoothenValue.smooth s)
      end
  end.

End SmoothenDict.

(** ** [good_format_stats] *)

Inductive stat : Type :=
| SInt (n : nat)
| STensor (x : tscalar).

Fixpoint spaces (n : nat) : string :=
  match n with
  | O => ""
  | S k => " " +:+ spaces k
  end.

Definition join (sep : string) (l : list string) : string := String.concat sep l.

Section Formatting.
Context `{External}.

(** One cell: [str(stat)] for an [int], four decimals otherwise, padded
    with spaces up to the length of the column name. *)
Definition format_stat (name : string) (st : stat) : string :=
  let t := match st with
           | SInt n => pretty n
           | STensor x => fmt_4f x
           end in
  t +:+ spaces (String.length name - String.length t).

Definition good_format_stats (names : list string) (stats : list stat) : string :=
  join "  " (zip_with format_stat names stats).

End Formatting.

(** ** Results without state *)

Definition rbind {A B} (r : result A) (k : A -> result B) : result B :=
  match r with
  | Ok a => k a
  | Raise e => Raise e
  end.

Notation "x <~ r ;; k" := (rbind r (fun x => k))
  (at level 100, r at next level, right associativity) : py_scope.

Definition nl : string := String (Ascii.ascii_of_nat 10) "".

(** [l[i]], raising [IndexError]. *)
Definition item {A} (l : list A) (i : nat) : result A :=
  match l !! i with
  | Some x => Ok x
  | None => Raise (IndexError "list index out of range")
  end.

Fixpoint mapM {A B} (f : A -> result B) (l : list A) : result (list B) :=
  match l with
  | [] => Ok []
  | a :: rest => (b <~ f a ;; bs <~ mapM f rest ;; Ok (b :: bs))%py
  end.

(** ** The [Learner]: log file *)

(** [prepare_log_keys]. *)
Definition prepare_log_keys (keys_list : list (list string))
  (prefix : list string) : list string :=
  flat_map (fun keys =>
    flat_map (fun key => map (fun p => p +:+ "_" +:+ key) prefix) keys)
    keys_list.

Definition getself : M St Learner := fun s => (s, Ok (self s)).

(** [f.write(s)] on the file at [p]. *)
Definition f_write (p : string) (s : string) : M St unit :=
  modify (fun st => emit (EvWrite p s) (with_fs (write_text p s) st)).

Section LearnerMethods.
Context `{External}.

(** [prepare_log_file].  In the branch that deletes, the message given to
    the logger reads [self.log_dir] before anything is removed. *)
Definition prepare_log_file : M St unit :=
  (l <- getself ;;
   s <- get ;;
   (if exists_ (log_file l) (fs s) then
      if del_existing (cfg l) then
        match log_dir l with
        | None =>
            throw (AttributeError "'Learner' object has no attribute 'log_dir'")
        | Some d =>
            modify (with_fs (rmtree d)) ;;;
            modify (with_fs (open_w (log_file l)))
        end
      else modify (with_fs (open_a (log_file l)))
    else modify (with_fs (open_w (log_file l)))) ;;;
   f_write (log_file l) (json_dumps (cfg l)) ;;;
   f_write (log_file l) (nl +:+ nl) ;;;
   f_write (log_file l) (join "  " (log_keys l) +:+ nl))%py.

(** [update_log_file]. *)
Definition update_log_file (towrite : string) : M St unit :=
  (l <- getself ;;
   modify (with_fs (open_a (log_file l))) ;;;
   f_write (log_file l) (towrite +:+ nl))%py.

(** ** The [Learner]: validation and training passes *)

(** [get_predictions_list] on the dictionary built by [validate]: its
    first key is ['id'], whose list gives the number of rows. *)
Definition get_predictions_list (ids : list nat) (boxes : list (list Q))
  (scores : list Q) : result (list prediction) :=
  mapM (fun ind =>
          i <~ item ids ind ;;
          b <~ item boxes ind ;;
          sc <~ item scores ind ;;
          Ok {| id := i; pred_boxes := b; pred_scores := sc |})%py
       (seq 0 (length ids)).

(** [for k in keys: acc[k].append(val[k])]. *)
Fixpoint append_keys (ks : list string) (val : dict Q)
  (acc : dict (list Q)) : result (dict (list Q)) :=
  match ks with
  | [] => Ok acc
  | k :: rest =>
      (old <~ subscript acc k ;;
       x <~ subscript val k ;;
       append_keys rest val (SmoothenDict.dict_set k (app old [x]) acc))%py
  end.

Definition raise_if (x : option exn) : result unit :=
  match x with
  | Some e => Raise e
  | None => Ok tt
  end.

Definition fault_here (flt : option (nat * exn)) (j : nat) : option exn :=
  match flt with
  | Some (j', e) => if Nat.eqb j' j then Some e else None
  | None => None
  end.

Fixpoint validate_loop (l : Learner) (flt : option (nat * exn)) (j : nat)
  (db : list ValBatch) (val_losses eval_metrics : dict (list Q))
  (nums : list nat) (predicted : list prediction)
  : result (dict (list Q) * dict (list Q) * list nat * list prediction) :=
  match db with
  | [] => Ok (val_losses, eval_metrics, nums, predicted)
  | batch :: rest =>
      (_ <~ raise_if (fault_here flt j) ;;
       val_losses' <~ append_keys (loss_keys l) (vb_out_loss batch) val_losses ;;
       eval_metrics' <~ append_keys (met_keys l) (vb_metric batch) eval_metrics ;;
       ps <~ get_predictions_list (vb_idxs batch) (vb_pred_boxes batch)
               (vb_pred_scores batch) ;;
       validate_loop l flt (S j) rest val_losses' eval_metrics'
         (app nums [vb_size batch]) (app predicted ps))%py
  end.

(** [validate]: the size-weighted means of the losses and of the metrics
    over the batches, and the flattened predictions. *)
Definition validate (l : Learner) (db : list ValBatch)
  (flt : option (nat * exn))
  : result (dict tscalar * dict tscalar * list prediction) :=
  (acc <~ validate_loop l flt 0 db
            (SmoothenDict.comprehension (loss_keys l) [] [])
            (SmoothenDict.comprehension (met_keys l) [] [])
            [] [] ;;
   let '(val_losses, eval_metrics, nums, predicted) := acc in
   let nums := map (fun n => inject_Z (Z.of_nat n)) nums in
   val_loss <~ compute_avg_dict val_losses nums ;;
   eval_metric <~ compute_avg_dict eval_metrics nums ;;
   Ok (val_loss, eval_metric, predicted))%py.

Fixpoint train_loop (flt : option (nat * exn)) (j : nat)
  (dl : list TrainBatch) (trn_loss trn_acc : SmoothenDict.t)
  : M St (SmoothenDict.t * SmoothenDict.t) :=
  match dl with
  | [] => ret (trn_loss, trn_acc)
  | batch :: rest =>
      (modify (with_self (fun l => set_num_it (S (num_it l)) l)) ;;;
       l <- getself ;;
       _ <- lift (match optimizer l with
                  | Some _ => Ok tt
                  | None => Raise (AttributeError
                      "'Learner' object has no attribute 'optimizer'")
                  end) ;;
       check (fault_here flt j) ;;;
       k0 <- lift (first (loss_keys l)) ;;
       _ <- lift (subscript (tb_out_loss batch) k0) ;;
       modify (with_self (fun l => set_optimizer (tb_opt batch)
                                     (set_mdl (tb_mdl batch) l))) ;;;
       let '(trn_loss', r1) :=
         SmoothenDict.add_value (tb_out_loss batch) trn_loss in
       _ <- lift r1 ;;
       let '(trn_acc', r2) :=
         SmoothenDict.add_value (tb_metric batch) trn_acc in
       _ <- lift r2 ;;
       _ <- lift (SmoothenDict.smooth1 trn_loss') ;;
       _ <- lift (SmoothenDict.smooth1 trn_acc') ;;
       train_loop flt (S j) rest trn_loss' trn_acc')%py
  end.

(** [train_epoch]: [num_it] grows by one per batch; the smoothed losses
    and metrics of the epoch are returned.  [del batch] after the loop
    fails when the loader gave no batch. *)
Definition train_epoch (dl : list TrainBatch) (flt : option (nat * exn))
  : M St (dict Q * dict Q) :=
  (l <- getself ;;
   acc <- train_loop flt 0 dl
            (SmoothenDict.init (loss_keys l) (9 # 10))
            (SmoothenDict.init (met_keys l) (9 # 10)) ;;
   _ <- lift (match dl with
              | [] => Raise (UnboundLocalError
                  "local variable 'batch' referenced before assignment")
              | _ => Ok tt
              end) ;;
   trn_loss <- lift (SmoothenDict.smooth (fst acc)) ;;
   trn_acc <- lift (SmoothenDict.smooth (snd acc)) ;;
   ret (trn_loss, trn_acc))%py.

End LearnerMethods.

Section LearnerCheckpoint.
Context `{External}.

(** ** The [Learner]: checkpoint and predictions *)

(** [torch.load(open(mfile, 'rb'))] on the content of an existing file. *)
Definition torch_load (fd : filedata) : result checkpoint :=
  match fd with
  | Binary toks =>
      match parse_checkpoint toks empty_checkpoint with
      | Some ck => Ok ck
      | None => Raise (UnpicklingError "pickle data was truncated")
      end
  | Text _ => Raise (UnpicklingError "invalid load key")
  end.

(** [prepare_optimizer]: [opt_fn] on the given parameters, or on the
    parameters of the model. *)
Definition prepare_optimizer (l : Learner) (params : option nat) : nat :=
  opt_fn (default (mdl l) params) (lr (cfg l)).

(** [prepare_scheduler]. *)
Definition prepare_scheduler (opt : nat) : M St nat :=
  (modify (with_self (set_sched_using_val_metric false)) ;;;
   l <- getself ;;
   match sfn (cfg l) with
   | Some name =>
       modify (with_self (set_sched_using_val_metric
                            (String.eqb name "ReduceLROnPlateau"))) ;;;
       ret (lr_sched_fn (Some name) opt)
   | None => ret (lr_sched_fn None opt)
   end)%py.

Definition key_of {A} (name : string) (o : option A) : result A :=
  match o with
  | Some a => Ok a
  | None => Raise (KeyError name)
  end.

(** The file [load_model_dict] reads: the canonical checkpoint when
    [resume_path] is the empty string, [Path(resume_path)] otherwise. *)
Definition resume_file (l : Learner) (resume_path : string) : string :=
  match resume_path with
  | "" => model_file l
  | _ => resume_path
  end.

(** [load_model_dict]. *)
Definition load_model_dict (resume_path : option string) (load_opt : bool)
  : M St unit :=
  (l <- getself ;;
   s <- get ;;
   mfile <- lift (match resume_path with
                  | Some p => Ok (resume_file l p)
                  | None => Raise (TypeError
                      "expected str, bytes or os.PathLike object, not NoneType")
                  end) ;;
   match fs s !! mfile with
   | None => ret tt       (* logged: starting from scratch *)
   | Some fd =>
       checkpoint <- lift (torch_load fd) ;;
       (if load_normally (cfg l) then
          sd <- lift (key_of "model_state_dict" (model_state_dict checkpoint)) ;;
          m <- lift (load_state_dict (strict_load (cfg l)) (mdl l) sd) ;;
          modify (with_self (set_mdl m))
        else ret tt) ;;;
       match ck_num_it checkpoint with
       | Some n => modify (with_self (set_num_it n))
       | None => ret tt
       end ;;;
       match ck_num_epoch checkpoint with
       | Some n => modify (with_self (set_num_epoch n))
       | None => ret tt
       end ;;;
       match ck_best_met checkpoint with
       | Some m => modify (with_self (set_best_met m))
       | None => ret tt
       end ;;;
       if load_opt then
         l' <- getself ;;
         modify (with_self (set_optimizer (prepare_optimizer l' None))) ;;;
         sd <- lift (key_of "optimizer_state_dict"
                       (optimizer_state_dict checkpoint)) ;;
         modify (with_self (set_optimizer sd)) ;;;
         match scheduler_state_dict checkpoint with
         | Some _ =>
             throw (TypeError
               "prepare_scheduler() missing 1 required positional argument: 'opt'")
         | None => ret tt
         end
       else ret tt
   end)%py.

(** The tokens [torch.save] or [pickle.dump] gets to write: all of them,
    or those written before the call is interrupted. *)
Definition written_tokens (toks : list token) (interrupt : option (nat * exn))
  : list token :=
  match interrupt with
  | Some (k, _) => take k toks
  | None => toks
  end.

Definition interrupted (interrupt : option (nat * exn)) : M St unit :=
  check (option_map snd interrupt).

(** The dictionary built by [save_model_dict], given the state
    dictionaries of the optimizer and of the scheduler. *)
Definition checkpoint_of (l : Learner) (osd ssd : nat) : checkpoint :=
  {| model_state_dict := Some (mdl l);
     optimizer_state_dict := Some osd;
     scheduler_state_dict := Some ssd;
     ck_num_it := Some (num_it l);
     ck_num_epoch := Some (num_epoch l);
     cfgtxt := Some (json_dumps (cfg l));
     ck_best_met := Some (best_met l) |}.

(** [save_model_dict].  The dictionary is built first; the file at the
    canonical path is then opened with ['wb'] (which empties it) and
    [torch.save] writes into it. *)
Definition save_model_dict (interrupt : option (nat * exn)) : M St unit :=
  (l <- getself ;;
   osd <- lift (match optimizer l with
                | Some o => Ok o
                | None => Raise (AttributeError
                    "'Learner' object has no attribute 'optimizer'")
                end) ;;
   ssd <- lift (match lr_scheduler l with
                | Some sc => Ok sc
                | None => Raise (AttributeError
                    "'Learner' object has no attribute 'lr_scheduler'")
                end) ;;
   let checkpoint := checkpoint_of l osd ssd in
   modify (with_fs (open_wb (model_file l))) ;;;
   modify (emit (EvTorchSave (model_file l) checkpoint)) ;;;
   modify (with_fs (write_tokens (model_file l)
             (written_tokens (dump_checkpoint checkpoint) interrupt))) ;;;
   interrupted interrupt)%py.

(** [update_prediction_file]. *)
Definition update_prediction_file (predictions : list prediction)
  (interrupt : option (nat * exn)) : M St unit :=
  (l <- getself ;;
   modify (with_fs (open_wb (predictions_file l))) ;;;
   modify (emit (EvPickleDump (predictions_file l) predictions)) ;;;
   modify (with_fs (write_tokens (predictions_file l)
             (written_tokens (dump_predictions predictions) interrupt))) ;;;
   interrupted interrupt)%py.

(** ** The [Learner]: the training loop *)

Definition tensor_stat (x : Q) : stat := STensor (Fin x).

Fixpoint rows_of (ks : list string) (trn : dict Q)
  (val : option (dict tscalar)) : result (list stat) :=
  match ks with
  | [] => Ok []
  | k :: rest =>
      (t <~ subscript trn k ;;
       v <~ match val with
            | Some d => (x <~ subscript d k ;; Ok [STensor x])
            | None => Ok []
            end ;;
       more <~ rows_of rest trn val ;;
       Ok (tensor_stat t :: app v more))%py
  end.

(** [prepare_to_write]. *)
Definition prepare_to_write (train_loss train_acc : dict Q)
  (val_loss val_acc : option (dict tscalar)) : M St (list stat) :=
  (l <- getself ;;
   losses <- lift (rows_of (loss_keys l) train_loss val_loss) ;;
   accs <- lift (rows_of (met_keys l) train_acc val_acc) ;;
   let out_list := SInt (num_epoch l) :: app losses accs in
   if Nat.eqb (length out_list) (length (log_keys l))
   then ret out_list
   else throw (AssertionError ""))%py.

(** [scheduler_step]: the scheduler is stepped with or without the
    metric; [sched] is its state after the step. *)
Definition scheduler_step (val_metric : tscalar) (sched : nat)
  (flt : option exn) : M St unit :=
  (l <- getself ;;
   check flt ;;;
   if sched_using_val_metric l
   then modify (with_self (set_lr_scheduler sched))
   else modify (with_self (set_lr_scheduler sched)))%py.

(** The body of [for epoch in mb:] in [fit]. *)
Definition epoch_body (script : nat -> EpochData) (flt : option Fault)
  (e : nat) : M St unit :=
  (modify (with_frame (set_epoch e)) ;;;
   modify (with_self (fun l => set_num_epoch (S (num_epoch l)) l)) ;;;
   trn <- train_epoch (ed_train (script e)) (fault_in flt e PTrainBatch) ;;
   l <- getself ;;
   val <- lift (validate l (ed_valid (script e))
                  (fault_in flt e PValidateBatch)) ;;
   let '(valid_loss, valid_acc, predictions) := val in
   k0 <- lift (first (met_keys l)) ;;
   valid_acc_to_use <- lift (subscript valid_acc k0) ;;
   scheduler_step valid_acc_to_use (ed_sched (script e))
     (fault_at flt e PSchedulerStep) ;;;
   m <- lift (subscript valid_acc k0) ;;
   modify (with_frame (set_met_to_use m)) ;;;
   check (fault_at flt e PCompare) ;;;
   l <- getself ;;
   (if tlt (best_met l) m then
      modify (with_self (set_best_met m)) ;;;
      save_model_dict (fault_in flt e PSaveModelDict) ;;;
      update_prediction_file predictions
        (fault_in flt e PUpdatePredictionFile)
    else ret tt) ;;;
   check (fault_at flt e PPrepareToWrite) ;;;
   to_write <- prepare_to_write (fst trn) (snd trn)
                 (Some valid_loss) (Some valid_acc) ;;
   check (fault_at flt e PDisplay) ;;;
   check (fault_at flt e PUpdateLogFile) ;;;
   l <- getself ;;
   update_log_file (good_format_stats (log_keys l) to_write))%py.

Fixpoint epoch_loop (script : nat -> EpochData) (flt : option Fault)
  (es : list nat) : M St unit :=
  match es with
  | [] => ret tt
  | e :: rest => (epoch_body script flt e ;;; epoch_loop script flt rest)%py
  end.

(** The trailing line of the log. *)
Definition summary_line (e : nat) (exception : option exn) (elapsed : Q)
  : string :=
  "epochs done " +:+ pretty e +:+ ". Exited due to exception " +:+
  match exception with
  | Some x => str_exn x
  | None => "False"
  end +:+ ". Total time taken " +:+ fmt_time elapsed +:+ nl +:+ nl.

(** The [finally] block of [fit].  Its own calls are taken to succeed:
    it raises only when the loop variable is unbound, that is when the
    loop did not run at all. *)
Definition finalize (exception : option exn) (st_time end_time : Q)
  : M St unit :=
  (s <- get ;;
   e <- lift (match epoch (frame s) with
              | Some e => Ok e
              | None => Raise (UnboundLocalError
                  "local variable 'epoch' referenced before assignment")
              end) ;;
   update_log_file (summary_line e exception (end_time - st_time)) ;;;
   match met_to_use (frame s) with
   | Some m =>
       if truthy m then
         l <- getself ;;
         if tlt (best_met l) m then save_model_dict None else ret tt
       else ret tt
   | None => ret tt
   end)%py.

(** [fit] up to the end of its [try] block: the optimizer and the
    scheduler are prepared, the locals are initialised, and the epochs
    are run. *)
Definition fit_try (epochs : nat) (params_opt_dict : option nat)
  (script : nat -> EpochData) (flt : option Fault) : M St unit :=
  (l <- getself ;;
   modify (with_self (set_optimizer (prepare_optimizer l params_opt_dict))) ;;;
   sched <- prepare_scheduler (prepare_optimizer l params_opt_dict) ;;
   modify (with_self (set_lr_scheduler sched)) ;;;
   modify (with_frame (fun _ => {| epoch := None; met_to_use := None |})) ;;;
   epoch_loop script flt (seq 0 epochs))%py.

(** [fit]: [except Exception as e: exception = e; raise e], then the
    [finally] block; an exception raised by the [finally] block replaces
    the one in flight. *)
Definition fit (epochs : nat) (lr : Q) (params_opt_dict : option nat)
  (script : nat -> EpochData) (flt : option Fault) (st_time end_time : Q)
  : M St unit :=
  fun s =>
    let '(s1, r) := fit_try epochs params_opt_dict script flt s in
    let '(s2, r2) := finalize (raised r) st_time end_time s1 in
    (s2, match r2 with
         | Raise e2 => Raise e2
         | Ok _ => r
         end).

(** [__post_init__]: the attributes, the log file, the counters, and the
    optional resume. *)
Definition post_init (uid data_path : string) (mdl : nat)
  (loss_keys met_keys : list string) (cfg : Cfg) (fs0 : FS)
  : St * result unit :=
  let extra := path_join (path_join data_path "extra_logs") uid in
  let l :=
    {| uid := uid; data_path := data_path; mdl := mdl; cfg := cfg;
       loss_keys := loss_keys; met_keys := met_keys;
       log_keys := "epochs" ::
         prepare_log_keys [loss_keys; met_keys] ["trn"; "val"];
       log_file := path_join (path_join data_path "logs") (uid +:+ ".txt");
       tb_log_dir := path_join (path_join data_path "tb_logs") uid;
       extra_log_dir := extra;
       predictions_file := path_join extra "predictions.pkl";
       model_file := path_join (path_join data_path "models") (uid +:+ ".pth");
       log_dir := None;
       num_it := 0; num_epoch := 0; best_met := Fin 0;
       optimizer := None; lr_scheduler := None;
       sched_using_val_metric := false |} in
  (prepare_log_file ;;;
   if resume cfg
   then load_model_dict (Some (resume_path cfg)) (load_opt cfg)
   else ret tt)%py
    {| self := l; fs := fs0; trace := [];
       frame := {| epoch := None; met_to_use := None |} |}.

End LearnerCheckpoint.

(** ** Observations on a run *)

(** The attributes no method assigns after [__post_init__]. *)
Definition static (l : Learner) :=
  (uid l, data_path l, cfg l, loss_keys l, met_keys l, log_keys l,
   (log_file l, tb_log_dir l, extra_log_dir l, predictions_file l,
    model_file l, log_dir l)).

(** What the training pass leaves alone in the [Learner]. *)
Definition kept (l l' : Learner) : Prop :=
  static l' = static l /\
  best_met l' = best_met l /\
  num_epoch l' = num_epoch l /\
  lr_scheduler l' = lr_scheduler l /\
  sched_using_val_metric l' = sched_using_val_metric l /\
  (is_Some (optimizer l) -> is_Some (optimizer l')).

(** A computation that touches neither the files, nor the trace, nor the
    locals of [fit], and keeps the [Learner] as [kept] says. *)
Definition quiet {A} (m : M St A) : Prop :=
  forall s, fs (m s).1 = fs s /\ trace (m s).1 = trace s /\
            frame (m s).1 = frame s /\ kept (self s) (self (m s).1).

(** The primary validation metric of an epoch: the first metric key of the
    size-weighted means computed by [validate]. *)
Definition epoch_metric (l : Learner) (ed : EpochData) : option tscalar :=
  match validate l (ed_valid ed) None with
  | Ok (_, valid_acc, _) =>
      match first (met_keys l) with
      | Ok k0 => dict_get k0 valid_acc
      | Raise _ => None
      end
  | Raise _ => None
  end.

(** The pickled files written in a trace: a checkpoint with the epoch
    number it records, or a predictions file. *)
Inductive bwrite : Type :=
| WCheckpoint (p : string) (num_epoch : option nat)
| WPredictions (p : string).

Definition binary_write (ev : event) : option bwrite :=
  match ev with
  | EvTorchSave p ck => Some (WCheckpoint p (ck_num_epoch ck))
  | EvPickleDump p _ => Some (WPredictions p)
  | EvWrite _ _ => None
  end.

Definition binary_writes (tr : list event) : list bwrite :=
  omap binary_write tr.

(** The epochs of the spec's improvement policy: numbering the epochs from
    [first_epoch], those whose metric strictly exceeds the best metric seen
    so far, [best] being the best metric before them. *)
Fixpoint improvement_epochs (best : tscalar) (first_epoch : nat)
  (ms : list tscalar) : list nat :=
  match ms with
  | [] => []
  | m :: rest =>
      if tlt best m
      then first_epoch :: improvement_epochs m (S first_epoch) rest
      else improvement_epochs best (S first_epoch) rest
  end.

(** What one pass through the body of the epoch loop did, read off the
    states before and after it: it raised before [met_to_use] was
    assigned; it raised at the comparison; the metric did not improve; the
    metric improved and the checkpoint was opened for writing. *)
Inductive epoch_outcome (metric : option tscalar) (s s' : St)
  (r : result unit) : Prop :=
| RaisedEarly (x : exn) :
    r = Raise x ->
    met_to_use (frame s') = met_to_use (frame s) ->
    best_met (self s') = best_met (self s) ->
    trace s' = trace s ->
    epoch_outcome metric s s' r
| RaisedAtCompare (x : exn) (m : tscalar) :
    r = Raise x ->
    metric = Some m ->
    met_to_use (frame s') = Some m ->
    best_met (self s') = best_met (self s) ->
    trace s' = trace s ->
    epoch_outcome metric s s' r
| NotImproved (m : tscalar) (tail : list event) :
    metric = Some m ->
    met_to_use (frame s') = Some m ->
    tlt (best_met (self s)) m = false ->
    best_met (self s') = best_met (self s) ->
    trace s' = (trace s ++ tail)%list ->
    (r = Ok tt /\ exists row, tail = [EvWrite (log_file (self s)) row]) \/
    ((exists x, r = Raise x) /\ tail = []) ->
    epoch_outcome metric s s' r
| Improved (m : tscalar) (ck : checkpoint) (tail : list event) :
    metric = Some m ->
    met_to_use (frame s') = Some m ->
    tlt (best_met (self s)) m = true ->
    best_met (self s') = m ->
    trace s' = (trace s ++ EvTorchSave (model_file (self s)) ck :: tail)%list ->
    ck_num_epoch ck = Some (S (num_epoch (self s))) ->
    ck_best_met ck = Some m ->
    (r = Ok tt /\
     exists ps row, tail = [EvPickleDump (predictions_file (self s)) ps;
                            EvWrite (log_file (self s)) row]) \/
    ((exists x, r = Raise x) /\
     (tail = [] \/
      exists ps, tail = [EvPickleDump (predictions_file (self s)) ps])) ->
    epoch_outcome metric s s' r.

(** The result of a call to [torch.save] or [pickle.dump]. *)
Definition interrupt_result (interrupt : option (nat * exn)) : result unit :=
  match interrupt with
  | Some (_, e) => Raise e
  | None => Ok tt
  end.

(** The guard of the final save in the [finally] block, and the guard the
    spec describes. *)
Definition final_save_due (s : St) : bool :=
  match met_to_use (frame s) with
  | Some m => truthy m && tlt (best_met (self s)) m
  | None => false
  end.

Definition final_save_claimed (s : St) : bool :=
  match met_to_use (frame s) with
  | Some m => tlt (best_met (self s)) m
  | None => false
  end.

(** No predictions file is written before a checkpoint was. *)
Fixpoint dumps_guarded (seen_save : bool) (tr : list event) : bool :=
  match tr with
  | [] => true
  | EvTorchSave _ _ :: rest => dumps_guarded true rest
  | EvPickleDump _ _ :: rest => seen_save && dumps_guarded seen_save rest
  | EvWrite _ _ :: rest => dumps_guarded seen_save rest
  end.

Section LogHead.
Context `{External}.

(** The three chunks written at the head of a log. *)
Definition log_head (l : Learner) : list string :=
  [json_dumps (cfg l); nl +:+ nl; join "  " (log_keys l) +:+ nl].

End LogHead.

(** ** A concrete setting for the examples *)

(** Stand-ins for the library functions: a number is printed as its
    fraction, every state dictionary loads, the optimizer and the scheduler
    start from the state they are built on. *)
Definition show_Q (q : Q) : string :=
  pretty (Qnum q) +:+ "/" +:+ pretty (Zpos (Qden q)).

Definition plain : External :=
  {| json_dumps := fun _ => "{}";
     fmt_4f := fun x => match x with
                        | Fin q => show_Q q
                        | PosInf => "inf"
                        | NegInf => "-inf"
                        | NaN => "nan"
                        end;
     fmt_time := show_Q;
     load_state_dict := fun _ _ sd => Ok sd;
     opt_fn := fun m _ => m;
     lr_sched_fn := fun _ o => o |}.

Definition cfg0 : Cfg :=
  {| resume := false; resume_path := ""; load_opt := false;
     load_normally := true; strict_load := true; del_existing := false;
     lr := 1 # 10; epochs := 4; sfn := None |}.

Definition cfg_resume : Cfg :=
  {| resume := true; resume_path := ""; load_opt := false;
     load_normally := true; strict_load := true; del_existing := false;
     lr := 1 # 10; epochs := 4; sfn := None |}.

Definition cfg_delete : Cfg :=
  {| resume := false; resume_path := ""; load_opt := false;
     load_normally := true; strict_load := true; del_existing := true;
     lr := 1 # 10; epochs := 4; sfn := None |}.

(** One training batch and one validation batch of two examples per epoch;
    the validation metric of epoch [e] (counted from 0) is [ms[e]]. *)
Definition train_batch0 : TrainBatch :=
  {| tb_out_loss := [("L1", 1%Q)]; tb_metric := [("M1", 1%Q)];
     tb_mdl := 1; tb_opt := 1 |}.

Definition valid_batch0 (m : Q) : ValBatch :=
  {| vb_out_loss := [("L1", 1%Q)]; vb_metric := [("M1", m)];
     vb_size := 2; vb_idxs := [7]; vb_pred_boxes := [[1%Q]];
     vb_pred_scores := [1%Q] |}.

Definition script_of (ms : list Q) (e : nat) : EpochData :=
  {| ed_train := [train_batch0];
     ed_valid := [valid_batch0 (default 0%Q (ms !! e))];
     ed_sched := e |}.

(** A fresh learner for run ["run"] under ["tmp"], on an empty disk. *)
Definition fresh_learner : St :=
  (@post_init plain "run" "tmp" 0 ["L1"] ["M1"] cfg0 ∅).1.

(** A legacy checkpoint without iteration count, whose best metric is
    negative, and a disk that holds it at the canonical path. *)
Definition legacy_checkpoint : checkpoint :=
  {| model_state_dict := Some 5; optimizer_state_dict := None;
     scheduler_state_dict := None; ck_num_it := None;
     ck_num_epoch := Some 2; cfgtxt := None;
     ck_best_met := Some (Fin (-1)) |}.

Definition legacy_disk : FS :=
  {[ "tmp/models/run.pth" := Binary (dump_checkpoint legacy_checkpoint) ]}.

Definition resumed_learner : St :=
  (@post_init plain "run" "tmp" 0 ["L1"] ["M1"] cfg_resume legacy_disk).1.

(** A disk with a log of an earlier run. *)
Definition logged_disk : FS :=
  {[ "tmp/logs/run.txt" := Text ["earlier"] ]}.

(** ** Observations used by the further properties *)

Section StatText.
Context `{External}.

(** The text of a value in a row of the log, before padding. *)
Definition stat_text (st : stat) : string :=
  match st with
  | SInt n => pretty n
  | STensor x => fmt_4f x
  end.

End StatText.

(** The chunks of a text file, none for a missing file. *)
Definition log_chunks (fs0 : FS) (p : string) : list string :=
  match fs0 !! p with
  | Some (Text chunks) => chunks
  | _ => []
  end.

(** The values reported under one key, call after call. *)
Definition column {V} (k : string) (vals : list (dict V)) : list V :=
  omap (dict_get k) vals.

(** A sequence of calls of [SmoothenDict.add_value], stopping at the first
    one that raises. *)
Fixpoint add_dicts (vals : list (dict Q)) : M SmoothenDict.t unit :=
  match vals with
  | [] => ret tt
  | v :: vs => (SmoothenDict.add_value v ;;; add_dicts vs)%py
  end.

(** What one key of a [SmoothenDict] holds after the values of [vals]:
    the [SmoothenValue] that was given the column of the key. *)
Definition smoothed (b : Q) (k : string) (vals : list (dict Q)) : Q :=
  SmoothenValue.smooth
    (SmoothenValue.add_values (column k vals) (SmoothenValue.init b)).1.

(** The fresh learner once [fit] has given it an optimizer and a
    scheduler. *)
Definition armed_learner : St :=
  with_self (set_lr_scheduler 1) (with_self (set_optimizer 1) fresh_learner).

(** The batch sizes of a validation loader, as the float tensor [nums]. *)
Definition sizes (db : list ValBatch) : list Q :=
  map (fun batch => inject_Z (Z.of_nat (vb_size batch))) db.

(** [b'] is [b], or a value above it. *)
Definition not_below (b b' : tscalar) : Prop :=
  b' = b \/ tlt b b' = true.

(** [best_met] after epochs whose metrics are [ms], when it was [best]
    before them: [if self.best_met < met_to_use: self.best_met = met_to_use]
    epoch after epoch. *)
Definition running_best (best : tscalar) (ms : list tscalar) : tscalar :=
  fold_left (fun b m => if tlt b m then m else b) ms best.

(** A [SmoothenDict] that holds, for every key of [ks], a value that
    decays by 0.9. *)
Definition ready (ks : list string) (d : SmoothenDict.t) : Prop :=
  SmoothenDict.keys d = ks /\
  forall k, k ∈ ks ->
    exists s, dict_get k (SmoothenDict.smooth_vals d) = Some s /\
              SmoothenValue.beta s = 9 # 10.

(** What a method may do to the files of the learner [l]: every file
    other than its log, its checkpoint and its predictions is left as it
    is, and the log, when it is a file of its own, only grows. *)
Definition files_kept (l : Learner) (fs0 fs1 : FS) : Prop :=
  (forall p, p <> log_file l -> p <> model_file l ->
             p <> predictions_file l -> fs1 !! p = fs0 !! p) /\
  (log_file l <> model_file l -> log_file l <> predictions_file l ->
   exists more,
     log_chunks fs1 (log_file l) = log_chunks fs0 (log_file l) ++ more).

(** A computation that keeps the paths of the learner and its files. *)
Definition tidy {A} (m : M St A) : Prop :=
  forall s, static (self (m s).1) = static (self s) /\
            files_kept (self s) (fs s) (fs (m s).1).

(** The number of training batches of the epochs [0 .. epochs-1]. *)
Definition batches_of (script : nat -> EpochData) (epochs : nat) : nat :=
  sum_list (map (fun e => length (ed_train (script e))) (seq 0 epochs)).

(** A computation that adds at most [n] to [num_it], and exactly [n] when
    it returns. *)
Definition counts {A} (n : nat) (m : M St A) : Prop :=
  forall s,
    num_it (self s) <= num_it (self (m s).1) <= num_it (self s) + n /\
    (forall a, (m s).2 = Ok a -> num_it (self (m s).1) = num_it (self s) + n).

(** * Properties *)

(** ** Arithmetic of the smoothing *)

Lemma Qltb_lt (x y : Q) : Qltb x y = true <-> (x < y)%Q.
Proof.
  unfold Qltb. rewrite negb_true_iff. split.
  - intros Hb. apply Qnot_le_lt. intros Hle.
    apply Qle_bool_iff in Hle. congruence.
  - intros Hlt. destruct (Qle_bool y x) eqn:E; [|reflexivity].
    apply Qle_bool_iff in E. exfalso. exact (Qlt_not_le _ _ Hlt E).
Qed.

Lemma Qeq_bool_false (x y : Q) : ~ (x == y)%Q -> Qeq_bool x y = false.
Proof.
  intros Hne. destruct (Qeq_bool x y) eqn:E; [|reflexivity].
  apply Qeq_bool_iff in E. contradiction.
Qed.

Lemma Qpow_nonneg (b : Q) (k : nat) : (0 <= b)%Q -> (0 <= Qpow b k)%Q.
Proof.
  intros Hb. induction k as [|k IH]; simpl.
  - discriminate.
  - apply Qmult_le_0_compat; assumption.
Qed.

Lemma Qpow_le_1 (b : Q) (k : nat) :
  (0 <= b)%Q -> (b < 1)%Q -> (Qpow b k <= 1)%Q.
Proof.
  intros H0 H1. induction k as [|k IH]; simpl.
  - apply Qle_refl.
  - apply Qle_trans with (1 * Qpow b k)%Q.
    + apply Qmult_le_compat_r; [apply Qlt_le_weak; exact H1|].
      apply Qpow_nonneg; exact H0.
    + rewrite Qmult_1_l. exact IH.
Qed.

Lemma Qpow_lt_1 (b : Q) (k : nat) :
  (0 <= b)%Q -> (b < 1)%Q -> (Qpow b (S k) < 1)%Q.
Proof.
  intros H0 H1. simpl.
  apply Qle_lt_trans with (b * 1)%Q.
  - rewrite (Qmult_comm b (Qpow b k)), (Qmult_comm b 1).
    apply Qmult_le_compat_r; [apply Qpow_le_1; assumption | exact H0].
  - rewrite Qmult_1_r. exact H1.
Qed.

Lemma smoothing_denominator (b : Q) (k : nat) :
  (0 <= b)%Q -> (b < 1)%Q -> ~ (1 - Qpow b (S k) == 0)%Q.
Proof.
  intros H0 H1 Heq.
  pose proof (Qpow_lt_1 b k H0 H1) as Hlt.
  assert (Hone : (Qpow b (S k) == 1)%Q).
  { rewrite <- (Qplus_0_l (Qpow b (S k))), <- Heq. ring. }
  rewrite Hone in Hlt. exact (Qlt_irrefl _ Hlt).
Qed.

Module SmoothenValueFacts.
Import SmoothenValue.

(** One call from any state whose decay is in [0,1). *)
Lemma add_value_ok (val : Q) (self : t) :
  (0 <= beta self)%Q -> (beta self < 1)%Q ->
  add_value val self =
    ({| beta := beta self; n := S (n self);
        mov_avg := (beta self * mov_avg self + (1 - beta self) * val)%Q;
        smooth := ((beta self * mov_avg self + (1 - beta self) * val) /
                   (1 - Qpow (beta self) (S (n self))))%Q |}, Ok tt).
Proof.
  intros H0 H1. unfold add_value.
  rewrite (Qeq_bool_false _ _ (smoothing_denominator _ (n self) H0 H1)).
  reflexivity.
Qed.

Lemma add_values_from (vals : list Q) (self : t) :
  (0 <= beta self)%Q -> (beta self < 1)%Q ->
  exists st,
    add_values vals self = (st, Ok tt) /\
    beta st = beta self /\
    n st = (n self + length vals)%nat /\
    mov_avg st =
      fold_left (fun acc x => beta self * acc + (1 - beta self) * x)%Q
        vals (mov_avg self) /\
    (vals <> [] ->
     smooth st = (mov_avg st / (1 - Qpow (beta self) (n st)))%Q).
Proof.
  revert self. induction vals as [|v vs IH]; intros self H0 H1.
  - exists self. simpl. repeat split; try reflexivity; [lia | congruence].
  - simpl add_values. unfold bind. rewrite add_value_ok by assumption.
    set (s1 := {| beta := beta self; n := S (n self);
                  mov_avg := _; smooth := _ |}).
    destruct (IH s1 H0 H1) as (st & Hrun & Hb & Hn & Hm & Hs).
    exists st. rewrite Hrun. simpl in Hb, Hn, Hm, Hs.
    repeat split; try assumption.
    + simpl. lia.
    + intros _. destruct vs as [|v' vs'].
      * simpl in Hrun. injection Hrun as <-. reflexivity.
      * apply Hs. discriminate.
Qed.

End SmoothenValueFacts.

(** C6.  For a decay [beta] in [0,1) and any sequence of values, the calls
    to [add_value] all return; after them [n] is the number of calls,
    [mov_avg] is the raw exponential moving average of the values, and,
    as soon as one call was made, the denominator [1 - beta^n] is not zero
    and [smooth = mov_avg / (1 - beta^n)]. *)
Theorem smoothen_value_invariant (beta : Q) (vals : list Q) :
  (0 <= beta)%Q -> (beta < 1)%Q ->
  exists st,
    SmoothenValue.add_values vals (SmoothenValue.init beta) = (st, Ok tt) /\
    SmoothenValue.n st = length vals /\
    SmoothenValue.mov_avg st = SmoothenValue.ema beta vals /\
    (vals <> [] ->
     ~ (1 - Qpow beta (length vals) == 0)%Q /\
     SmoothenValue.smooth st =
       (SmoothenValue.mov_avg st / (1 - Qpow beta (length vals)))%Q).
Proof.
  intros H0 H1.
  destruct (SmoothenValueFacts.add_values_from vals (SmoothenValue.init beta)
              H0 H1) as (st & Hrun & _ & Hn & Hm & Hs).
  exists st. simpl in Hn, Hm, Hs. repeat split; try assumption.
  - destruct vals as [|v vs]; [congruence|].
    apply smoothing_denominator; assumption.
  - rewrite <- Hn. apply Hs. assumption.
Qed.

Lemma smoothen_value_invariant_witness :
  exists st,
    SmoothenValue.add_values [1; 3]%Q (SmoothenValue.init (9 # 10)) = (st, Ok tt) /\
    SmoothenValue.n st = 2%nat /\
    SmoothenValue.mov_avg st = SmoothenValue.ema (9 # 10) [1; 3]%Q /\
    SmoothenValue.smooth st =
      (SmoothenValue.mov_avg st / (1 - Qpow (9 # 10) 2))%Q.
Proof.
  destruct (smoothen_value_invariant (9 # 10) [1; 3]%Q) as (st & H1 & H2 & H3 & H4).
  - discriminate.
  - reflexivity.
  - exists st. repeat split; try assumption.
    apply H4. discriminate.
Defined.

(** ** The weighted average *)

Lemma tensor_sum_zip_mul (values weights : list Q) :
  length values = length weights ->
  tensor_sum (zip_mul values weights) = weighted_sum values weights.
Proof.
  revert weights. induction values as [|v vs IH]; intros [|w ws] Hlen;
    simpl in *; try discriminate; try reflexivity.
  unfold zip_mul in IH. rewrite IH by lia.
  destruct vs, ws; simpl in *; try discriminate; reflexivity.
Qed.

Lemma tensor_div_finite (x y : Q) :
  ~ (y == 0)%Q -> tensor_div x y = Fin (x / y).
Proof.
  intros Hy. unfold tensor_div.
  destruct (Qeq_bool y 0) eqn:E; [|reflexivity].
  apply Qeq_bool_iff in E. contradiction.
Qed.

Lemma tensor_mul_same_length (a b : list Q) :
  length a = length b -> tensor_mul a b = Ok (zip_mul a b).
Proof.
  intros Hlen. unfold tensor_mul. rewrite Hlen, Nat.eqb_refl. reflexivity.
Qed.

Lemma tensor_mul_mismatch (a b : list Q) :
  length a <> length b -> length a <> 1%nat -> length b <> 1%nat ->
  exists msg, tensor_mul a b = Raise (RuntimeError msg).
Proof.
  intros Hne Ha Hb. unfold tensor_mul.
  destruct (Nat.eqb_spec (length a) (length b)) as [E|_]; [contradiction|].
  destruct a as [|x [|x' a']]; destruct b as [|y [|y' b']];
    simpl in *; try congruence; eexists; reflexivity.
Qed.

(** C7, as stated, fails: a single value against two weights is a
    mismatched pair of sequences, and [compute_avg] broadcasts the value
    over the weights and returns. *)
Lemma compute_avg_mismatch_returns :
  length [2%Q] <> length [1%Q; 3%Q] /\
  compute_avg [2%Q] [1%Q; 3%Q] = Ok (Fin (8 # 4)) /\
  ~ (exists e, compute_avg [2%Q] [1%Q; 3%Q] = Raise e).
Proof.
  split; [discriminate|]. split; [reflexivity|].
  intros [e He]. discriminate He.
Qed.

(** C7, amended.  [compute_avg] returns the quotient of
    [Sum (values[i] * weights[i])] by [Sum weights[i]] when the sequences
    are non-empty and of equal length (a finite number when the weights do
    not sum to zero, so [compute_avg [2;4] [1;3]] is 3.5); it raises
    torch's [RuntimeError] when [values] is empty, and when the lengths
    differ and neither is 1; when the lengths differ and one of them is 1
    it broadcasts and returns. *)
Theorem compute_avg_spec (values weights : list Q) :
  (values <> [] -> length values = length weights ->
   compute_avg values weights =
     Ok (tensor_div (weighted_sum values weights) (tensor_sum weights)) /\
   (~ (tensor_sum weights == 0)%Q ->
    compute_avg values weights =
      Ok (Fin (weighted_sum values weights / tensor_sum weights)))) /\
  (values = [] -> exists msg, compute_avg values weights = Raise (RuntimeError msg)) /\
  (length values <> length weights ->
   length values <> 1%nat -> length weights <> 1%nat ->
   exists msg, compute_avg values weights = Raise (RuntimeError msg)) /\
  (values <> [] -> length values <> length weights ->
   length values = 1%nat \/ length weights = 1%nat ->
   exists x, compute_avg values weights = Ok x).
Proof.
  split; [|split; [|split]].
  - intros Hne Hlen.
    assert (Hrun : compute_avg values weights =
              Ok (tensor_div (weighted_sum values weights) (tensor_sum weights))).
    { unfold compute_avg.
      destruct values as [|v vs]; [congruence|]. cbn [torch_stack].
      rewrite tensor_mul_same_length by exact Hlen.
      rewrite tensor_sum_zip_mul by exact Hlen. reflexivity. }
    split; [exact Hrun|].
    intros Hsum. rewrite Hrun, tensor_div_finite by exact Hsum. reflexivity.
  - intros ->. eexists. reflexivity.
  - intros Hne Ha Hb. unfold compute_avg.
    destruct values as [|v vs]; [eexists; reflexivity|]. cbn [torch_stack].
    destruct (tensor_mul_mismatch (v :: vs) weights Hne Ha Hb) as [msg ->].
    eexists. reflexivity.
  - intros Hne Hlen Hone. unfold compute_avg.
    destruct values as [|v vs]; [congruence|]. cbn [torch_stack].
    unfold tensor_mul.
    destruct (Nat.eqb_spec (length (v :: vs)) (length weights)) as [E|_];
      [contradiction|].
    destruct Hone as [Hv|Hw].
    + destruct vs; [|discriminate Hv]. eexists. reflexivity.
    + destruct weights as [|w [|w' ws]]; try discriminate Hw.
      destruct vs as [|v' vs']; [simpl in Hlen; congruence|].
      eexists. reflexivity.
Qed.

Lemma compute_avg_spec_witness :
  compute_avg [2; 4]%Q [1; 3]%Q = Ok (Fin (14 # 4)) /\ (14 # 4 == 7 # 2)%Q.
Proof.
  split; [|reflexivity].
  destruct (compute_avg_spec [2; 4]%Q [1; 3]%Q) as [H _].
  destruct H as [_ H]; [discriminate | reflexivity |].
  rewrite H; [reflexivity | discriminate].
Defined.

(** ** Running the state computations *)

Ltac run_step :=
  repeat progress
    (unfold bind, getself, get, lift, modify, ret, throw, check, interrupted,
       f_write, with_self, with_fs, with_frame, emit; cbn).

Section CheckpointFacts.
Context `{External}.

Lemma load_model_dict_missing (p : string) (load_opt : bool) (s : St) :
  fs s !! resume_file (self s) p = None ->
  load_model_dict (Some p) load_opt s = (s, Ok tt).
Proof.
  intros Hnone. unfold load_model_dict. run_step.
  rewrite Hnone. reflexivity.
Qed.

Lemma load_model_dict_fields (p : string) (load_opt : bool) (s s' : St)
  (fd : filedata) (ck : checkpoint) :
  fs s !! resume_file (self s) p = Some fd ->
  torch_load fd = Ok ck ->
  load_model_dict (Some p) load_opt s = (s', Ok tt) ->
  num_it (self s') = default (num_it (self s)) (ck_num_it ck) /\
  num_epoch (self s') = default (num_epoch (self s)) (ck_num_epoch ck) /\
  best_met (self s') = default (best_met (self s)) (ck_best_met ck).
Proof.
  intros Hfile Hload. unfold load_model_dict. run_step.
  rewrite Hfile, Hload; cbn;
    (destruct (load_normally (cfg (self s)));
     [ destruct (model_state_dict ck) as [sd|]; cbn; [|discriminate];
       destruct (load_state_dict _ _ sd) as [m|e]; cbn; [|discriminate]
     | ]);
    destruct (ck_num_it ck), (ck_num_epoch ck), (ck_best_met ck); cbn;
    destruct load_opt; cbn;
    try (destruct (optimizer_state_dict ck); cbn; [|discriminate];
         destruct (scheduler_state_dict ck); cbn; [discriminate|]);
    intros [= <-]; cbn; repeat split; reflexivity.
Qed.

End CheckpointFacts.

Section LogFacts.
Context `{External}.

Lemma exists_true (p : string) (fs0 : FS) (fd : filedata) :
  fs0 !! p = Some fd -> exists_ p fs0 = true.
Proof. intros Hp. unfold exists_. rewrite Hp. reflexivity. Qed.

Lemma exists_false (p : string) (fs0 : FS) :
  fs0 !! p = None -> exists_ p fs0 = false.
Proof.
  intros Hp. unfold exists_. rewrite Hp.
  apply bool_decide_eq_false. intros [x Hx]. discriminate Hx.
Qed.

Lemma write_text_on (p : string) (s : string) (chunks : list string) (fs0 : FS) :
  write_text p s (<[p := Text chunks]> fs0) = <[p := Text (chunks ++ [s])]> fs0.
Proof.
  unfold write_text. rewrite lookup_insert_eq, insert_insert_eq. reflexivity.
Qed.

Lemma prepare_log_file_fresh (s : St) :
  fs s !! log_file (self s) = None ->
  prepare_log_file s =
    ({| self := self s;
        fs := <[log_file (self s) := Text (log_head (self s))]> (fs s);
        trace := trace s ++ map (EvWrite (log_file (self s))) (log_head (self s));
        frame := frame s |}, Ok tt).
Proof.
  intros Hnone. unfold prepare_log_file. run_step.
  rewrite (exists_false _ _ Hnone). cbn.
  unfold with_fs, emit, open_w; cbn.
  rewrite !write_text_on. cbn. rewrite <- !app_assoc. reflexivity.
Qed.

Lemma prepare_log_file_existing (s : St) (old : list string) :
  fs s !! log_file (self s) = Some (Text old) ->
  del_existing (cfg (self s)) = false ->
  prepare_log_file s =
    ({| self := self s;
        fs := <[log_file (self s) := Text (old ++ log_head (self s))]> (fs s);
        trace := trace s ++ map (EvWrite (log_file (self s))) (log_head (self s));
        frame := frame s |}, Ok tt).
Proof.
  intros Hold Hdel. unfold prepare_log_file. run_step.
  rewrite (exists_true _ _ _ Hold), Hdel. cbn.
  unfold with_fs, emit, open_a; cbn. rewrite Hold.
  rewrite <- (insert_id (fs s) _ _ Hold) at 1.
  rewrite !write_text_on. cbn. rewrite <- !app_assoc. reflexivity.
Qed.

Lemma prepare_log_file_delete (s : St) (fd : filedata) :
  fs s !! log_file (self s) = Some fd ->
  del_existing (cfg (self s)) = true ->
  log_dir (self s) = None ->
  prepare_log_file s =
    (s, Raise (AttributeError "'Learner' object has no attribute 'log_dir'")).
Proof.
  intros Hold Hdel Hdir. unfold prepare_log_file. run_step.
  rewrite (exists_true _ _ _ Hold), Hdel, Hdir. reflexivity.
Qed.

End LogFacts.

(** ** Pickled checkpoints *)

Lemma parse_dump_checkpoint (ck : checkpoint) :
  parse_checkpoint (dump_checkpoint ck) empty_checkpoint = Some ck.
Proof.
  destruct ck as [[a|] [b|] [c|] [d|] [e|] [f|] [g|]]; reflexivity.
Qed.

(** A stream that loads ends with [STOP]. *)
Lemma parse_checkpoint_stop (toks : list token) (acc ck : checkpoint) :
  parse_checkpoint toks acc = Some ck ->
  exists pre, toks = (pre ++ [TStop])%list.
Proof.
  revert acc. induction toks as [|t rest IH]; intros acc Hparse.
  - discriminate Hparse.
  - destruct rest as [|t' rest'].
    + destruct t; try discriminate Hparse. exists []. reflexivity.
    + assert (Hstep : exists acc', parse_checkpoint (t' :: rest') acc' = Some ck).
      { cbn [parse_checkpoint] in Hparse.
        destruct t; cbn in Hparse; try discriminate Hparse; eauto. }
      destruct Hstep as [acc' Hrest].
      destruct (IH acc' Hrest) as [pre Hpre].
      exists (t :: pre). rewrite Hpre. reflexivity.
Qed.

Lemma dump_checkpoint_entries (ck : checkpoint) :
  exists entries,
    dump_checkpoint ck = (entries ++ [TStop])%list /\ TStop ∉ entries.
Proof.
  eexists. split; [unfold dump_checkpoint; rewrite !app_assoc; reflexivity|].
  destruct ck as [[a|] [b|] [c|] [d|] [e|] [f|] [g|]]; cbn;
    rewrite ?not_elem_of_cons; repeat split;
    try discriminate; apply not_elem_of_nil.
Qed.

(** A checkpoint cut short does not load. *)
Lemma parse_truncated (ck acc : checkpoint) (k : nat) :
  k < length (dump_checkpoint ck) ->
  parse_checkpoint (take k (dump_checkpoint ck)) acc = None.
Proof.
  intros Hk.
  destruct (dump_checkpoint_entries ck) as (entries & Hdump & Hstop).
  rewrite Hdump in Hk |- *. rewrite length_app in Hk. cbn in Hk.
  rewrite take_app_le by lia.
  destruct (parse_checkpoint (take k entries) acc) as [ck'|] eqn:Hparse;
    [|reflexivity].
  exfalso. apply parse_checkpoint_stop in Hparse as [pre Hpre].
  apply Hstop. apply (subseteq_take k entries).
  rewrite Hpre. apply elem_of_app. right. apply list_elem_of_singleton.
  reflexivity.
Qed.

Section SaveFacts.
Context `{External}.

Lemma write_tokens_on (p : string) (old toks : list token) (fs0 : FS) :
  write_tokens p toks (<[p := Binary old]> fs0) =
  <[p := Binary (old ++ toks)]> fs0.
Proof.
  unfold write_tokens. rewrite lookup_insert_eq, insert_insert_eq.
  reflexivity.
Qed.

Lemma save_model_dict_run (interrupt : option (nat * exn)) (s : St)
  (o sc : nat) :
  optimizer (self s) = Some o ->
  lr_scheduler (self s) = Some sc ->
  save_model_dict interrupt s =
    ({| self := self s;
        fs := <[model_file (self s) :=
                  Binary (written_tokens
                            (dump_checkpoint (checkpoint_of (self s) o sc))
                            interrupt)]> (fs s);
        trace := trace s ++
                 [EvTorchSave (model_file (self s)) (checkpoint_of (self s) o sc)];
        frame := frame s |},
     interrupt_result interrupt).
Proof.
  intros Ho Hsc. unfold save_model_dict. run_step. rewrite Ho, Hsc. cbn.
  unfold open_wb. rewrite write_tokens_on. cbn.
  destruct interrupt as [[k e]|]; reflexivity.
Qed.

Lemma update_prediction_file_run (ps : list prediction)
  (interrupt : option (nat * exn)) (s : St) :
  update_prediction_file ps interrupt s =
    ({| self := self s;
        fs := <[predictions_file (self s) :=
                  Binary (written_tokens (dump_predictions ps) interrupt)]>
                (fs s);
        trace := trace s ++ [EvPickleDump (predictions_file (self s)) ps];
        frame := frame s |},
     interrupt_result interrupt).
Proof.
  unfold update_prediction_file. run_step.
  unfold open_wb. rewrite write_tokens_on. cbn.
  destruct interrupt as [[k e]|]; reflexivity.
Qed.

Lemma update_log_file_run (towrite : string) (s : St) :
  update_log_file towrite s =
    ({| self := self s;
        fs := write_text (log_file (self s)) (towrite +:+ nl)
                (open_a (log_file (self s)) (fs s));
        trace := trace s ++ [EvWrite (log_file (self s)) (towrite +:+ nl)];
        frame := frame s |}, Ok tt).
Proof. reflexivity. Qed.

(** After a line was appended, the log is a text file that ends with it. *)
Lemma appended_last (p line : string) (fs0 : FS) :
  exists chunks,
    write_text p line (open_a p fs0) !! p = Some (Text (chunks ++ [line])).
Proof.
  unfold open_a, write_text.
  destruct (fs0 !! p) as [[chunks|toks]|] eqn:Hp.
  - rewrite Hp. exists chunks. apply lookup_insert_eq.
  - rewrite Hp. exists []. apply lookup_insert_eq.
  - rewrite lookup_insert_eq. exists []. apply lookup_insert_eq.
Qed.

End SaveFacts.

(** ** The order on scalars *)

Lemma tlt_irrefl (m : tscalar) : tlt m m = false.
Proof.
  destruct m as [q| | |]; cbn; try reflexivity.
  destruct (Qltb q q) eqn:E; [|reflexivity].
  apply Qltb_lt in E. exfalso. exact (Qlt_irrefl _ E).
Qed.

Lemma tlt_trans (a b c : tscalar) :
  tlt a b = true -> tlt b c = true -> tlt a c = true.
Proof.
  destruct a as [x| | |], b as [y| | |], c as [z| | |]; cbn;
    try discriminate; try reflexivity.
  rewrite !Qltb_lt. apply Qlt_trans.
Qed.

Lemma tlt_zero_truthy (b m : tscalar) :
  b = Fin 0 \/ tlt (Fin 0) b = true -> tlt b m = true -> truthy m = true.
Proof.
  intros Hb Hlt.
  assert (Hpos : tlt (Fin 0) m = true).
  { destruct Hb as [->|Hb]; [exact Hlt | exact (tlt_trans _ _ _ Hb Hlt)]. }
  destruct m as [q| | |]; cbn in *; try reflexivity.
  apply negb_true_iff, Qeq_bool_false. intros Heq.
  apply Qltb_lt in Hpos. rewrite Heq in Hpos. exact (Qlt_irrefl _ Hpos).
Qed.

(** ** Quiet computations *)

Lemma kept_refl (l : Learner) : kept l l.
Proof. unfold kept. repeat split; auto. Qed.

Lemma kept_trans (l1 l2 l3 : Learner) : kept l1 l2 -> kept l2 l3 -> kept l1 l3.
Proof.
  unfold kept. intros (A1 & A2 & A3 & A4 & A5 & A6) (B1 & B2 & B3 & B4 & B5 & B6).
  repeat split; try congruence. auto.
Qed.

Lemma quiet_ret {A} (a : A) : quiet (ret a).
Proof. intros s. cbn. repeat split; auto using kept_refl. Qed.

Lemma quiet_lift {A} (r : result A) : quiet (lift r).
Proof. intros s. cbn. repeat split; auto using kept_refl. Qed.

Lemma quiet_check (x : option exn) : quiet (check x).
Proof. intros s. destruct x; cbn; repeat split; auto using kept_refl. Qed.

Lemma quiet_getself : quiet getself.
Proof. intros s. cbn. repeat split; auto using kept_refl. Qed.

Lemma quiet_bind {A B} (m : M St A) (k : A -> M St B) :
  quiet m -> (forall a, quiet (k a)) -> quiet (bind m k).
Proof.
  intros Hm Hk s. unfold bind. specialize (Hm s).
  destruct (m s) as [s1 [a|e]]; cbn in *.
  - specialize (Hk a s1). destruct Hm as (F1 & T1 & R1 & K1).
    destruct Hk as (F2 & T2 & R2 & K2).
    split; [|split; [|split]]; try congruence.
    exact (kept_trans _ _ _ K1 K2).
  - exact Hm.
Qed.

Lemma quiet_modify_self (f : Learner -> Learner) :
  (forall l, kept l (f l)) -> quiet (modify (with_self f)).
Proof. intros Hf s. cbn. split; [|split; [|split]]; auto. Qed.

Section PassFacts.
Context `{External}.

Lemma quiet_train_loop (flt : option (nat * exn)) (dl : list TrainBatch) :
  forall j a b, quiet (train_loop flt j dl a b).
Proof.
  induction dl as [|batch rest IH]; intros j a b; cbn [train_loop].
  - apply quiet_ret.
  - apply quiet_bind.
    { apply quiet_modify_self. intros l. unfold kept. cbn. repeat split; auto. }
    intros _. apply quiet_bind; [apply quiet_getself|]. intros l.
    apply quiet_bind; [apply quiet_lift|]. intros _.
    apply quiet_bind; [apply quiet_check|]. intros _.
    apply quiet_bind; [apply quiet_lift|]. intros k0.
    apply quiet_bind; [apply quiet_lift|]. intros _.
    apply quiet_bind.
    { apply quiet_modify_self. intros l'. unfold kept. cbn.
      repeat split; auto. }
    intros _.
    destruct (SmoothenDict.add_value (tb_out_loss batch) a) as [a' r1].
    apply quiet_bind; [apply quiet_lift|]. intros _.
    destruct (SmoothenDict.add_value (tb_metric batch) b) as [b' r2].
    apply quiet_bind; [apply quiet_lift|]. intros _.
    apply quiet_bind; [apply quiet_lift|]. intros _.
    apply quiet_bind; [apply quiet_lift|]. intros _.
    apply IH.
Qed.

Lemma quiet_train_epoch (dl : list TrainBatch) (flt : option (nat * exn)) :
  quiet (train_epoch dl flt).
Proof.
  unfold train_epoch.
  apply quiet_bind; [apply quiet_getself|]. intros l.
  apply quiet_bind; [apply quiet_train_loop|]. intros acc.
  apply quiet_bind; [apply quiet_lift|]. intros _.
  apply quiet_bind; [apply quiet_lift|]. intros trn_loss.
  apply quiet_bind; [apply quiet_lift|]. intros trn_acc.
  apply quiet_ret.
Qed.

(** [validate] reads the keys of the learner only. *)
Lemma validate_loop_keys (l l' : Learner) (flt : option (nat * exn))
  (db : list ValBatch) :
  loss_keys l' = loss_keys l -> met_keys l' = met_keys l ->
  forall j a b nums ps,
    validate_loop l' flt j db a b nums ps = validate_loop l flt j db a b nums ps.
Proof.
  intros Hl Hm. induction db as [|batch rest IH]; intros j a b nums ps.
  - reflexivity.
  - cbn [validate_loop]. rewrite Hl, Hm.
    destruct (raise_if (fault_here flt j)); cbn; [|reflexivity].
    destruct (append_keys (loss_keys l) _ a); cbn; [|reflexivity].
    destruct (append_keys (met_keys l) _ b); cbn; [|reflexivity].
    destruct (get_predictions_list _ _ _); cbn; [|reflexivity].
    apply IH.
Qed.

Lemma validate_keys (l l' : Learner) (flt : option (nat * exn))
  (db : list ValBatch) :
  static l' = static l -> validate l' db flt = validate l db flt.
Proof.
  intros Hs. unfold static in Hs.
  assert (Hl : loss_keys l' = loss_keys l) by congruence.
  assert (Hm : met_keys l' = met_keys l) by congruence.
  unfold validate. rewrite Hl, Hm.
  rewrite (validate_loop_keys l l' flt db Hl Hm). reflexivity.
Qed.

(** A validation pass that returns met no fault. *)
Lemma validate_loop_no_fault (l : Learner) (flt : option (nat * exn))
  (db : list ValBatch) :
  forall j a b nums ps v,
    validate_loop l flt j db a b nums ps = Ok v ->
    validate_loop l None j db a b nums ps = Ok v.
Proof.
  induction db as [|batch rest IH]; intros j a b nums ps v Hrun.
  - exact Hrun.
  - cbn [validate_loop] in Hrun |- *.
    destruct (fault_here flt j); cbn in Hrun; [discriminate Hrun|]. cbn.
    destruct (append_keys (loss_keys l) _ a); cbn in *; [|discriminate Hrun].
    destruct (append_keys (met_keys l) _ b); cbn in *; [|discriminate Hrun].
    destruct (get_predictions_list _ _ _); cbn in *; [|discriminate Hrun].
    apply IH. exact Hrun.
Qed.

Lemma validate_no_fault (l : Learner) (flt : option (nat * exn))
  (db : list ValBatch) v :
  validate l db flt = Ok v -> validate l db None = Ok v.
Proof.
  unfold validate. intros Hrun.
  destruct (validate_loop l flt 0 db _ _ [] []) as [acc|e] eqn:Hloop;
    [|discriminate Hrun].
  rewrite (validate_loop_no_fault _ _ _ _ _ _ _ _ _ Hloop). exact Hrun.
Qed.

End PassFacts.

Lemma bind_inv {S A B} (m : M S A) (k : A -> M S B) (s s' : S) (r : result B) :
  bind m k s = (s', r) ->
  (exists a s1, m s = (s1, Ok a) /\ k a s1 = (s', r)) \/
  (exists x, m s = (s', Raise x) /\ r = Raise x).
Proof.
  unfold bind. destruct (m s) as [s1 [a|x]]; intros Heq.
  - left. eauto.
  - right. injection Heq as <- <-. eauto.
Qed.

Lemma lift_inv {S A} (ra : result A) (s s1 : S) (r : result A) :
  lift ra s = (s1, r) -> s1 = s /\ r = ra.
Proof. unfold lift. intros [= <- <-]. auto. Qed.

Lemma check_inv (x : option exn) (s s1 : St) (r : result unit) :
  check x s = (s1, r) ->
  s1 = s /\ r = match x with Some e => Raise e | None => Ok tt end.
Proof. destruct x; cbn; intros [= <- <-]; auto. Qed.

Section BodyFacts.
Context `{External}.

#[local] Arguments train_epoch : simpl never.
#[local] Arguments validate : simpl never.
#[local] Arguments prepare_to_write : simpl never.
#[local] Arguments save_model_dict : simpl never.
#[local] Arguments update_prediction_file : simpl never.
#[local] Arguments update_log_file : simpl never.
#[local] Arguments good_format_stats : simpl never.
#[local] Arguments fault_at : simpl never.
#[local] Arguments fault_in : simpl never.
#[local] Arguments static : simpl never.

Lemma scheduler_step_run (v : tscalar) (sched : nat) (flt : option exn)
  (s : St) :
  scheduler_step v sched flt s =
    match flt with
    | Some x => (s, Raise x)
    | None => (with_self (set_lr_scheduler sched) s, Ok tt)
    end.
Proof.
  unfold scheduler_step. run_step.
  destruct flt; cbn; [reflexivity|].
  destruct (sched_using_val_metric (self s)); reflexivity.
Qed.

Lemma prepare_to_write_state (a b : dict Q) (c d : option (dict tscalar))
  (s : St) :
  (prepare_to_write a b c d s).1 = s.
Proof.
  unfold prepare_to_write. run_step.
  destruct (rows_of (loss_keys (self s)) a c); cbn; [|reflexivity].
  destruct (rows_of (met_keys (self s)) b d); cbn; [|reflexivity].
  match goal with |- context [if ?c then _ else _] => destruct c end;
    reflexivity.
Qed.

Lemma subscript_get {V} (d : dict V) (k : string) (v : V) :
  subscript d k = Ok v -> dict_get k d = Some v.
Proof.
  unfold subscript. destruct (dict_get k d); [|discriminate].
  intros [= ->]. reflexivity.
Qed.

Lemma epoch_metric_found (l0 l : Learner) (script : nat -> EpochData)
  (e : nat) (flt : option (nat * exn)) vl va ps k0 m :
  static l = static l0 ->
  validate l (ed_valid (script e)) flt = Ok (vl, va, ps) ->
  first (met_keys l) = Ok k0 ->
  subscript va k0 = Ok m ->
  epoch_metric l0 (script e) = Some m.
Proof.
  intros Hs Hval Hk0 Hm. unfold epoch_metric.
  rewrite <- (validate_keys l0 l None _ Hs).
  rewrite (validate_no_fault _ _ _ _ Hval).
  assert (Hkeys : met_keys l = met_keys l0) by (unfold static in Hs; congruence).
  rewrite <- Hkeys, Hk0. apply subscript_get. exact Hm.
Qed.

(** The end of the body: the row is prepared and appended to the log. *)
Lemma write_row_spec (flt : option Fault) (e : nat) (trn : dict Q * dict Q)
  (vl va : option (dict tscalar)) (s s' : St) (r : result unit) :
  (check (fault_at flt e PPrepareToWrite) ;;;
   to_write <- prepare_to_write (fst trn) (snd trn) vl va ;;
   check (fault_at flt e PDisplay) ;;;
   check (fault_at flt e PUpdateLogFile) ;;;
   l <- getself ;;
   update_log_file (good_format_stats (log_keys l) to_write))%py s = (s', r) ->
  self s' = self s /\ frame s' = frame s /\
  ((r = Ok tt /\ exists row,
      trace s' = (trace s ++ [EvWrite (log_file (self s)) row])%list) \/
   ((exists x, r = Raise x) /\ trace s' = trace s)).
Proof.
  intros Hrun.
  apply bind_inv in Hrun as [(u & s1 & Hc & Hrun) | (x & Hc & ->)];
    apply check_inv in Hc as [-> Hc];
    [|repeat split; right; split; [eauto | reflexivity]].
  apply bind_inv in Hrun as [(tw & s1 & Hp & Hrun) | (x & Hp & ->)];
    pose proof (prepare_to_write_state trn.1 trn.2 vl va s) as Hst;
    rewrite Hp in Hst; cbn in Hst; subst;
    [|repeat split; right; split; [eauto | reflexivity]].
  apply bind_inv in Hrun as [(u1 & s1 & Hc1 & Hrun) | (x & Hc1 & ->)];
    apply check_inv in Hc1 as [-> Hc1];
    [|repeat split; right; split; [eauto | reflexivity]].
  apply bind_inv in Hrun as [(u2 & s1 & Hc2 & Hrun) | (x & Hc2 & ->)];
    apply check_inv in Hc2 as [-> Hc2];
    [|repeat split; right; split; [eauto | reflexivity]].
  unfold bind, getself in Hrun. rewrite update_log_file_run in Hrun.
  injection Hrun as <- <-. cbn.
  repeat split. left. split; [reflexivity|]. eexists. reflexivity.
Qed.


Lemma epoch_body_spec (script : nat -> EpochData) (flt : option Fault)
  (e : nat) (s s' : St) (r : result unit) :
  is_Some (optimizer (self s)) ->
  is_Some (lr_scheduler (self s)) ->
  epoch_body script flt e s = (s', r) ->
  static (self s') = static (self s) /\
  num_epoch (self s') = S (num_epoch (self s)) /\
  is_Some (optimizer (self s')) /\
  is_Some (lr_scheduler (self s')) /\
  epoch (frame s') = Some e /\
  epoch_outcome (epoch_metric (self s) (script e)) s s' r.
Proof.
  intros Hopt Hsched Hrun. unfold epoch_body in Hrun.
  unfold bind at 1 in Hrun. unfold modify at 1 in Hrun.
  unfold bind at 1 in Hrun. unfold modify at 1 in Hrun.
  match type of Hrun with context [train_epoch ?dl ?f] =>
    pose proof (quiet_train_epoch dl f
      (with_self (fun l => set_num_epoch (S (num_epoch l)) l)
         (with_frame (set_epoch e) s))) as (Qf & Qt & Qr & Qk)
  end.
  cbn in Qf, Qt, Qr, Qk. destruct Qk as (K1 & K2 & K3 & K4 & K5 & K6).
  change (static (set_num_epoch (S (num_epoch (self s))) (self s)))
    with (static (self s)) in K1.
  assert (Ho1 := K6 Hopt). clear K6.
  assert (Hs1 : forall s1 x,
    fs s1 = fs s -> trace s1 = trace s -> frame s1 = set_epoch e (frame s) ->
    static (self s1) = static (self s) ->
    best_met (self s1) = best_met (self s) ->
    num_epoch (self s1) = S (num_epoch (self s)) ->
    is_Some (lr_scheduler (self s1)) -> is_Some (optimizer (self s1)) ->
    static (self s1) = static (self s) /\
    num_epoch (self s1) = S (num_epoch (self s)) /\
    is_Some (optimizer (self s1)) /\
    is_Some (lr_scheduler (self s1)) /\
    epoch (frame s1) = Some e /\
    epoch_outcome (epoch_metric (self s) (script e)) s s1 (Raise x)).
  { intros s1 x Ef Et Er Es Eb En El Eo.
    repeat split; try assumption; try (rewrite Er; reflexivity).
    apply (RaisedEarly _ _ _ _ x); try reflexivity;
      [rewrite Er; reflexivity | assumption | assumption]. }
  apply bind_inv in Hrun as [(trn & s1 & Htrain & Hrun) | (x & Htrain & ->)].
  2: { rewrite Htrain in *. cbn in *. apply Hs1; try assumption.
       rewrite K4. exact Hsched. }
  rewrite Htrain in *. cbn in Qf, Qt, Qr, K1, K2, K3, K4, K5, Ho1.
  assert (Hsc1 : is_Some (lr_scheduler (self s1))) by (rewrite K4; exact Hsched).
  unfold bind at 1 in Hrun. unfold getself at 1 in Hrun.
  apply bind_inv in Hrun as [(val & s2 & Hval & Hrun) | (x & Hval & ->)];
    apply lift_inv in Hval as [-> Hval]; [|apply Hs1; assumption].
  symmetry in Hval. destruct val as [[valid_loss valid_acc] predictions].
  apply bind_inv in Hrun as [(k0 & s2 & Hk0 & Hrun) | (x & Hk0 & ->)];
    apply lift_inv in Hk0 as [-> Hk0]; [|apply Hs1; assumption].
  symmetry in Hk0.
  apply bind_inv in Hrun as [(m & s2 & Hm & Hrun) | (x & Hm & ->)];
    apply lift_inv in Hm as [-> Hm]; [|apply Hs1; assumption].
  symmetry in Hm.
  pose proof (epoch_metric_found (self s) (self s1) script e _ _ _ _ _ _
                K1 Hval Hk0 Hm) as Hmetric.
  apply bind_inv in Hrun as [(u & s2 & Hstep & Hrun) | (x & Hstep & ->)];
    rewrite scheduler_step_run in Hstep;
    destruct (fault_at flt e PSchedulerStep) as [xs|];
    try discriminate Hstep.
  2: { injection Hstep as <- <-. apply Hs1; assumption. }
  injection Hstep as <- _. rewrite Hm in Hrun.
  unfold bind at 1 in Hrun. unfold lift at 1 in Hrun.
  unfold bind at 1 in Hrun. unfold modify at 1 in Hrun.
  set (s3 := with_frame (set_met_to_use m)
               (with_self (set_lr_scheduler (ed_sched (script e))) s1)) in Hrun.
  assert (E3 : static (self s3) = static (self s) /\
               num_epoch (self s3) = S (num_epoch (self s)) /\
               is_Some (optimizer (self s3)) /\
               is_Some (lr_scheduler (self s3)) /\
               epoch (frame s3) = Some e /\
               met_to_use (frame s3) = Some m /\
               best_met (self s3) = best_met (self s) /\
               trace s3 = trace s /\
               log_file (self s3) = log_file (self s) /\
               model_file (self s3) = model_file (self s) /\
               predictions_file (self s3) = predictions_file (self s)).
  { subst s3. cbn. rewrite Qr. cbn.
    unfold static in K1. repeat split; try assumption; try congruence.
    eexists; reflexivity. }
  clearbody s3.
  clear Htrain Hval Hk0 Hm Hs1 Hsc1 Ho1 K1 K2 K3 K4 K5 Qf Qt Qr s1.
  destruct E3 as (E1 & E2 & [o Eo] & [sc Esc] & E5 & E6 & E7 & E8 & E9 & E10 & E11).
  apply bind_inv in Hrun as [(u1 & s4 & Hc & Hrun) | (x & Hc & ->)];
    apply check_inv in Hc as [-> Hc].
  2: { repeat split; try assumption; eauto.
       apply (RaisedAtCompare _ _ _ _ x m); auto. }
  unfold bind at 1 in Hrun. unfold getself at 1 in Hrun.
  rewrite E7 in Hrun.
  destruct (tlt (best_met (self s)) m) eqn:Hlt.
  - (* the metric improved *)
    apply bind_inv in Hrun as [(u2 & s4 & Hsave & Hrun) | (x & Hsave & ->)].
    + apply bind_inv in Hsave as [(u3 & s5 & Hmod & Hsave) | (x & Hmod & ?)];
        [|discriminate Hmod].
      injection Hmod as <- <-.
      apply bind_inv in Hsave as [(u4 & s6 & Hsv & Hpred) | (x & Hsv & ?)];
        [|discriminate].
      rewrite (save_model_dict_run _ _ o sc) in Hsv by assumption.
      injection Hsv as <- Hir.
      rewrite update_prediction_file_run in Hpred.
      injection Hpred as <- Hir2. cbn in Hrun.
      apply write_row_spec in Hrun as (Rs & Rf & Rt). cbn in Rs, Rf, Rt.
      rewrite E10, E11, E8, E9, <- !app_assoc in Rt. cbn in Rt.
      assert (Hbest : best_met (self s') = m) by (rewrite Rs; reflexivity).
      assert (Hne : num_epoch (self s') = S (num_epoch (self s)))
        by (rewrite Rs; exact E2).
      assert (Hst : static (self s') = static (self s))
        by (rewrite Rs; exact E1).
      assert (Hmt : met_to_use (frame s') = Some m) by (rewrite Rf; exact E6).
      repeat split; try assumption.
      * rewrite Rs. cbn. eauto.
      * rewrite Rs. cbn. eauto.
      * rewrite Rf. exact E5.
      * destruct Rt as [(-> & row & Rt) | ((x & ->) & Rt)].
        -- eapply (Improved _ _ _ _ m _ _); try eassumption.
           ++ rewrite Rt, <- ?app_assoc. reflexivity.
           ++ cbn. rewrite E2. reflexivity.
           ++ reflexivity.
           ++ left. split; [reflexivity|]. eexists _, row. reflexivity.
        -- eapply (Improved _ _ _ _ m _ _); try eassumption.
           ++ cbn. rewrite E2. reflexivity.
           ++ reflexivity.
           ++ right. split; [eauto|]. right. eexists. reflexivity.
    + apply bind_inv in Hsave as [(u3 & s5 & Hmod & Hsave) | (x1 & Hmod & ?)];
        [|discriminate Hmod].
      injection Hmod as <- <-.
      apply bind_inv in Hsave as [(u4 & s6 & Hsv & Hpred) | (x2 & Hsv & Hx)].
      * rewrite (save_model_dict_run _ _ o sc) in Hsv by assumption.
        injection Hsv as <- Hir.
        rewrite update_prediction_file_run in Hpred.
        injection Hpred as <- Hir2. cbn.
        split; [exact E1|]. split; [exact E2|]. split; [eauto|].
        split; [eauto|]. split; [exact E5|].
        apply (Improved _ _ _ _ m (checkpoint_of (set_best_met m (self s3)) o sc)
                 [EvPickleDump (predictions_file (self s)) predictions]);
          try assumption; try reflexivity.
        -- cbn. rewrite E8, E10, E11, <- app_assoc. reflexivity.
        -- cbn. rewrite E2. reflexivity.
        -- right. split; [eauto|]. right. eexists. reflexivity.
      * rewrite (save_model_dict_run _ _ o sc) in Hsv by assumption.
        injection Hsv as <- Hir. cbn.
        split; [exact E1|]. split; [exact E2|]. split; [eauto|].
        split; [eauto|]. split; [exact E5|].
        apply (Improved _ _ _ _ m (checkpoint_of (set_best_met m (self s3)) o sc)
                 []); try assumption; try reflexivity.
        -- cbn. rewrite E8, E10. reflexivity.
        -- cbn. rewrite E2. reflexivity.
        -- right. split; [eauto|]. left. reflexivity.
  - (* no improvement *)
    unfold bind at 1 in Hrun. unfold ret at 1 in Hrun.
    apply write_row_spec in Hrun as (Rs & Rf & Rt).
    rewrite E8, E9 in Rt.
    split; [rewrite Rs; exact E1|]. split; [rewrite Rs; exact E2|].
    split; [rewrite Rs; eauto|]. split; [rewrite Rs; eauto|].
    split; [rewrite Rf; exact E5|].
    destruct Rt as [(-> & row & Rt) | ((x & ->) & Rt)].
    + eapply (NotImproved _ _ _ _ m [_]); try eassumption.
      * rewrite Rf. assumption.
      * rewrite Rs. assumption.
      * left. split; [reflexivity|]. eexists. reflexivity.
    + eapply (NotImproved _ _ _ _ m []); try eassumption.
      * rewrite Rf. assumption.
      * rewrite Rs. assumption.
      * rewrite app_nil_r. assumption.
      * right. split; [eauto | reflexivity].
Qed.

End BodyFacts.

Section LoopFacts.
Context `{External}.

#[local] Arguments epoch_body : simpl never.
#[local] Arguments save_model_dict : simpl never.
#[local] Arguments update_log_file : simpl never.
#[local] Arguments static : simpl never.
#[local] Arguments summary_line : simpl never.

Lemma epoch_loop_cons (script : nat -> EpochData) (flt : option Fault)
  (e : nat) (rest : list nat) (s s' : St) (r : result unit) :
  epoch_loop script flt (e :: rest) s = (s', r) ->
  (exists s1, epoch_body script flt e s = (s1, Ok tt) /\
              epoch_loop script flt rest s1 = (s', r)) \/
  (exists x, epoch_body script flt e s = (s', Raise x) /\ r = Raise x).
Proof.
  cbn [epoch_loop]. intros Hrun.
  apply bind_inv in Hrun as [([] & s1 & Hb & Hl) | (x & Hb & ->)]; eauto.
Qed.

(** What every run of the loop satisfies, whatever its outcome. *)
Lemma epoch_loop_basic (script : nat -> EpochData) (flt : option Fault)
  (n : nat) :
  forall (a : nat) (s s' : St) (r : result unit),
    is_Some (optimizer (self s)) ->
    is_Some (lr_scheduler (self s)) ->
    epoch_loop script flt (seq a n) s = (s', r) ->
    static (self s') = static (self s) /\
    is_Some (optimizer (self s')) /\
    is_Some (lr_scheduler (self s')) /\
    (n = 0 -> s' = s /\ r = Ok tt) /\
    (0 < n -> is_Some (epoch (frame s'))) /\
    (r = Ok tt -> num_epoch (self s') = num_epoch (self s) + n) /\
    (forall x, r = Raise x ->
       exists e, a <= e < a + n /\ epoch (frame s') = Some e /\
                 num_epoch (self s') = num_epoch (self s) + S (e - a)).
Proof.
  induction n as [|n IH]; intros a s s' r Ho Hs Hrun.
  - cbn in Hrun. injection Hrun as <- <-.
    repeat split; auto; try lia; try discriminate.
  - cbn [seq] in Hrun.
    apply epoch_loop_cons in Hrun as [(s1 & Hb & Hl) | (x & Hb & ->)].
    + destruct (epoch_body_spec _ _ _ _ _ _ Ho Hs Hb)
        as (B1 & B2 & B3 & B4 & B5 & _).
      destruct (IH (S a) s1 s' r B3 B4 Hl)
        as (L1 & L2 & L3 & L4 & L5 & L6 & L7).
      split; [congruence|]. split; [assumption|]. split; [assumption|].
      split; [lia|]. split; [|split].
      * intros _. destruct n as [|n'].
        -- destruct (L4 eq_refl) as [-> _]. rewrite B5. eauto.
        -- apply L5. lia.
      * intros Hr. rewrite (L6 Hr), B2. lia.
      * intros x Hr. destruct (L7 x Hr) as (e & He & Hf & Hn).
        exists e. split; [lia|]. split; [assumption|].
        rewrite Hn, B2. replace (e - a) with (S (e - S a)) by lia. lia.
    + destruct (epoch_body_spec _ _ _ _ _ _ Ho Hs Hb)
        as (B1 & B2 & B3 & B4 & B5 & _).
      split; [assumption|]. split; [assumption|]. split; [assumption|].
      split; [lia|]. split; [|split].
      * intros _. rewrite B5. eauto.
      * discriminate.
      * intros y _. exists a. split; [lia|]. split; [assumption|].
        rewrite B2. replace (a - a) with 0 by lia. lia.
Qed.

(** [fit] up to the loop: the state the loop starts from. *)
Lemma fit_try_start (epochs : nat) (params : option nat)
  (script : nat -> EpochData) (flt : option Fault) (s : St) :
  exists s0,
    fit_try epochs params script flt s =
      epoch_loop script flt (seq 0 epochs) s0 /\
    static (self s0) = static (self s) /\
    best_met (self s0) = best_met (self s) /\
    num_epoch (self s0) = num_epoch (self s) /\
    is_Some (optimizer (self s0)) /\
    is_Some (lr_scheduler (self s0)) /\
    trace s0 = trace s /\
    frame s0 = {| epoch := None; met_to_use := None |}.
Proof.
  unfold fit_try, prepare_scheduler. run_step.
  destruct (sfn (cfg (self s))) as [name|]; cbn;
    eexists; (split; [reflexivity|]); cbn;
    repeat split; eauto.
Qed.

(** The [finally] block, once the loop variable is bound. *)
Lemma finalize_bound (exception : option exn) (st_time end_time : Q)
  (s : St) (e o sc : nat) :
  epoch (frame s) = Some e ->
  optimizer (self s) = Some o ->
  lr_scheduler (self s) = Some sc ->
  exists fs',
    finalize exception st_time end_time s =
      ({| self := self s; fs := fs';
          trace := trace s ++
            EvWrite (log_file (self s))
              (summary_line e exception (end_time - st_time) +:+ nl) ::
            (if final_save_due s
             then [EvTorchSave (model_file (self s))
                     (checkpoint_of (self s) o sc)]
             else []);
          frame := frame s |}, Ok tt) /\
    (model_file (self s) <> log_file (self s) ->
     exists chunks,
       fs' !! log_file (self s) =
         Some (Text (chunks ++
                [summary_line e exception (end_time - st_time) +:+ nl]))).
Proof.
  intros He Ho Hsc. unfold finalize.
  unfold bind at 1. unfold get at 1. rewrite He.
  unfold bind at 1. unfold lift at 1.
  unfold bind at 1. rewrite update_log_file_run.
  destruct (appended_last (log_file (self s))
              (summary_line e exception (end_time - st_time) +:+ nl) (fs s))
    as [chunks Hlast].
  unfold final_save_due.
  destruct (met_to_use (frame s)) as [m|]; cbn [andb].
  2: { eexists. split; [reflexivity|]. intros _. exists chunks. exact Hlast. }
  destruct (truthy m); cbn [andb].
  2: { eexists. split; [reflexivity|]. intros _. exists chunks. exact Hlast. }
  unfold bind at 1. unfold getself at 1. cbn [self].
  destruct (tlt (best_met (self s)) m).
  2: { eexists. split; [reflexivity|]. intros _. exists chunks. exact Hlast. }
  rewrite (save_model_dict_run None _ o sc) by assumption. cbn.
  eexists. split.
  - rewrite <- app_assoc. reflexivity.
  - intros Hne. exists chunks. rewrite lookup_insert_ne by exact Hne.
    exact Hlast.
Qed.

Lemma finalize_unbound (exception : option exn) (st_time end_time : Q)
  (s : St) :
  epoch (frame s) = None ->
  exists x, finalize exception st_time end_time s = (s, Raise x).
Proof.
  intros He. unfold finalize.
  unfold bind at 1. unfold get at 1. rewrite He. cbn. eauto.
Qed.

Lemma fit_unfold (epochs : nat) (lr : Q) (params : option nat)
  (script : nat -> EpochData) (flt : option Fault) (st_time end_time : Q)
  (s s1 : St) (r1 : result unit) :
  fit_try epochs params script flt s = (s1, r1) ->
  fit epochs lr params script flt st_time end_time s =
    ((finalize (raised r1) st_time end_time s1).1,
     match (finalize (raised r1) st_time end_time s1).2 with
     | Raise e2 => Raise e2
     | Ok _ => r1
     end).
Proof.
  intros Htry. unfold fit. rewrite Htry.
  destruct (finalize (raised r1) st_time end_time s1). reflexivity.
Qed.

End LoopFacts.

Section ExceptionSafety.

#[local] Arguments static : simpl never.
#[local] Arguments summary_line : simpl never.



End ExceptionSafety.

Section FinalSaveAndAtomicity.

#[local] Arguments static : simpl never.
#[local] Arguments summary_line : simpl never.

(** Above the sentinel the guard of the code and the guard of the spec
    agree: a metric that exceeds a best metric of 0 or more is not zero. *)
Lemma final_save_due_above_sentinel (s : St) :
  best_met (self s) = Fin 0 \/ tlt (Fin 0) (best_met (self s)) = true ->
  final_save_due s = final_save_claimed s.
Proof.
  intros Hb. unfold final_save_due, final_save_claimed.
  destruct (met_to_use (frame s)) as [m|]; [|reflexivity].
  destruct (tlt (best_met (self s)) m) eqn:Hlt.
  - rewrite (tlt_zero_truthy _ _ Hb Hlt). reflexivity.
  - apply andb_false_r.
Qed.




(** C3, as stated, fails: the canonical path holds a complete checkpoint,
    a save is interrupted right after the file was opened, and the file is
    left empty; it loads neither as the previous record nor as the new
    one. *)
Lemma interrupted_save_leaves_no_checkpoint :
  let s := (@fit_try plain 0 None (script_of []) None resumed_learner).1 in
  let s' := (@save_model_dict plain (Some (0, MemoryError "")) s).1 in
  (exists fd, fs s !! model_file (self s) = Some fd /\
              torch_load fd = Ok legacy_checkpoint) /\
  fs s' !! model_file (self s) = Some (Binary []) /\
  (exists x, torch_load (Binary []) = Raise x).
Proof.
  cbv zeta. split; [|split].
  - eexists. split; vm_compute; reflexivity.
  - vm_compute. reflexivity.
  - eexists. reflexivity.
Qed.

(** C3, amended.  [save_model_dict] writes the record in place: it opens
    the canonical path for writing, which empties the file, and
    [torch.save] writes into it; no other path is created or changed, so
    there is no temporary file and no rename.  A save that runs to its end
    leaves the complete new record; a save interrupted before its last
    token leaves a file that does not load. *)
Theorem save_model_dict_in_place `{External}
  (interrupt : option (nat * exn)) (s : St) (o sc : nat) :
  optimizer (self s) = Some o ->
  lr_scheduler (self s) = Some sc ->
  exists s' fd,
    save_model_dict interrupt s = (s', interrupt_result interrupt) /\
    fs s' !! model_file (self s) = Some fd /\
    (forall p, p <> model_file (self s) -> fs s' !! p = fs s !! p) /\
    (interrupt = None -> torch_load fd = Ok (checkpoint_of (self s) o sc)) /\
    (forall k x, interrupt = Some (k, x) ->
       k < length (dump_checkpoint (checkpoint_of (self s) o sc)) ->
       exists y, torch_load fd = Raise y).
Proof.
  intros Ho Hsc. rewrite (save_model_dict_run interrupt s o sc Ho Hsc).
  eexists _, _. split; [reflexivity|]. cbn [fs].
  split; [apply lookup_insert_eq|]. split; [|split].
  - intros p Hp. apply lookup_insert_ne. congruence.
  - intros ->. cbn [written_tokens]. unfold torch_load.
    rewrite parse_dump_checkpoint. reflexivity.
  - intros k x -> Hk. cbn [written_tokens]. unfold torch_load.
    rewrite parse_truncated by exact Hk. eauto.
Qed.

Lemma save_model_dict_in_place_witness :
  let s := (@fit_try plain 0 None (script_of []) None resumed_learner).1 in
  exists s' fd,
    @save_model_dict plain (Some (3, MemoryError "")) s =
      (s', Raise (MemoryError "")) /\
    fs s' !! "tmp/models/run.pth" = Some fd /\
    (exists y, torch_load fd = Raise y).
Proof.
  cbv zeta.
  destruct (@save_model_dict_in_place plain (Some (3, MemoryError ""))
              (@fit_try plain 0 None (script_of []) None resumed_learner).1
              5 5)
    as (s' & fd & Hrun & Hfile & _ & _ & Hcut).
  - vm_compute. reflexivity.
  - vm_compute. reflexivity.
  - exists s', fd. split; [exact Hrun|]. split; [exact Hfile|].
    apply (Hcut 3 (MemoryError "") eq_refl). vm_compute. lia.
Defined.

End FinalSaveAndAtomicity.

(** C5.  [load_model_dict] on a path that does not exist returns without
    raising and leaves the state as it was; when the file loads and the
    call returns, [num_it], [num_epoch] and [best_met] each take the value
    recorded in the checkpoint when the key is present, and keep the value
    they had otherwise. *)
Theorem load_model_dict_restores `{External} (resume_path : string)
  (load_opt : bool) (s : St) :
  (fs s !! resume_file (self s) resume_path = None ->
   load_model_dict (Some resume_path) load_opt s = (s, Ok tt)) /\
  (forall fd ck s',
     fs s !! resume_file (self s) resume_path = Some fd ->
     torch_load fd = Ok ck ->
     load_model_dict (Some resume_path) load_opt s = (s', Ok tt) ->
     num_it (self s') = default (num_it (self s)) (ck_num_it ck) /\
     num_epoch (self s') = default (num_epoch (self s)) (ck_num_epoch ck) /\
     best_met (self s') = default (best_met (self s)) (ck_best_met ck)).
Proof.
  split.
  - apply load_model_dict_missing.
  - intros fd ck s'. apply load_model_dict_fields.
Qed.

(** A missing file, and a legacy checkpoint without [num_it]. *)
Lemma load_model_dict_restores_witness :
  @load_model_dict plain (Some "tmp/models/other.pth") false fresh_learner =
    (fresh_learner, Ok tt) /\
  (let s := (@post_init plain "run" "tmp" 0 ["L1"] ["M1"] cfg0 legacy_disk).1 in
   let s' := (@load_model_dict plain (Some "") false s).1 in
   num_it (self s') = 0 /\ num_epoch (self s') = 2 /\
   best_met (self s') = Fin (-1)).
Proof.
  split.
  - apply (@load_model_dict_restores plain "tmp/models/other.pth" false
             fresh_learner).
    vm_compute. reflexivity.
  - cbv zeta.
    apply (proj2 (@load_model_dict_restores plain "" false
             (@post_init plain "run" "tmp" 0 ["L1"] ["M1"] cfg0 legacy_disk).1)
             (Binary (dump_checkpoint legacy_checkpoint)) legacy_checkpoint).
    + vm_compute. reflexivity.
    + vm_compute. reflexivity.
    + vm_compute. reflexivity.
Defined.

(** C8, as stated, fails: a log of an earlier run exists and deletion is
    not requested; after [__post_init__] the configuration dump, the blank
    separator and the header row have been written again, after the
    earlier content. *)
Lemma existing_log_gets_head_again :
  let s := (@post_init plain "run" "tmp" 0 ["L1"] ["M1"] cfg0 logged_disk).1 in
  logged_disk !! "tmp/logs/run.txt" = Some (Text ["earlier"]) /\
  del_existing cfg0 = false /\
  fs s !! "tmp/logs/run.txt" =
    Some (Text ["earlier"; "{}"; nl +:+ nl;
                "epochs  trn_L1  val_L1  trn_M1  val_M1" +:+ nl]).
Proof. cbv zeta. repeat split; vm_compute; reflexivity. Qed.

(** C8, amended.  [prepare_log_file] writes the serialized configuration,
    the blank separator and the header row on every call that returns: into
    a fresh file when no log exists, and after the existing content, which
    is kept, when a log exists and deletion is not requested. *)
Theorem prepare_log_file_writes_head `{External} (s : St) :
  (fs s !! log_file (self s) = None ->
   exists s',
     prepare_log_file s = (s', Ok tt) /\
     fs s' = <[log_file (self s) := Text (log_head (self s))]> (fs s)) /\
  (forall old,
     fs s !! log_file (self s) = Some (Text old) ->
     del_existing (cfg (self s)) = false ->
     exists s',
       prepare_log_file s = (s', Ok tt) /\
       fs s' = <[log_file (self s) := Text (old ++ log_head (self s))]> (fs s)).
Proof.
  split.
  - intros Hnone. rewrite (prepare_log_file_fresh s Hnone).
    eexists. split; reflexivity.
  - intros old Hold Hdel. rewrite (prepare_log_file_existing s old Hold Hdel).
    eexists. split; reflexivity.
Qed.

Lemma prepare_log_file_writes_head_witness :
  (exists s',
     @prepare_log_file plain (with_fs (fun _ => ∅) fresh_learner) = (s', Ok tt) /\
     fs s' !! "tmp/logs/run.txt" =
       Some (Text (@log_head plain (self fresh_learner)))) /\
  (exists s',
     @prepare_log_file plain fresh_learner = (s', Ok tt) /\
     fs s' !! "tmp/logs/run.txt" =
       Some (Text (["{}"; nl +:+ nl;
                    "epochs  trn_L1  val_L1  trn_M1  val_M1" +:+ nl] ++
                   @log_head plain (self fresh_learner)))).
Proof.
  split.
  - destruct (proj1 (@prepare_log_file_writes_head plain
                       (with_fs (fun _ => ∅) fresh_learner)))
      as (s' & Hrun & Hfs).
    + vm_compute. reflexivity.
    + exists s'. split; [exact Hrun|]. rewrite Hfs. apply lookup_insert_eq.
  - destruct (proj2 (@prepare_log_file_writes_head plain fresh_learner)
                ["{}"; nl +:+ nl; "epochs  trn_L1  val_L1  trn_M1  val_M1" +:+ nl])
      as (s' & Hrun & Hfs).
    + vm_compute. reflexivity.
    + reflexivity.
    + exists s'. split; [exact Hrun|]. rewrite Hfs. apply lookup_insert_eq.
Defined.

(** C9: the code does not do what the claim says.  When a log exists and
    [del_existing] is set, [__post_init__] raises [AttributeError] while it
    formats the message for the logger (no method assigns [log_dir]):
    nothing is removed and no fresh log is started. *)
Theorem post_init_delete_existing_raises `{External} (uid data_path : string)
  (mdl : nat) (loss_keys met_keys : list string) (cfg : Cfg) (fs0 : FS)
  (fd : filedata) :
  fs0 !! path_join (path_join data_path "logs") (uid +:+ ".txt") = Some fd ->
  del_existing cfg = true ->
  exists s msg,
    post_init uid data_path mdl loss_keys met_keys cfg fs0 =
      (s, Raise (AttributeError msg)) /\
    fs s = fs0 /\ trace s = [].
Proof.
  intros Hlog Hdel. unfold post_init. unfold bind at 1.
  rewrite (prepare_log_file_delete _ fd); try assumption; try reflexivity.
  eexists _, _. split; [reflexivity|]. split; reflexivity.
Qed.

Lemma post_init_delete_existing_raises_witness :
  exists s msg,
    @post_init plain "run" "tmp" 0 ["L1"] ["M1"] cfg_delete logged_disk =
      (s, Raise (AttributeError msg)) /\
    fs s = logged_disk /\ trace s = [].
Proof.
  apply (@post_init_delete_existing_raises plain "run" "tmp" 0 ["L1"] ["M1"]
           cfg_delete logged_disk (Text ["earlier"])).
  - vm_compute. reflexivity.
  - reflexivity.
Defined.

Section ImprovementPolicy.

#[local] Arguments static : simpl never.
#[local] Arguments summary_line : simpl never.
#[local] Arguments epoch_body : simpl never.

Lemma binary_writes_app (a b : list event) :
  binary_writes (a ++ b) = binary_writes a ++ binary_writes b.
Proof. unfold binary_writes. apply omap_app. Qed.

Section ImprovementFacts.
Context `{External}.

Lemma epoch_metric_static (l l' : Learner) (ed : EpochData) :
  static l' = static l -> epoch_metric l' ed = epoch_metric l ed.
Proof.
  intros Hs. unfold epoch_metric.
  rewrite (validate_keys l l' None _ Hs).
  assert (Hm : met_keys l' = met_keys l) by (unfold static in Hs; congruence).
  rewrite Hm. reflexivity.
Qed.

(** An epoch that completes leaves the final save without object. *)
Lemma completed_epoch (metric : option tscalar) (s s1 : St) :
  epoch_outcome metric s s1 (Ok tt) ->
  exists m,
    metric = Some m /\
    final_save_due s1 = false /\
    best_met (self s1) =
      (if tlt (best_met (self s)) m then m else best_met (self s)) /\
    exists evs,
      trace s1 = trace s ++ evs /\
      binary_writes evs =
        if tlt (best_met (self s)) m
        then [WCheckpoint (model_file (self s)) (Some (S (num_epoch (self s))));
              WPredictions (predictions_file (self s))]
        else [].
Proof.
  intros [x Hr _ _ _ | x m Hr _ _ _ _
          | m tail Hm Hmt Hlt Hb Ht Hcase
          | m ck tail Hm Hmt Hlt Hb Ht Hne Hbm Hcase];
    try discriminate Hr.
  - exists m. split; [exact Hm|]. rewrite Hlt.
    split; [unfold final_save_due; rewrite Hmt, Hb, Hlt; apply andb_false_r|].
    split; [exact Hb|]. exists tail. split; [exact Ht|].
    destruct Hcase as [(_ & row & ->) | ((x & Hx) & _)];
      [reflexivity | discriminate Hx].
  - exists m. split; [exact Hm|]. rewrite Hlt.
    split; [unfold final_save_due; rewrite Hmt, Hb, tlt_irrefl;
            apply andb_false_r|].
    split; [exact Hb|]. eexists. split; [exact Ht|].
    destruct Hcase as [(_ & ps & row & ->) | ((x & Hx) & _)];
      [|discriminate Hx].
    cbn. rewrite Hne. reflexivity.
Qed.

Lemma epoch_loop_completed (script : nat -> EpochData) (flt : option Fault)
  (n : nat) :
  forall (a : nat) (s s' : St),
    is_Some (optimizer (self s)) ->
    is_Some (lr_scheduler (self s)) ->
    epoch_loop script flt (seq a n) s = (s', Ok tt) ->
    exists ms evs,
      Forall2 (fun e m => epoch_metric (self s) (script e) = Some m)
        (seq a n) ms /\
      trace s' = trace s ++ evs /\
      binary_writes evs =
        flat_map (fun k => [WCheckpoint (model_file (self s)) (Some k);
                            WPredictions (predictions_file (self s))])
          (improvement_epochs (best_met (self s)) (S (num_epoch (self s))) ms) /\
      (final_save_due s = false \/ 0 < n -> final_save_due s' = false).
Proof.
  induction n as [|n IH]; intros a s s' Ho Hs Hrun.
  - cbn in Hrun. injection Hrun as <-.
    exists [], []. split; [constructor|]. rewrite app_nil_r.
    split; [reflexivity|]. split; [reflexivity|].
    intros [Hd | Hn]; [exact Hd | lia].
  - cbn [seq] in Hrun.
    apply epoch_loop_cons in Hrun as [(s1 & Hb & Hl) | (x & _ & Hx)];
      [|discriminate Hx].
    destruct (epoch_body_spec _ _ _ _ _ _ Ho Hs Hb)
      as (B1 & B2 & B3 & B4 & _ & Hout).
    destruct (completed_epoch _ _ _ Hout)
      as (m & Hm & Hdue & Hbest & evs1 & Ht1 & Hw1).
    destruct (IH (S a) s1 s' B3 B4 Hl) as (ms & evs2 & Hms & Ht2 & Hw2 & Hd2).
    assert (Hmf : model_file (self s1) = model_file (self s))
      by (unfold static in B1; congruence).
    assert (Hpf : predictions_file (self s1) = predictions_file (self s))
      by (unfold static in B1; congruence).
    exists (m :: ms), (evs1 ++ evs2).
    split; [|split; [|split]].
    + constructor; [exact Hm|].
      eapply Forall2_impl; [exact Hms|]. intros e' m' He'.
      rewrite <- (epoch_metric_static _ _ _ B1). exact He'.
    + rewrite Ht2, Ht1, app_assoc. reflexivity.
    + rewrite binary_writes_app, Hw1, Hw2, Hmf, Hpf, Hbest, B2.
      cbn [improvement_epochs].
      destruct (tlt (best_met (self s)) m); reflexivity.
    + intros _. apply Hd2. left. exact Hdue.
Qed.

End ImprovementFacts.



End ImprovementPolicy.

Section Sentinel.

#[local] Arguments static : simpl never.
#[local] Arguments summary_line : simpl never.
#[local] Arguments epoch_body : simpl never.

(** ** Guarded traces *)

Lemma dumps_guarded_mono (evs : list event) :
  dumps_guarded false evs = true -> dumps_guarded true evs = true.
Proof.
  induction evs as [|[p t|p ck|p ps] rest IH]; cbn; auto.
  discriminate.
Qed.

Lemma dumps_guarded_app (b : bool) (evs1 evs2 : list event) :
  dumps_guarded b evs1 = true -> dumps_guarded false evs2 = true ->
  dumps_guarded b (evs1 ++ evs2) = true.
Proof.
  revert b. induction evs1 as [|[p t|p ck|p ps] rest IH]; intros b H1 H2; cbn in *.
  - destruct b; [apply dumps_guarded_mono|]; exact H2.
  - apply IH; assumption.
  - apply IH; assumption.
  - apply andb_true_iff in H1 as [-> H1]. cbn. apply IH; assumption.
Qed.

Lemma no_save_no_write (evs : list event) :
  (forall p ck, EvTorchSave p ck ∉ evs) ->
  dumps_guarded false evs = true ->
  binary_writes evs = [].
Proof.
  induction evs as [|[p t|p ck|p ps] rest IH]; intros Hno Hg; cbn in *.
  - reflexivity.
  - apply IH; [|exact Hg]. intros p' ck' Hin. apply (Hno p' ck').
    apply elem_of_cons. right. exact Hin.
  - exfalso. apply (Hno p ck). apply elem_of_cons. left. reflexivity.
  - discriminate Hg.
Qed.

Section SentinelFacts.
Context `{External}.

Lemma positive_above_sentinel (b m : tscalar) :
  b = Fin 0 \/ tlt (Fin 0) b = true -> tlt b m = true ->
  tlt (Fin 0) m = true.
Proof.
  intros [-> | Hb] Hlt; [exact Hlt | exact (tlt_trans _ _ _ Hb Hlt)].
Qed.

(** One pass through the body, from a state whose best metric is the
    sentinel or above it and where no final save is due. *)
Lemma epoch_positive (metric : option tscalar) (s s1 : St) (r : result unit) :
  final_save_due s = false ->
  best_met (self s) = Fin 0 \/ tlt (Fin 0) (best_met (self s)) = true ->
  epoch_outcome metric s s1 r ->
  exists evs,
    trace s1 = trace s ++ evs /\
    dumps_guarded false evs = true /\
    (forall p ck, EvTorchSave p ck ∈ evs ->
       ck_num_epoch ck = Some (S (num_epoch (self s))) /\
       exists m, metric = Some m /\ tlt (Fin 0) m = true) /\
    (best_met (self s1) = Fin 0 \/ tlt (Fin 0) (best_met (self s1)) = true) /\
    (r = Ok tt -> final_save_due s1 = false) /\
    (final_save_due s1 = true ->
       exists m, metric = Some m /\ tlt (Fin 0) m = true).
Proof.
  intros Hdue Hb
    [x Hr Hmt Hbm Ht | x m Hr Hm Hmt Hbm Ht
     | m tail Hm Hmt Hlt Hbm Ht Hcase
     | m ck tail Hm Hmt Hlt Hbm Ht Hne Hck Hcase].
  - exists []. rewrite app_nil_r. split; [exact Ht|]. split; [reflexivity|].
    split; [intros p ck Hin; apply elem_of_nil in Hin; contradiction|].
    split; [rewrite Hbm; exact Hb|].
    assert (Hsame : final_save_due s1 = false)
      by (unfold final_save_due in *; rewrite Hmt, Hbm; exact Hdue).
    split; [intros _; exact Hsame|]. rewrite Hsame. discriminate.
  - exists []. rewrite app_nil_r. split; [exact Ht|]. split; [reflexivity|].
    split; [intros p ck Hin; apply elem_of_nil in Hin; contradiction|].
    split; [rewrite Hbm; exact Hb|].
    split; [rewrite Hr; discriminate|].
    unfold final_save_due. rewrite Hmt, Hbm. intros Hd.
    apply andb_true_iff in Hd as [_ Hlt].
    exists m. split; [exact Hm|]. exact (positive_above_sentinel _ _ Hb Hlt).
  - exists tail. split; [exact Ht|].
    assert (Hsame : final_save_due s1 = false)
      by (unfold final_save_due; rewrite Hmt, Hbm, Hlt; apply andb_false_r).
    split; [destruct Hcase as [(_ & row & ->) | (_ & ->)]; reflexivity|].
    split.
    { intros p ck Hin.
      destruct Hcase as [(_ & row & ->) | (_ & ->)].
      - apply list_elem_of_singleton in Hin. discriminate Hin.
      - apply elem_of_nil in Hin. contradiction. }
    split; [rewrite Hbm; exact Hb|].
    split; [intros _; exact Hsame|]. rewrite Hsame. discriminate.
  - pose proof (positive_above_sentinel _ _ Hb Hlt) as Hpos.
    exists (EvTorchSave (model_file (self s)) ck :: tail).
    split; [exact Ht|].
    assert (Hsame : final_save_due s1 = false)
      by (unfold final_save_due; rewrite Hmt, Hbm, tlt_irrefl;
          apply andb_false_r).
    split.
    { destruct Hcase as [(_ & ps & row & ->) | (_ & [-> | (ps & ->)])];
        reflexivity. }
    split.
    { intros p ck' Hin. apply elem_of_cons in Hin as [Heq | Hin].
      - injection Heq as _ ->. split; [exact Hne|]. eauto.
      - exfalso.
        destruct Hcase as [(_ & ps & row & ->) | (_ & [-> | (ps & ->)])];
          repeat (apply elem_of_cons in Hin as [Hin | Hin];
                  [discriminate Hin|]);
          apply elem_of_nil in Hin; exact Hin. }
    split; [right; rewrite Hbm; exact Hpos|].
    split; [intros _; exact Hsame|]. rewrite Hsame. discriminate.
Qed.

Lemma epoch_loop_positive (script : nat -> EpochData) (flt : option Fault)
  (n : nat) :
  forall (a : nat) (s s' : St) (r : result unit),
    is_Some (optimizer (self s)) ->
    is_Some (lr_scheduler (self s)) ->
    final_save_due s = false ->
    best_met (self s) = Fin 0 \/ tlt (Fin 0) (best_met (self s)) = true ->
    epoch_loop script flt (seq a n) s = (s', r) ->
    exists evs,
      trace s' = trace s ++ evs /\
      dumps_guarded false evs = true /\
      (forall p ck, EvTorchSave p ck ∈ evs ->
         exists e m, a <= e < a + n /\
           ck_num_epoch ck = Some (num_epoch (self s) + S (e - a)) /\
           epoch_metric (self s) (script e) = Some m /\
           tlt (Fin 0) m = true) /\
      (final_save_due s' = true ->
         exists e m, a <= e < a + n /\
           num_epoch (self s') = num_epoch (self s) + S (e - a) /\
           epoch_metric (self s) (script e) = Some m /\
           tlt (Fin 0) m = true).
Proof.
  induction n as [|n IH]; intros a s s' r Ho Hs Hdue Hb Hrun.
  - cbn in Hrun. injection Hrun as <- <-. exists []. rewrite app_nil_r.
    split; [reflexivity|]. split; [reflexivity|]. split.
    + intros p ck Hin. apply elem_of_nil in Hin. contradiction.
    + rewrite Hdue. discriminate.
  - cbn [seq] in Hrun.
    apply epoch_loop_cons in Hrun as [(s1 & Hbody & Hl) | (x & Hbody & ->)].
    + destruct (epoch_body_spec _ _ _ _ _ _ Ho Hs Hbody)
        as (B1 & B2 & B3 & B4 & _ & Hout).
      destruct (epoch_positive _ _ _ _ Hdue Hb Hout)
        as (evs1 & Ht1 & Hg1 & Hs1 & Hb1 & Hd1 & _).
      destruct (IH (S a) s1 s' r B3 B4 (Hd1 eq_refl) Hb1 Hl)
        as (evs2 & Ht2 & Hg2 & Hs2 & Hf2).
      exists (evs1 ++ evs2).
      split; [rewrite Ht2, Ht1, app_assoc; reflexivity|].
      split; [apply dumps_guarded_app; assumption|]. split.
      * intros p ck Hin. apply elem_of_app in Hin as [Hin | Hin].
        -- destruct (Hs1 p ck Hin) as (Hne & m & Hm & Hpos).
           exists a, m. split; [lia|]. split; [|split; assumption].
           rewrite Hne. f_equal. lia.
        -- destruct (Hs2 p ck Hin) as (e & m & He & Hne & Hm & Hpos).
           exists e, m. split; [lia|]. split; [|split].
           ++ rewrite Hne, B2. f_equal. lia.
           ++ rewrite <- (epoch_metric_static _ _ _ B1). exact Hm.
           ++ exact Hpos.
      * intros Hd. destruct (Hf2 Hd) as (e & m & He & Hne & Hm & Hpos).
        exists e, m. split; [lia|]. split; [|split].
        -- rewrite Hne, B2. lia.
        -- rewrite <- (epoch_metric_static _ _ _ B1). exact Hm.
        -- exact Hpos.
    + destruct (epoch_body_spec _ _ _ _ _ _ Ho Hs Hbody)
        as (B1 & B2 & B3 & B4 & _ & Hout).
      destruct (epoch_positive _ _ _ _ Hdue Hb Hout)
        as (evs1 & Ht1 & Hg1 & Hs1 & Hb1 & _ & Hf1).
      exists evs1. split; [exact Ht1|]. split; [exact Hg1|]. split.
      * intros p ck Hin. destruct (Hs1 p ck Hin) as (Hne & m & Hm & Hpos).
        exists a, m. split; [lia|]. split; [|split; assumption].
        rewrite Hne. f_equal. lia.
      * intros Hd. destruct (Hf1 Hd) as (m & Hm & Hpos).
        exists a, m. split; [lia|]. split; [|split; assumption].
        rewrite B2. lia.
Qed.

Lemma prepare_log_file_self (s : St) :
  self (prepare_log_file s).1 = self s.
Proof.
  unfold prepare_log_file. run_step.
  destruct (exists_ (log_file (self s)) (fs s)); cbn; [|reflexivity].
  destruct (del_existing (cfg (self s))); cbn; [|reflexivity].
  destruct (log_dir (self s)); reflexivity.
Qed.

End SentinelFacts.

End Sentinel.

Section SentinelClaim.

#[local] Arguments static : simpl never.
#[local] Arguments summary_line : simpl never.
#[local] Arguments epoch_body : simpl never.

(** C10.  A learner constructed without resume has [best_met = 0].  In
    any run of [fit] started at [best_met = 0] (or above), whatever its
    outcome: every checkpoint written records an epoch whose primary
    validation metric is strictly greater than 0; no predictions file is
    written before a checkpoint was; and when the metric of no epoch is
    greater than 0, neither a checkpoint nor a predictions file is
    written. *)
Theorem first_save_needs_positive_metric `{External} :
  (forall uid data_path mdl loss_keys met_keys cfg fs0 s0,
     resume cfg = false ->
     post_init uid data_path mdl loss_keys met_keys cfg fs0 = (s0, Ok tt) ->
     best_met (self s0) = Fin 0) /\
  (forall epochs lr params script flt st_time end_time s s2 r,
     best_met (self s) = Fin 0 \/ tlt (Fin 0) (best_met (self s)) = true ->
     fit epochs lr params script flt st_time end_time s = (s2, r) ->
     exists evs,
       trace s2 = trace s ++ evs /\
       dumps_guarded false evs = true /\
       (forall p ck, EvTorchSave p ck ∈ evs ->
          exists e m, e < epochs /\
            ck_num_epoch ck = Some (num_epoch (self s) + S e) /\
            epoch_metric (self s) (script e) = Some m /\
            tlt (Fin 0) m = true) /\
       ((forall e m, e < epochs ->
           epoch_metric (self s) (script e) = Some m ->
           tlt (Fin 0) m = false) ->
        binary_writes evs = [])).
Proof.
  split.
  - intros uid data_path mdl loss_keys met_keys cfg fs0 s0 Hres Hinit.
    unfold post_init in Hinit. rewrite Hres in Hinit.
    apply bind_inv in Hinit as [(u & s1 & Hlog & Hret) | (x & _ & Hx)];
      [|discriminate Hx].
    injection Hret as <-.
    match type of Hlog with prepare_log_file ?st = _ =>
      pose proof (prepare_log_file_self st) as Hself
    end.
    rewrite Hlog in Hself. cbn in Hself. rewrite Hself. reflexivity.
  - intros epochs lr params script flt st_time end_time s s2 r Hbest Hfit.
    destruct (fit_try epochs params script flt s) as [s1 r1] eqn:Htry.
    rewrite (fit_unfold _ _ _ _ _ _ _ _ _ _ Htry) in Hfit.
    destruct (fit_try_start epochs params script flt s)
      as (s0 & Hstart & S1 & S2 & S3 & S4 & S5 & S6 & S7).
    rewrite Hstart in Htry.
    destruct (epoch_loop_basic _ _ _ _ _ _ _ S4 S5 Htry)
      as (L1 & [o Lo] & [sc Lsc] & L4 & L5 & _ & _).
    assert (Hdue0 : final_save_due s0 = false)
      by (unfold final_save_due; rewrite S7; reflexivity).
    assert (Hb0 : best_met (self s0) = Fin 0 \/
                  tlt (Fin 0) (best_met (self s0)) = true)
      by (rewrite S2; exact Hbest).
    destruct (epoch_loop_positive _ _ _ _ _ _ _ S4 S5 Hdue0 Hb0 Htry)
      as (evs & Ht & Hg & Hsaves & Hfinal).
    assert (Hsaves' : forall p ck, EvTorchSave p ck ∈ evs ->
              exists e m, e < epochs /\
                ck_num_epoch ck = Some (num_epoch (self s) + S e) /\
                epoch_metric (self s) (script e) = Some m /\
                tlt (Fin 0) m = true).
    { intros p ck Hin. destruct (Hsaves p ck Hin) as (e & m & He & Hne & Hm & Hp).
      exists e, m. split; [lia|]. split; [|split].
      - rewrite Hne, S3. f_equal. lia.
      - rewrite <- (epoch_metric_static _ _ _ S1). exact Hm.
      - exact Hp. }
    assert (Hfinal' : final_save_due s1 = true ->
              exists e m, e < epochs /\
                num_epoch (self s1) = num_epoch (self s) + S e /\
                epoch_metric (self s) (script e) = Some m /\
                tlt (Fin 0) m = true).
    { intros Hd. destruct (Hfinal Hd) as (e & m & He & Hne & Hm & Hp).
      exists e, m. split; [lia|]. split; [|split].
      - rewrite Hne, S3. lia.
      - rewrite <- (epoch_metric_static _ _ _ S1). exact Hm.
      - exact Hp. }
    assert (Hall : exists evs',
              trace s2 = trace s ++ evs' /\
              dumps_guarded false evs' = true /\
              (forall p ck, EvTorchSave p ck ∈ evs' ->
                 exists e m, e < epochs /\
                   ck_num_epoch ck = Some (num_epoch (self s) + S e) /\
                   epoch_metric (self s) (script e) = Some m /\
                   tlt (Fin 0) m = true)).
    { destruct (epoch (frame s1)) as [e|] eqn:He.
      - destruct (finalize_bound (raised r1) st_time end_time s1 e o sc
                    He Lo Lsc) as (fs' & Hfin & _).
        rewrite Hfin in Hfit. cbn in Hfit. injection Hfit as <- _.
        eexists. split; [cbn [trace]; rewrite Ht, S6, <- app_assoc; reflexivity|].
        split.
        + apply dumps_guarded_app; [exact Hg|].
          destruct (final_save_due s1); reflexivity.
        + intros p ck Hin. apply elem_of_app in Hin as [Hin | Hin];
            [exact (Hsaves' p ck Hin)|].
          apply elem_of_cons in Hin as [Hin | Hin]; [discriminate Hin|].
          destruct (final_save_due s1) eqn:Hd;
            [|apply elem_of_nil in Hin; contradiction].
          apply list_elem_of_singleton in Hin. injection Hin as _ ->.
          destruct (Hfinal' eq_refl) as (e' & m & He' & Hne & Hm & Hp).
          exists e', m. split; [exact He'|]. split; [|split; assumption].
          cbn. rewrite Hne. reflexivity.
      - destruct (finalize_unbound (raised r1) st_time end_time s1 He)
          as [x Hfin].
        rewrite Hfin in Hfit. cbn in Hfit. injection Hfit as <- _.
        exists evs. split; [rewrite Ht, S6; reflexivity|].
        split; [exact Hg | exact Hsaves']. }
    destruct Hall as (evs' & Ht' & Hg' & Hs').
    exists evs'. split; [exact Ht'|]. split; [exact Hg'|].
    split; [exact Hs'|].
    intros Hnone. apply no_save_no_write; [|exact Hg'].
    intros p ck Hin. destruct (Hs' p ck Hin) as (e & m & He & _ & Hm & Hp).
    rewrite (Hnone e m He Hm) in Hp. discriminate Hp.
Qed.

(** A fresh learner whose metric is 0 in both epochs, then -1/2: nothing
    is saved. *)
Lemma first_save_needs_positive_metric_witness :
  best_met (self fresh_learner) = Fin 0 /\
  exists evs,
    trace (@fit plain 3 (1 # 10) None (script_of [0; 0; -1 # 2]%Q) None 0 5
             fresh_learner).1 = trace fresh_learner ++ evs /\
    binary_writes evs = [].
Proof.
  destruct (@first_save_needs_positive_metric plain) as [Hinit Hrun].
  split.
  - apply (Hinit "run" "tmp" 0 ["L1"] ["M1"] cfg0 ∅ fresh_learner);
      vm_compute; reflexivity.
  - destruct (Hrun 3 (1 # 10) None (script_of [0; 0; -1 # 2]%Q) None 0%Q 5%Q
                fresh_learner
                (@fit plain 3 (1 # 10) None (script_of [0; 0; -1 # 2]%Q) None
                   0 5 fresh_learner).1
                (Ok tt))
      as (evs & Ht & _ & _ & Hnone).
    + left. vm_compute. reflexivity.
    + vm_compute. reflexivity.
    + exists evs. split; [exact Ht|]. apply Hnone.
      intros [|[|[|e]]] m He Hm; try lia; vm_compute in Hm;
        injection Hm as <-; reflexivity.
Defined.

End SentinelClaim.

(** * Further properties *)

(** ** The smoothed value is a weighted mean *)








(** ** The weighted average is a mean *)





(** X4.  [compute_avg_dict] returns when [compute_avg] returns for every key,
    with the same keys in the same order and, for each key, the average of
    its own list under the shared weights; one key that fails makes the
    whole call fail. *)
Theorem compute_avg_dict_keywise (inp : list (string * list Q)) (nums : list Q) :
  (forall out,
     compute_avg_dict inp nums = Ok out <->
     Forall2 (fun kv ka => kv.1 = ka.1 /\ compute_avg kv.2 nums = Ok ka.2)
       inp out) /\
  ((exists e, compute_avg_dict inp nums = Raise e) <->
   Exists (fun kv => exists e, compute_avg kv.2 nums = Raise e) inp).
Proof.
  induction inp as [|[k vs] rest [IHok IHraise]].
  - split.
    + intros out. cbn. split.
      * intros [= <-]. constructor.
      * intros Hall. inversion Hall. reflexivity.
    + split.
      * intros [e He]. discriminate He.
      * intros Hex. inversion Hex.
  - split.
    + intros out. cbn [compute_avg_dict]. split.
      * destruct (compute_avg vs nums) as [a|e] eqn:Ha; [|discriminate].
        destruct (compute_avg_dict rest nums) as [out'|e] eqn:Hrest;
          [|discriminate].
        intros [= <-]. constructor; [split; [reflexivity | exact Ha]|].
        apply IHok. reflexivity.
      * intros Hall. inversion Hall as [|kv [k' a] inp' out' [Hk Ha] Hrest];
          subst. cbn in Hk, Ha. subst k'. rewrite Ha.
        apply IHok in Hrest. rewrite Hrest. reflexivity.
    + cbn [compute_avg_dict]. split.
      * intros [e He].
        destruct (compute_avg vs nums) as [a|e'] eqn:Ha.
        -- apply Exists_cons_tl. apply IHraise.
           destruct (compute_avg_dict rest nums) as [out'|e'']; [discriminate|].
           eauto.
        -- apply Exists_cons_hd. eauto.
      * intros Hex. apply Exists_cons in Hex as [[e He] | Hex].
        -- cbn in He. rewrite He. eauto.
        -- destruct (compute_avg vs nums) as [a|e']; [|eauto].
           apply IHraise in Hex as [e He]. rewrite He. eauto.
Qed.

Lemma compute_avg_dict_keywise_witness :
  (forall out,
     compute_avg_dict [("a", [1%Q; 3%Q]); ("b", [2%Q; 2%Q])] [1%Q; 1%Q] = Ok out <->
     Forall2 (fun kv ka => kv.1 = ka.1 /\ compute_avg kv.2 [1%Q; 1%Q] = Ok ka.2)
       [("a", [1%Q; 3%Q]); ("b", [2%Q; 2%Q])] out) /\
  ((exists e,
      compute_avg_dict [("a", [1%Q; 3%Q]); ("b", [2%Q; 2%Q])] [1%Q; 1%Q] = Raise e) <->
   Exists (fun kv => exists e, compute_avg kv.2 [1%Q; 1%Q] = Raise e)
     [("a", [1%Q; 3%Q]); ("b", [2%Q; 2%Q])]).
Proof.
  apply (compute_avg_dict_keywise [("a", [1%Q; 3%Q]); ("b", [2%Q; 2%Q])]
           [1%Q; 1%Q]).
Defined.

(** ** Strings *)

Lemma string_app_cons (c : Ascii.ascii) (a b : string) :
  String c a +:+ b = String c (a +:+ b).
Proof. reflexivity. Qed.

Lemma string_length_app (a b : string) :
  String.length (a +:+ b) = String.length a + String.length b.
Proof.
  induction a as [|c a IH]; [reflexivity|].
  rewrite string_app_cons. cbn [String.length]. rewrite IH. reflexivity.
Qed.


Lemma spaces_length (n : nat) : String.length (spaces n) = n.
Proof.
  induction n as [|n IH]; [reflexivity|].
  cbn [spaces]. rewrite string_length_app, IH. reflexivity.
Qed.

Lemma join_length_congr (sep : string) (l1 l2 : list string) :
  Forall2 (fun a b => String.length a = String.length b) l1 l2 ->
  String.length (join sep l1) = String.length (join sep l2).
Proof.
  unfold join. induction 1 as [|a b l1 l2 Hab Hrest IH]; [reflexivity|].
  destruct Hrest as [|a' b' l1' l2' Hab' Hrest'].
  - exact Hab.
  - change (String.length (a +:+ sep +:+ String.concat sep (a' :: l1')) =
            String.length (b +:+ sep +:+ String.concat sep (b' :: l2'))).
    rewrite !string_length_app, Hab, IH. reflexivity.
Qed.

Section RowFacts.
Context `{External}.

Lemma format_stat_text (name : string) (st : stat) :
  format_stat name st =
    stat_text st +:+
    spaces (String.length name - String.length (stat_text st)).
Proof. destruct st; reflexivity. Qed.

Lemma format_stat_length (name : string) (st : stat) :
  String.length (format_stat name st) =
    Nat.max (String.length name) (String.length (stat_text st)).
Proof. rewrite format_stat_text, string_length_app, spaces_length. lia. Qed.

(** X5.  A cell of a row holds the whole text of its value and is padded up
    to the width of its column name: its width is the larger of the
    two. *)
Theorem format_stat_width (name : string) (st : stat) :
  String.prefix (stat_text st) (format_stat name st) = true /\
  String.length (format_stat name st) =
    Nat.max (String.length name) (String.length (stat_text st)).
Proof.
  rewrite format_stat_text. split.
  - generalize (spaces (String.length name - String.length (stat_text st))).
    induction (stat_text st) as [|c t IH]; intros pad.
    + destruct pad; reflexivity.
    + rewrite string_app_cons. cbn [String.prefix].
      destruct (Ascii.ascii_dec c c) as [_|Hne]; [apply IH | congruence].
  - rewrite <- format_stat_text. apply format_stat_length.
Qed.

(** X6.  When every value fits in the width of its column name, a row is
    exactly as wide as the header line made of the names. *)
Theorem row_as_wide_as_header (names : list string) (stats : list stat) :
  Forall2 (fun name st => String.length (stat_text st) <= String.length name)
    names stats ->
  String.length (good_format_stats names stats) =
    String.length (join "  " names).
Proof.
  intros Hfit. unfold good_format_stats. apply join_length_congr.
  induction Hfit as [|name st names stats Hle _ IH]; cbn; constructor.
  - rewrite format_stat_length. lia.
  - exact IH.
Qed.

End RowFacts.

Lemma row_as_wide_as_header_witness :
  String.length (@good_format_stats plain ["epochs"; "trn_L1"]
                   [SInt 12; STensor (Fin (1 # 2))]) =
    String.length (join "  " ["epochs"; "trn_L1"]).
Proof.
  apply (@row_as_wide_as_header plain).
  repeat constructor; vm_compute; lia.
Defined.

Lemma format_stat_width_witness :
  String.prefix (@stat_text plain (SInt 12))
    (@format_stat plain "epochs" (SInt 12)) = true /\
  String.length (@format_stat plain "epochs" (SInt 12)) =
    Nat.max (String.length "epochs") (String.length (@stat_text plain (SInt 12))).
Proof.
  apply (@format_stat_width plain "epochs" (SInt 12)).
Defined.

(** ** The header and the rows of the log *)

Lemma prepare_log_keys_length (keys_list : list (list string))
  (prefix : list string) :
  length (prepare_log_keys keys_list prefix) =
    length prefix * length (concat keys_list).
Proof.
  unfold prepare_log_keys.
  induction keys_list as [|keys rest IH]; cbn; [lia|].
  rewrite !length_app, IH.
  assert (Hkeys : length (flat_map
                    (fun key => map (fun p => p +:+ "_" +:+ key) prefix) keys) =
                  length prefix * length keys).
  { induction keys as [|key keys IHk]; cbn; [lia|].
    rewrite length_app, length_map, IHk. lia. }
  rewrite Hkeys. lia.
Qed.

Lemma rows_of_length (ks : list string) (trn : dict Q)
  (val : option (dict tscalar)) (row : list stat) :
  rows_of ks trn val = Ok row ->
  length row = length ks * (if val is Some _ then 2 else 1).
Proof.
  revert row. induction ks as [|k rest IH]; intros row Hrow; cbn in Hrow.
  - injection Hrow as <-. reflexivity.
  - destruct (subscript trn k) as [t|e]; cbn in Hrow; [|discriminate Hrow].
    destruct val as [d|].
    + destruct (subscript d k) as [x|e]; cbn in Hrow; [|discriminate Hrow].
      destruct (rows_of rest trn (Some d)) as [more|e]; cbn in Hrow;
        [|discriminate Hrow].
      injection Hrow as <-. cbn. rewrite (IH more eq_refl). lia.
    + cbn in Hrow.
      destruct (rows_of rest trn None) as [more|e]; cbn in Hrow;
        [|discriminate Hrow].
      injection Hrow as <-. cbn. rewrite (IH more eq_refl). lia.
Qed.

Lemma subscript_found {V} (d : dict V) (k : string) :
  is_Some (dict_get k d) -> exists v, subscript d k = Ok v.
Proof. intros [v Hv]. unfold subscript. rewrite Hv. eauto. Qed.

Lemma rows_of_found (ks : list string) (trn : dict Q)
  (val : option (dict tscalar)) :
  (forall k, k ∈ ks -> is_Some (dict_get k trn)) ->
  (forall d k, val = Some d -> k ∈ ks -> is_Some (dict_get k d)) ->
  exists row, rows_of ks trn val = Ok row.
Proof.
  induction ks as [|k rest IH]; intros Htrn Hval; cbn; [eauto|].
  destruct (subscript_found trn k) as [t ->]; [apply Htrn; left|]. cbn.
  destruct IH as [more Hmore].
  { intros k' Hk'. apply Htrn. right. exact Hk'. }
  { intros d k' Hd Hk'. apply (Hval d k' Hd). right. exact Hk'. }
  destruct val as [d|].
  - destruct (subscript_found d k) as [x ->]; [apply (Hval d k eq_refl); left|].
    cbn. rewrite Hmore. cbn. eauto.
  - cbn. rewrite Hmore. cbn. eauto.
Qed.

(** X7.  With the header of [__post_init__], a row made from a training and a
    validation pass that report every key passes the assertion of
    [prepare_to_write]: it starts with the epoch number and has one value
    per column. *)
Theorem prepare_to_write_fills_header (s : St) (train_loss train_acc : dict Q)
  (val_loss val_acc : dict tscalar) :
  log_keys (self s) =
    "epochs" :: prepare_log_keys [loss_keys (self s); met_keys (self s)]
                  ["trn"; "val"] ->
  (forall k, k ∈ loss_keys (self s) ->
     is_Some (dict_get k train_loss) /\ is_Some (dict_get k val_loss)) ->
  (forall k, k ∈ met_keys (self s) ->
     is_Some (dict_get k train_acc) /\ is_Some (dict_get k val_acc)) ->
  exists row,
    prepare_to_write train_loss train_acc (Some val_loss) (Some val_acc) s =
      (s, Ok (SInt (num_epoch (self s)) :: row)) /\
    length (SInt (num_epoch (self s)) :: row) = length (log_keys (self s)).
Proof.
  intros Hkeys Hloss Hmet.
  destruct (rows_of_found (loss_keys (self s)) train_loss (Some val_loss))
    as [losses Hl].
  { intros k Hk. apply (Hloss k Hk). }
  { intros d k [= <-] Hk. apply (Hloss k Hk). }
  destruct (rows_of_found (met_keys (self s)) train_acc (Some val_acc))
    as [accs Ha].
  { intros k Hk. apply (Hmet k Hk). }
  { intros d k [= <-] Hk. apply (Hmet k Hk). }
  assert (Hlen : length (SInt (num_epoch (self s)) :: losses ++ accs) =
                 length (log_keys (self s))).
  { rewrite Hkeys. cbn [length]. rewrite prepare_log_keys_length.
    rewrite length_app, (rows_of_length _ _ _ _ Hl), (rows_of_length _ _ _ _ Ha).
    cbn. rewrite !length_app. cbn. lia. }
  exists (losses ++ accs). split; [|exact Hlen].
  unfold prepare_to_write. run_step. rewrite Hl. cbn. rewrite Ha. cbn.
  cbn in Hlen. rewrite <- Hlen. cbn. rewrite Nat.eqb_refl. reflexivity.
Qed.

(** X8.  The header always has the validation columns: a row made from the
    training pass alone fails the assertion as soon as there is one
    key. *)
Theorem prepare_to_write_needs_validation (s : St)
  (train_loss train_acc : dict Q) :
  log_keys (self s) =
    "epochs" :: prepare_log_keys [loss_keys (self s); met_keys (self s)]
                  ["trn"; "val"] ->
  (forall k, k ∈ loss_keys (self s) -> is_Some (dict_get k train_loss)) ->
  (forall k, k ∈ met_keys (self s) -> is_Some (dict_get k train_acc)) ->
  loss_keys (self s) ++ met_keys (self s) <> [] ->
  prepare_to_write train_loss train_acc None None s =
    (s, Raise (AssertionError "")).
Proof.
  intros Hkeys Hloss Hmet Hne.
  destruct (rows_of_found (loss_keys (self s)) train_loss None Hloss)
    as [losses Hl]; [discriminate|].
  destruct (rows_of_found (met_keys (self s)) train_acc None Hmet)
    as [accs Ha]; [discriminate|].
  unfold prepare_to_write. run_step. rewrite Hl. cbn. rewrite Ha. cbn.
  assert (Hdiff : S (length (losses ++ accs)) <> length (log_keys (self s))).
  { rewrite Hkeys. cbn [length]. rewrite prepare_log_keys_length.
    rewrite length_app, (rows_of_length _ _ _ _ Hl), (rows_of_length _ _ _ _ Ha).
    cbn. rewrite !length_app. cbn.
    assert (0 < length (loss_keys (self s)) + length (met_keys (self s))).
    { destruct (loss_keys (self s)), (met_keys (self s)); cbn in *;
        try lia; congruence. }
    lia. }
  destruct (length (log_keys (self s))) as [|m]; [reflexivity|].
  assert (Hm : length (losses ++ accs) <> m) by lia.
  apply Nat.eqb_neq in Hm. rewrite Hm. reflexivity.
Qed.

Lemma prepare_to_write_fills_header_witness :
  exists row,
    prepare_to_write [("L1", 1%Q)] [("M1", 2%Q)]
      (Some [("L1", Fin 3)]) (Some [("M1", Fin 4)]) fresh_learner =
      (fresh_learner, Ok (SInt 0 :: row)) /\
    length (SInt 0 :: row) = 5.
Proof.
  apply (prepare_to_write_fills_header fresh_learner
           [("L1", 1%Q)] [("M1", 2%Q)] [("L1", Fin 3)] [("M1", Fin 4)]).
  - reflexivity.
  - intros k Hk. apply list_elem_of_singleton in Hk as ->.
    split; eexists; reflexivity.
  - intros k Hk. apply list_elem_of_singleton in Hk as ->.
    split; eexists; reflexivity.
Defined.

Lemma prepare_to_write_needs_validation_witness :
  prepare_to_write [("L1", 1%Q)] [("M1", 2%Q)] None None fresh_learner =
    (fresh_learner, Raise (AssertionError "")).
Proof.
  apply (prepare_to_write_needs_validation fresh_learner).
  - reflexivity.
  - intros k Hk. apply list_elem_of_singleton in Hk as ->. eexists; reflexivity.
  - intros k Hk. apply list_elem_of_singleton in Hk as ->. eexists; reflexivity.
  - discriminate.
Defined.

(** ** The files of a run *)

Section RunFiles.
Context `{External}.




End RunFiles.


(** ** Dictionaries in insertion order *)

Lemma dict_get_set_same {V} (k : string) (v : V) (d : dict V) :
  dict_get k (SmoothenDict.dict_set k v d) = Some v.
Proof.
  induction d as [|[k' v'] rest IH]; cbn.
  - rewrite String.eqb_refl. reflexivity.
  - destruct (String.eqb k k') eqn:Hk; cbn.
    + rewrite String.eqb_refl. reflexivity.
    + rewrite Hk. exact IH.
Qed.

Lemma dict_get_set_other {V} (k k' : string) (v : V) (d : dict V) :
  k' <> k ->
  dict_get k' (SmoothenDict.dict_set k v d) = dict_get k' d.
Proof.
  intros Hne. apply String.eqb_neq in Hne.
  induction d as [|[k1 v1] rest IH]; cbn.
  - rewrite Hne. reflexivity.
  - destruct (String.eqb k k1) eqn:Hk; cbn.
    + apply String.eqb_eq in Hk as <-. rewrite Hne. reflexivity.
    + rewrite IH. reflexivity.
Qed.

Lemma dict_get_app {V} (k k' : string) (v : V) (d : dict V) :
  dict_get k (d ++ [(k', v)]) =
    match dict_get k d with
    | Some x => Some x
    | None => if String.eqb k k' then Some v else None
    end.
Proof.
  induction d as [|[k1 v1] rest IH]; cbn; [reflexivity|].
  destruct (String.eqb k k1); [reflexivity | exact IH].
Qed.

Lemma dict_set_new {V} (k : string) (v : V) (d : dict V) :
  dict_get k d = None -> SmoothenDict.dict_set k v d = d ++ [(k, v)].
Proof.
  induction d as [|[k1 v1] rest IH]; cbn; [reflexivity|].
  destruct (String.eqb k k1); [discriminate|].
  intros Hget. rewrite (IH Hget). reflexivity.
Qed.

Lemma comprehension_get {V} (ks : list string) (v : V) :
  forall (acc : dict V) (k : string),
    dict_get k (SmoothenDict.comprehension ks v acc) =
      match dict_get k acc with
      | Some x => Some x
      | None => if bool_decide (k ∈ ks) then Some v else None
      end.
Proof.
  induction ks as [|k0 rest IH]; intros acc k; cbn [SmoothenDict.comprehension].
  - destruct (dict_get k acc); reflexivity.
  - destruct (dict_get k0 acc) as [x0|] eqn:H0.
    + rewrite IH. destruct (dict_get k acc) as [x|] eqn:Hk; [reflexivity|].
      assert (Hne : k <> k0) by congruence.
      destruct (bool_decide_reflect (k ∈ rest)) as [Hin|Hin];
        destruct (bool_decide_reflect (k ∈ k0 :: rest)) as [Hin'|Hin'];
        try reflexivity.
      * exfalso. apply Hin'. right. exact Hin.
      * exfalso. apply elem_of_cons in Hin' as [?|?]; auto.
    + rewrite IH, dict_get_app.
      destruct (dict_get k acc) as [x|] eqn:Hk; [reflexivity|].
      destruct (String.eqb_spec k k0) as [->|Hne].
      * rewrite bool_decide_eq_true_2 by left. reflexivity.
      * destruct (bool_decide_reflect (k ∈ rest)) as [Hin|Hin];
          destruct (bool_decide_reflect (k ∈ k0 :: rest)) as [Hin'|Hin'];
          try reflexivity.
        -- exfalso. apply Hin'. right. exact Hin.
        -- exfalso. apply elem_of_cons in Hin' as [?|?]; auto.
Qed.

Lemma column_cons {V} (k : string) (val : dict V) (rest : list (dict V)) :
  column k (val :: rest) =
    match dict_get k val with
    | Some x => x :: column k rest
    | None => column k rest
    end.
Proof. reflexivity. Qed.

(** ** [SmoothenDict] key by key *)

Module SmoothenDictFacts.
Import SmoothenValue SmoothenValueFacts.

Lemma add_value_beta (x : Q) (s : t) :
  (0 <= beta s)%Q -> (beta s < 1)%Q ->
  (add_value x s).2 = Ok tt /\ beta (add_value x s).1 = beta s.
Proof. intros H0 H1. rewrite add_value_ok by assumption. auto. Qed.

Lemma add_values_cons (x : Q) (xs : list Q) (s : t) :
  (0 <= beta s)%Q -> (beta s < 1)%Q ->
  (add_values (x :: xs) s).1 = (add_values xs (add_value x s).1).1.
Proof.
  intros H0 H1. cbn [add_values]. unfold bind.
  rewrite add_value_ok by assumption. reflexivity.
Qed.

(** One call of [SmoothenDict.add_value], key by key. *)
Lemma add_value_keys_run (b : Q) (val : dict Q) :
  (0 <= b)%Q -> (b < 1)%Q ->
  forall (ks : list string) (sv : dict t),
    NoDup ks ->
    (forall k, k ∈ ks -> is_Some (dict_get k val)) ->
    (forall k, k ∈ ks -> exists s, dict_get k sv = Some s /\ beta s = b) ->
    exists sv',
      SmoothenDict.add_value_keys ks val sv = (sv', Ok tt) /\
      (forall k, k ∉ ks -> dict_get k sv' = dict_get k sv) /\
      (forall k, k ∈ ks ->
         exists s x, dict_get k sv = Some s /\ dict_get k val = Some x /\
                     dict_get k sv' = Some (add_value x s).1).
Proof.
  intros H0 H1. induction ks as [|k0 rest IH]; intros sv Hnd Hval Hsv.
  - exists sv. cbn. split; [reflexivity|]. split; [reflexivity|].
    intros k Hk. inversion Hk.
  - apply NoDup_cons in Hnd as [Hnotin Hnd].
    destruct (Hsv k0) as (s0 & Hs0 & Hb0); [left|].
    destruct (Hval k0) as [x0 Hx0]; [left|].
    cbn [SmoothenDict.add_value_keys]. unfold subscript. rewrite Hs0, Hx0.
    rewrite add_value_ok by (rewrite Hb0; assumption).
    match goal with |- context [SmoothenDict.dict_set k0 ?s1 sv] =>
      set (s' := s1) end.
    assert (Hs' : s' = (add_value x0 s0).1).
    { rewrite add_value_ok by (rewrite Hb0; assumption). reflexivity. }
    destruct (IH (SmoothenDict.dict_set k0 s' sv) Hnd) as (sv' & Hrun & Hout & Hin).
    { intros k Hk. apply Hval. right. exact Hk. }
    { intros k Hk. rewrite dict_get_set_other by (intros ->; contradiction).
      apply Hsv. right. exact Hk. }
    exists sv'. split; [exact Hrun|]. split.
    + intros k Hk. apply not_elem_of_cons in Hk as [Hne Hk].
      rewrite (Hout k Hk). apply dict_get_set_other. exact Hne.
    + intros k Hk. apply elem_of_cons in Hk as [->|Hk].
      * exists s0, x0. split; [exact Hs0|]. split; [exact Hx0|].
        rewrite (Hout k0 Hnotin), dict_get_set_same, Hs'. reflexivity.
      * destruct (Hin k Hk) as (s & x & Hs & Hx & Hget).
        rewrite dict_get_set_other in Hs by (intros ->; contradiction).
        exists s, x. auto.
Qed.

(** A sequence of calls from a dictionary whose values decay by [b]. *)
Lemma add_dicts_run (b : Q) (ks : list string) :
  (0 <= b)%Q -> (b < 1)%Q -> NoDup ks ->
  forall (vals : list (dict Q)) (d : SmoothenDict.t),
    Forall (fun val => forall k, k ∈ ks -> is_Some (dict_get k val)) vals ->
    SmoothenDict.keys d = ks ->
    (forall k, k ∈ ks ->
       exists s, dict_get k (SmoothenDict.smooth_vals d) = Some s /\
                 beta s = b) ->
    exists d',
      add_dicts vals d = (d', Ok tt) /\
      SmoothenDict.keys d' = ks /\
      (forall k, k ∈ ks ->
         exists s, dict_get k (SmoothenDict.smooth_vals d) = Some s /\
                   dict_get k (SmoothenDict.smooth_vals d') =
                     Some (add_values (column k vals) s).1).
Proof.
  intros H0 H1 Hnd. induction vals as [|val rest IH]; intros d Hvals Hks Hsv.
  - exists d. cbn. split; [reflexivity|]. split; [exact Hks|].
    intros k Hk. destruct (Hsv k Hk) as (s & Hs & _). exists s. auto.
  - apply Forall_cons in Hvals as [Hval Hvals].
    destruct (add_value_keys_run b val H0 H1 ks (SmoothenDict.smooth_vals d)
                Hnd Hval Hsv) as (sv' & Hrun & Hout & Hin).
    cbn [add_dicts]. unfold bind, SmoothenDict.add_value.
    rewrite Hks, Hrun.
    destruct (IH {| SmoothenDict.keys := ks; SmoothenDict.smooth_vals := sv' |}
                Hvals eq_refl) as (d' & Hrest & Hks' & Hget).
    { intros k Hk. destruct (Hin k Hk) as (s & x & Hs & Hx & Hs').
      destruct (Hsv k Hk) as (s1 & Hs1 & Hb1).
      assert (s1 = s) as -> by congruence.
      exists (add_value x s).1. split; [exact Hs'|].
      rewrite <- Hb1. apply add_value_beta; rewrite Hb1; assumption. }
    exists d'. split; [exact Hrest|]. split; [exact Hks'|].
    intros k Hk. destruct (Hin k Hk) as (s & x & Hs & Hx & Hs').
    destruct (Hget k Hk) as (s2 & Hs2 & Hd'). cbn in Hs2.
    destruct (Hsv k Hk) as (s1 & Hs1 & Hb1).
    assert (s1 = s) as -> by congruence.
    exists s. split; [exact Hs|]. rewrite Hd'.
    assert (s2 = (add_value x s).1) as -> by congruence.
    rewrite column_cons, Hx.
    rewrite add_values_cons by (rewrite Hb1; assumption). reflexivity.
Qed.

(** The [smooth] property lists the keys in their order. *)
Lemma smooth_keys_run (sv : dict t) (f : string -> t) :
  forall (ks : list string) (acc : dict Q),
    NoDup ks ->
    (forall k, k ∈ ks -> dict_get k sv = Some (f k)) ->
    (forall k, k ∈ ks -> dict_get k acc = None) ->
    SmoothenDict.smooth_keys ks sv acc =
      Ok (acc ++ map (fun k => (k, smooth (f k))) ks).
Proof.
  induction ks as [|k0 rest IH]; intros acc Hnd Hsv Hacc.
  - cbn. rewrite app_nil_r. reflexivity.
  - apply NoDup_cons in Hnd as [Hnotin Hnd].
    cbn [SmoothenDict.smooth_keys]. unfold subscript.
    rewrite (Hsv k0) by left.
    rewrite dict_set_new by (apply Hacc; left).
    rewrite IH.
    + rewrite <- app_assoc. reflexivity.
    + exact Hnd.
    + intros k Hk. apply Hsv. right. exact Hk.
    + intros k Hk. rewrite dict_get_app, Hacc by (right; exact Hk).
      destruct (String.eqb_spec k k0) as [->|]; [contradiction | reflexivity].
Qed.

Lemma init_get (ks : list string) (b : Q) (k : string) :
  k ∈ ks ->
  dict_get k (SmoothenDict.smooth_vals (SmoothenDict.init ks b)) =
    Some (init b).
Proof.
  intros Hk. cbn. rewrite comprehension_get. cbn.
  rewrite bool_decide_eq_true_2 by exact Hk. reflexivity.
Qed.

(** From [SmoothenDict(keys, b)]: the calls return and every key holds
    the smoothed value of its column. *)
Lemma add_dicts_init (b : Q) (ks : list string) (vals : list (dict Q)) :
  (0 <= b)%Q -> (b < 1)%Q -> NoDup ks ->
  Forall (fun val => forall k, k ∈ ks -> is_Some (dict_get k val)) vals ->
  exists d,
    add_dicts vals (SmoothenDict.init ks b) = (d, Ok tt) /\
    SmoothenDict.keys d = ks /\
    (forall k, k ∈ ks ->
       dict_get k (SmoothenDict.smooth_vals d) =
         Some (add_values (column k vals) (init b)).1) /\
    SmoothenDict.smooth d = Ok (map (fun k => (k, smoothed b k vals)) ks).
Proof.
  intros H0 H1 Hnd Hvals.
  destruct (add_dicts_run b ks H0 H1 Hnd vals (SmoothenDict.init ks b)
              Hvals eq_refl) as (d & Hrun & Hks & Hget).
  { intros k Hk. exists (init b). split; [apply init_get; exact Hk|].
    reflexivity. }
  assert (Hd : forall k, k ∈ ks ->
            dict_get k (SmoothenDict.smooth_vals d) =
              Some (add_values (column k vals) (init b)).1).
  { intros k Hk. destruct (Hget k Hk) as (s & Hs & Hd).
    rewrite init_get in Hs by exact Hk. injection Hs as <-. exact Hd. }
  exists d. split; [exact Hrun|]. split; [exact Hks|]. split; [exact Hd|].
  unfold SmoothenDict.smooth. rewrite Hks.
  rewrite (smooth_keys_run _
             (fun k => (add_values (column k vals) (init b)).1) ks []
             Hnd Hd); [reflexivity|].
  intros k _. reflexivity.
Qed.

End SmoothenDictFacts.

(** X10.  A [SmoothenDict] over distinct keys with a decay in [0,1), fed with
    dictionaries that report every key, never raises, and its [smooth]
    property lists, key after key in the order of the keys, the smoothed
    value that a [SmoothenValue] of its own gives for the values of that
    key. *)
Theorem smoothen_dict_keywise (b : Q) (ks : list string)
  (vals : list (dict Q)) :
  (0 <= b)%Q -> (b < 1)%Q -> NoDup ks ->
  Forall (fun val => forall k, k ∈ ks -> is_Some (dict_get k val)) vals ->
  exists d,
    add_dicts vals (SmoothenDict.init ks b) = (d, Ok tt) /\
    SmoothenDict.smooth d = Ok (map (fun k => (k, smoothed b k vals)) ks).
Proof.
  intros H0 H1 Hnd Hvals.
  destruct (SmoothenDictFacts.add_dicts_init b ks vals H0 H1 Hnd Hvals)
    as (d & Hrun & _ & _ & Hsm).
  exists d. auto.
Qed.

Lemma smoothen_dict_keywise_witness :
  exists d,
    add_dicts [[("a", 1%Q); ("b", 2%Q)]; [("b", 4%Q); ("a", 3%Q)]]
      (SmoothenDict.init ["a"; "b"] (1 # 2)) = (d, Ok tt) /\
    SmoothenDict.smooth d =
      Ok (map (fun k => (k, smoothed (1 # 2) k
                              [[("a", 1%Q); ("b", 2%Q)]; [("b", 4%Q); ("a", 3%Q)]]))
            ["a"; "b"]).
Proof.
  apply (smoothen_dict_keywise (1 # 2) ["a"; "b"]
           [[("a", 1%Q); ("b", 2%Q)]; [("b", 4%Q); ("a", 3%Q)]]).
  - discriminate.
  - reflexivity.
  - apply (bool_decide_unpack _). vm_compute. reflexivity.
  - repeat constructor; intros k Hk;
      apply elem_of_cons in Hk as [->|Hk];
      [ | apply list_elem_of_singleton in Hk as -> | | apply list_elem_of_singleton in Hk as -> ];
      eexists; reflexivity.
Defined.

(** ** The training pass *)

Module TrainFacts.
Import SmoothenDictFacts.

Lemma decay_range : (0 <= 9 # 10)%Q /\ (9 # 10 < 1)%Q.
Proof. split; [discriminate | reflexivity]. Qed.

Lemma ready_init (ks : list string) : ready ks (SmoothenDict.init ks (9 # 10)).
Proof.
  split; [reflexivity|]. intros k Hk.
  exists (SmoothenValue.init (9 # 10)). split; [|reflexivity].
  apply init_get. exact Hk.
Qed.

Lemma add_value_ready (ks : list string) (val : dict Q) (d : SmoothenDict.t) :
  NoDup ks -> ready ks d ->
  (forall k, k ∈ ks -> is_Some (dict_get k val)) ->
  exists d', SmoothenDict.add_value val d = (d', Ok tt) /\ ready ks d'.
Proof.
  intros Hnd [Hks Hsv] Hval.
  destruct decay_range as [H0 H1].
  destruct (add_value_keys_run (9 # 10) val H0 H1 ks
              (SmoothenDict.smooth_vals d) Hnd Hval Hsv)
    as (sv' & Hrun & _ & Hin).
  unfold SmoothenDict.add_value. rewrite Hks, Hrun.
  eexists. split; [reflexivity|]. split; [reflexivity|].
  intros k Hk. cbn. destruct (Hin k Hk) as (s & x & Hs & Hx & Hs').
  destruct (Hsv k Hk) as (s1 & Hs1 & Hb1).
  assert (s1 = s) as -> by congruence.
  exists (SmoothenValue.add_value x s).1. split; [exact Hs'|].
  rewrite <- Hb1. apply add_value_beta; rewrite Hb1; assumption.
Qed.

Lemma smooth1_ready (ks : list string) (d : SmoothenDict.t) :
  ks <> [] -> ready ks d -> exists q, SmoothenDict.smooth1 d = Ok q.
Proof.
  intros Hne [Hks Hsv]. unfold SmoothenDict.smooth1. rewrite Hks.
  destruct ks as [|k0 rest]; [contradiction|]. cbn.
  destruct (Hsv k0) as (s & Hs & _); [left|].
  unfold subscript. rewrite Hs. eauto.
Qed.

Lemma smooth1_some (d : SmoothenDict.t) (q : Q) :
  SmoothenDict.smooth1 d = Ok q -> SmoothenDict.keys d <> [].
Proof.
  unfold SmoothenDict.smooth1.
  destruct (SmoothenDict.keys d); [discriminate|]. discriminate.
Qed.

Lemma add_value_keys_same (val : dict Q) (d d' : SmoothenDict.t)
  (r : result unit) :
  SmoothenDict.add_value val d = (d', r) ->
  SmoothenDict.keys d' = SmoothenDict.keys d.
Proof.
  unfold SmoothenDict.add_value.
  destruct (SmoothenDict.add_value_keys _ _ _). intros [= <- _]. reflexivity.
Qed.

(** The counter of iterations, whatever the outcome of the loop, and
    what a loop that ends without an exception has seen. *)
Lemma train_loop_counts (flt : option (nat * exn)) (dl : list TrainBatch) :
  forall (j : nat) (a b : SmoothenDict.t) (s s' : St)
    (r : result (SmoothenDict.t * SmoothenDict.t)),
    train_loop flt j dl a b s = (s', r) ->
    num_it (self s) <= num_it (self s') <= num_it (self s) + length dl /\
    (forall x, r = Raise x -> dl <> [] /\ num_it (self s) < num_it (self s')) /\
    (forall v, r = Ok v ->
       num_it (self s') = num_it (self s) + length dl /\
       (dl <> [] ->
        loss_keys (self s) <> [] /\ SmoothenDict.keys b <> [])).
Proof.
  induction dl as [|batch rest IH]; intros j a b s s' r Hrun.
  - cbn in Hrun. injection Hrun as <- <-. cbn.
    split; [lia|]. split; [discriminate|]. intros v _. split; [lia|].
    intros Hne. contradiction.
  - cbn [train_loop] in Hrun.
    apply bind_inv in Hrun as [([] & s1 & H1 & Hrun) | (x & H1 & _)];
      [|discriminate H1].
    injection H1 as <-.
    apply bind_inv in Hrun as [(l & s2 & H2 & Hrun) | (x & H2 & _)];
      [|discriminate H2].
    injection H2 as <- <-.
    apply bind_inv in Hrun as [([] & s3 & H3 & Hrun) | (x & H3 & ->)].
    2: { apply lift_inv in H3 as [-> _]. cbn.
         split; [lia|]. split; [|discriminate].
         intros _ _. split; [discriminate | lia]. }
    apply lift_inv in H3 as [-> _].
    apply bind_inv in Hrun as [([] & s4 & H4 & Hrun) | (x & H4 & ->)].
    2: { apply check_inv in H4 as [-> _]. cbn.
         split; [lia|]. split; [|discriminate].
         intros _ _. split; [discriminate | lia]. }
    apply check_inv in H4 as [-> _].
    apply bind_inv in Hrun as [(k0 & s5 & H5 & Hrun) | (x & H5 & ->)].
    2: { apply lift_inv in H5 as [-> _]. cbn.
         split; [lia|]. split; [|discriminate].
         intros _ _. split; [discriminate | lia]. }
    apply lift_inv in H5 as [-> Hk0].
    apply bind_inv in Hrun as [(x0 & s6 & H6 & Hrun) | (x & H6 & ->)].
    2: { apply lift_inv in H6 as [-> _]. cbn.
         split; [lia|]. split; [|discriminate].
         intros _ _. split; [discriminate | lia]. }
    apply lift_inv in H6 as [-> _].
    apply bind_inv in Hrun as [([] & s7 & H7 & Hrun) | (x & H7 & _)];
      [|discriminate H7].
    injection H7 as <-.
    destruct (SmoothenDict.add_value (tb_out_loss batch) a) as [a' r1].
    apply bind_inv in Hrun as [([] & s8 & H8 & Hrun) | (x & H8 & ->)].
    2: { apply lift_inv in H8 as [-> _]. cbn.
         split; [lia|]. split; [|discriminate].
         intros _ _. split; [discriminate | lia]. }
    apply lift_inv in H8 as [-> _].
    destruct (SmoothenDict.add_value (tb_metric batch) b) as [b' r2] eqn:Hb.
    apply bind_inv in Hrun as [([] & s9 & H9 & Hrun) | (x & H9 & ->)].
    2: { apply lift_inv in H9 as [-> _]. cbn.
         split; [lia|]. split; [|discriminate].
         intros _ _. split; [discriminate | lia]. }
    apply lift_inv in H9 as [-> _].
    apply bind_inv in Hrun as [(q1 & s10 & H10 & Hrun) | (x & H10 & ->)].
    2: { apply lift_inv in H10 as [-> _]. cbn.
         split; [lia|]. split; [|discriminate].
         intros _ _. split; [discriminate | lia]. }
    apply lift_inv in H10 as [-> _].
    apply bind_inv in Hrun as [(q2 & s11 & H11 & Hrun) | (x & H11 & ->)].
    2: { apply lift_inv in H11 as [-> _]. cbn.
         split; [lia|]. split; [|discriminate].
         intros _ _. split; [discriminate | lia]. }
    apply lift_inv in H11 as [-> Hq2].
    destruct (IH _ _ _ _ _ _ Hrun) as (Hbound & Hraise & Hok).
    cbn in Hbound, Hraise, Hok. cbn [length].
    split; [lia|]. split.
    + intros x Hx. split; [discriminate | lia].
    + intros v Hv. destruct (Hok v Hv) as [Hn _]. split; [lia|].
      intros _. split.
      * cbn in Hk0. destruct (loss_keys (self s)); [discriminate Hk0|].
        discriminate.
      * rewrite <- (add_value_keys_same _ _ _ _ Hb).
        apply (smooth1_some b' q2). symmetry. exact Hq2.
Qed.

(** The loop on batches that report every key. *)
Lemma train_loop_run (lk mk : list string) :
  NoDup lk -> NoDup mk -> lk <> [] -> mk <> [] ->
  forall (dl : list TrainBatch) (j : nat) (a b : SmoothenDict.t) (s : St),
    loss_keys (self s) = lk ->
    is_Some (optimizer (self s)) ->
    ready lk a -> ready mk b ->
    Forall (fun batch =>
              (forall k, k ∈ lk -> is_Some (dict_get k (tb_out_loss batch))) /\
              (forall k, k ∈ mk -> is_Some (dict_get k (tb_metric batch))))
           dl ->
    exists s' a' b',
      train_loop None j dl a b s = (s', Ok (a', b')) /\
      add_dicts (map tb_out_loss dl) a = (a', Ok tt) /\
      add_dicts (map tb_metric dl) b = (b', Ok tt).
Proof.
  intros Hndl Hndm Hlk Hmk.
  induction dl as [|batch rest IH]; intros j a b s Hkeys Hopt Ha Hb Hdl.
  - exists s, a, b. cbn. auto.
  - apply Forall_cons in Hdl as [[Hloss Hmet] Hdl].
    destruct (add_value_ready lk (tb_out_loss batch) a Hndl Ha Hloss)
      as (a' & Hadd_a & Ha').
    destruct (add_value_ready mk (tb_metric batch) b Hndm Hb Hmet)
      as (b' & Hadd_b & Hb').
    destruct (smooth1_ready lk a' Hlk Ha') as [q1 Hq1].
    destruct (smooth1_ready mk b' Hmk Hb') as [q2 Hq2].
    destruct Hopt as [o Ho].
    set (s1 := with_self (fun l => set_optimizer (tb_opt batch)
                                     (set_mdl (tb_mdl batch) l))
                 (with_self (fun l => set_num_it (S (num_it l)) l) s)).
    destruct (IH (S j) a' b' s1) as (s' & a2 & b2 & Hrun & Hda & Hdb);
      [exact Hkeys | cbn; eauto | exact Ha' | exact Hb' | exact Hdl |].
    exists s', a2, b2. split; [|split].
    + cbn [train_loop]. unfold bind at 1. unfold modify at 1.
      unfold bind at 1. unfold getself at 1.
      cbn [self with_self optimizer set_num_it]. rewrite Ho.
      unfold bind at 1. unfold lift at 1.
      unfold bind at 1. cbn [fault_here check].
      unfold bind at 1. unfold lift at 1.
      cbn [loss_keys set_num_it]. rewrite Hkeys.
      destruct lk as [|k0 lk']; [contradiction|]. cbn [first].
      destruct (Hloss k0) as [x0 Hx0]; [left|].
      unfold bind at 1. unfold lift at 1. unfold subscript at 1. rewrite Hx0.
      unfold bind at 1. unfold modify at 1.
      rewrite Hadd_a. unfold bind at 1. unfold lift at 1.
      rewrite Hadd_b. unfold bind at 1. unfold lift at 1.
      unfold bind at 1. unfold lift at 1. rewrite Hq1.
      unfold bind at 1. unfold lift at 1. rewrite Hq2.
      exact Hrun.
    + cbn [map add_dicts]. unfold bind. rewrite Hadd_a. exact Hda.
    + cbn [map add_dicts]. unfold bind. rewrite Hadd_b. exact Hdb.
Qed.

End TrainFacts.

(** What a training pass did to the counter, read off its outcome. *)
Lemma train_epoch_outcome (dl : list TrainBatch) (flt : option (nat * exn))
  (s s' : St) (r : result (dict Q * dict Q)) :
  train_epoch dl flt s = (s', r) ->
  num_it (self s) <= num_it (self s') <= num_it (self s) + length dl /\
  (dl = [] -> s' = s /\ exists msg, r = Raise (UnboundLocalError msg)) /\
  (forall v, r = Ok v ->
     dl <> [] /\ loss_keys (self s) <> [] /\ met_keys (self s) <> [] /\
     num_it (self s') = num_it (self s) + length dl).
Proof.
  intros Hrun. unfold train_epoch in Hrun.
  apply bind_inv in Hrun as [(l & s1 & H1 & Hrun) | (x & H1 & _)];
    [|discriminate H1].
  injection H1 as <- <-.
  apply bind_inv in Hrun as [(acc & s2 & H2 & Hrun) | (x & H2 & ->)].
  - destruct (TrainFacts.train_loop_counts _ _ _ _ _ _ _ _ H2)
      as (Hbound & _ & Hok).
    destruct (Hok acc eq_refl) as [Hn Hkeys].
    apply bind_inv in Hrun as [([] & s3 & H3 & Hrun) | (x & H3 & ->)].
    + apply lift_inv in H3 as [-> Hdl].
      assert (Hne : dl <> []) by (destruct dl; [discriminate Hdl | discriminate]).
      assert (Hfinal : s' = s2).
      { apply bind_inv in Hrun as [(tl & s4 & H4 & Hrun) | (x & H4 & ->)].
        - apply lift_inv in H4 as [-> _].
          apply bind_inv in Hrun as [(ta & s5 & H5 & Hrun) | (x & H5 & ->)].
          + apply lift_inv in H5 as [-> _]. injection Hrun as <- _. reflexivity.
          + apply lift_inv in H5 as [-> _]. reflexivity.
        - apply lift_inv in H4 as [-> _]. reflexivity. }
      subst s'. split; [exact Hbound|]. split; [intros ->; contradiction|].
      intros v _. destruct (Hkeys Hne) as [Hl Hm].
      split; [exact Hne|]. split; [exact Hl|]. split; [exact Hm | exact Hn].
    + apply lift_inv in H3 as [-> Hdl].
      split; [exact Hbound|]. split; [|discriminate].
      intros ->. cbn in H2. injection H2 as <- _. split; [reflexivity|].
      cbn in Hdl. injection Hdl as ->. eexists. reflexivity.
  - destruct (TrainFacts.train_loop_counts _ _ _ _ _ _ _ _ H2)
      as (Hbound & Hraise & _).
    split; [exact Hbound|]. split; [|discriminate].
    intros ->. destruct (Hraise x eq_refl) as [Hne _]. contradiction.
Qed.

(** X11.  [train_epoch] adds one to [num_it] for every batch it starts: at the
    end the counter has grown by at most the number of batches, by at
    least one when an exception comes from a batch, and by exactly the
    number of batches when the pass returns.  The pass returns only for a
    loader that gave a batch ([del batch] fails otherwise), and only when
    there is a loss key and a metric key (the first of each is read for
    every batch). *)
Theorem train_epoch_counts (dl : list TrainBatch) (flt : option (nat * exn))
  (s s' : St) (r : result (dict Q * dict Q)) :
  train_epoch dl flt s = (s', r) ->
  num_it (self s) <= num_it (self s') <= num_it (self s) + length dl /\
  (dl = [] -> s' = s /\ exists msg, r = Raise (UnboundLocalError msg)) /\
  (forall v, r = Ok v ->
     dl <> [] /\ loss_keys (self s) <> [] /\ met_keys (self s) <> [] /\
     num_it (self s') = num_it (self s) + length dl).
Proof. apply train_epoch_outcome. Qed.

Lemma train_epoch_counts_witness :
  num_it (self fresh_learner) <=
    num_it (self (train_epoch [] None fresh_learner).1) <=
    num_it (self fresh_learner) + length (@nil TrainBatch) /\
  ([] = @nil TrainBatch ->
   (train_epoch [] None fresh_learner).1 = fresh_learner /\
   exists msg, (train_epoch [] None fresh_learner).2 =
                 Raise (UnboundLocalError msg)) /\
  (forall v, (train_epoch [] None fresh_learner).2 = Ok v ->
     [] <> @nil TrainBatch /\ loss_keys (self fresh_learner) <> [] /\
     met_keys (self fresh_learner) <> [] /\
     num_it (self (train_epoch [] None fresh_learner).1) =
       num_it (self fresh_learner) + length (@nil TrainBatch)).
Proof.
  apply (train_epoch_counts [] None fresh_learner).
  vm_compute. reflexivity.
Defined.

(** X12.  With an optimizer, distinct loss keys and distinct metric keys, at
    least one of each, and a loader that gives at least one batch, every
    batch reporting every key, [train_epoch] returns: for every key, in
    the order of the keys, the value that a [SmoothenValue] of decay 0.9
    gives for the values of that key over the batches. *)
Theorem train_epoch_returns (dl : list TrainBatch) (s : St) :
  is_Some (optimizer (self s)) ->
  NoDup (loss_keys (self s)) -> NoDup (met_keys (self s)) ->
  loss_keys (self s) <> [] -> met_keys (self s) <> [] -> dl <> [] ->
  Forall (fun batch =>
            (forall k, k ∈ loss_keys (self s) ->
               is_Some (dict_get k (tb_out_loss batch))) /\
            (forall k, k ∈ met_keys (self s) ->
               is_Some (dict_get k (tb_metric batch)))) dl ->
  exists s',
    train_epoch dl None s =
      (s', Ok (map (fun k => (k, smoothed (9 # 10) k (map tb_out_loss dl)))
                 (loss_keys (self s)),
               map (fun k => (k, smoothed (9 # 10) k (map tb_metric dl)))
                 (met_keys (self s)))).
Proof.
  intros Hopt Hndl Hndm Hlk Hmk Hdl Hall.
  destruct TrainFacts.decay_range as [H0 H1].
  destruct (TrainFacts.train_loop_run _ _ Hndl Hndm Hlk Hmk dl 0
              (SmoothenDict.init (loss_keys (self s)) (9 # 10))
              (SmoothenDict.init (met_keys (self s)) (9 # 10)) s eq_refl Hopt
              (TrainFacts.ready_init _) (TrainFacts.ready_init _) Hall)
    as (s' & a' & b' & Hrun & Hda & Hdb).
  destruct (SmoothenDictFacts.add_dicts_init (9 # 10) (loss_keys (self s))
              (map tb_out_loss dl) H0 H1 Hndl) as (a2 & Ha2 & _ & _ & Hsa).
  { rewrite Forall_map. eapply Forall_impl; [exact Hall|].
    intros batch [Hl _]. exact Hl. }
  destruct (SmoothenDictFacts.add_dicts_init (9 # 10) (met_keys (self s))
              (map tb_metric dl) H0 H1 Hndm) as (b2 & Hb2 & _ & _ & Hsb).
  { rewrite Forall_map. eapply Forall_impl; [exact Hall|].
    intros batch [_ Hm]. exact Hm. }
  assert (a2 = a') as -> by congruence.
  assert (b2 = b') as -> by congruence.
  exists s'. unfold train_epoch.
  unfold bind at 1. unfold getself at 1.
  unfold bind at 1. rewrite Hrun.
  unfold bind at 1. unfold lift at 1.
  destruct dl as [|batch rest]; [contradiction|].
  unfold bind at 1. unfold lift at 1. cbn [fst snd]. rewrite Hsa.
  unfold bind at 1. unfold lift at 1. rewrite Hsb.
  reflexivity.
Qed.

Lemma train_epoch_returns_witness :
  exists s',
    train_epoch [train_batch0; train_batch0] None armed_learner =
      (s', Ok (map (fun k => (k, smoothed (9 # 10) k
                                   (map tb_out_loss [train_batch0; train_batch0])))
                 (loss_keys (self armed_learner)),
               map (fun k => (k, smoothed (9 # 10) k
                                   (map tb_metric [train_batch0; train_batch0])))
                 (met_keys (self armed_learner)))).
Proof.
  apply (train_epoch_returns [train_batch0; train_batch0] armed_learner).
  - eexists. vm_compute. reflexivity.
  - apply (bool_decide_unpack _). vm_compute. reflexivity.
  - apply (bool_decide_unpack _). vm_compute. reflexivity.
  - discriminate.
  - discriminate.
  - discriminate.
  - repeat constructor; intros k Hk;
      apply list_elem_of_singleton in Hk as ->; eexists; reflexivity.
Defined.

(** ** The validation pass *)

Lemma rbind_ok {A B} (r : result A) (k : A -> result B) (b : B) :
  rbind r k = Ok b -> exists a, r = Ok a /\ k a = Ok b.
Proof. destruct r as [a|e]; cbn; [eauto | discriminate]. Qed.

Lemma mapM_ok {A B} (f : A -> result B) (l : list A) (out : list B) :
  mapM f l = Ok out <-> Forall2 (fun a b => f a = Ok b) l out.
Proof.
  revert out. induction l as [|a rest IH]; intros out; cbn [mapM].
  - split.
    + intros [= <-]. constructor.
    + intros Hall. inversion Hall. reflexivity.
  - split.
    + intros Hrun. apply rbind_ok in Hrun as (b & Hb & Hrun).
      apply rbind_ok in Hrun as (bs & Hbs & [= <-]).
      constructor; [exact Hb | apply IH; exact Hbs].
    + intros Hall. inversion Hall as [|a' b l' bs Hb Hrest]; subst.
      rewrite Hb. cbn. apply IH in Hrest. rewrite Hrest. reflexivity.
Qed.

Lemma mapM_raise {A B} (f : A -> result B) (l : list A) (e : exn) :
  mapM f l = Raise e -> exists a, a ∈ l /\ f a = Raise e.
Proof.
  induction l as [|a rest IH]; cbn [mapM]; [discriminate|].
  destruct (f a) as [b|e'] eqn:Hb; cbn.
  - destruct (mapM f rest) as [bs|e'']; cbn; [discriminate|].
    intros [= ->]. destruct (IH eq_refl) as (a' & Hin & Ha').
    exists a'. split; [right; exact Hin | exact Ha'].
  - intros [= ->]. exists a. split; [left | exact Hb].
Qed.

Lemma item_ok {A} (l : list A) (i : nat) (x : A) :
  item l i = Ok x <-> l !! i = Some x.
Proof.
  unfold item. destruct (l !! i); split; intros Heq;
    try discriminate; congruence.
Qed.

Lemma item_raise {A} (l : list A) (i : nat) (e : exn) :
  item l i = Raise e ->
  length l <= i /\ e = IndexError "list index out of range".
Proof.
  unfold item. destruct (l !! i) eqn:Hl; [discriminate|].
  intros [= <-]. split; [|reflexivity].
  apply lookup_ge_None. exact Hl.
Qed.

Lemma prediction_at (ids : list nat) (boxes : list (list Q))
  (scores : list Q) (i : nat) (p : prediction) :
  (a <~ item ids i ;; b <~ item boxes i ;; sc <~ item scores i ;;
   Ok {| id := a; pred_boxes := b; pred_scores := sc |})%py = Ok p ->
  ids !! i = Some (id p) /\ boxes !! i = Some (pred_boxes p) /\
  scores !! i = Some (pred_scores p).
Proof.
  intros Hrun. apply rbind_ok in Hrun as (a & Ha & Hrun).
  apply rbind_ok in Hrun as (b & Hb & Hrun).
  apply rbind_ok in Hrun as (sc & Hsc & [= <-]). cbn.
  rewrite <- !item_ok. auto.
Qed.

(** X13.  [get_predictions_list] turns the three lists of a batch into one
    record per identifier: it returns exactly when there are at least as
    many boxes and as many scores as identifiers, and then record [i]
    holds element [i] of each list; with fewer boxes or scores it raises
    [IndexError].  Boxes and scores beyond the identifiers are dropped. *)
Theorem get_predictions_list_rows (ids : list nat) (boxes : list (list Q))
  (scores : list Q) :
  match get_predictions_list ids boxes scores with
  | Ok out =>
      length ids <= length boxes /\ length ids <= length scores /\
      length out = length ids /\
      forall i p, out !! i = Some p ->
        ids !! i = Some (id p) /\ boxes !! i = Some (pred_boxes p) /\
        scores !! i = Some (pred_scores p)
  | Raise e =>
      (length boxes < length ids \/ length scores < length ids) /\
      e = IndexError "list index out of range"
  end.
Proof.
  unfold get_predictions_list.
  match goal with |- context [mapM ?f0 _] => set (f := f0) end.
  destruct (mapM f (seq 0 (length ids))) as [out|e] eqn:Hrun.
  - apply mapM_ok in Hrun.
    pose proof (Forall2_length _ _ _ Hrun) as Hlen. rewrite length_seq in Hlen.
    assert (Hrow : forall i p, out !! i = Some p ->
              ids !! i = Some (id p) /\ boxes !! i = Some (pred_boxes p) /\
              scores !! i = Some (pred_scores p)).
    { intros i p Hp.
      destruct (Forall2_lookup_r _ _ _ _ _ Hrun Hp) as (j & Hj & Hf).
      apply lookup_seq in Hj as [-> _]. cbn in Hf.
      exact (prediction_at ids boxes scores i p Hf). }
    assert (Hlast : forall n, length ids = S n ->
              n < length boxes /\ n < length scores).
    { intros n Hn. destruct (lookup_lt_is_Some_2 out n) as [p Hp]; [lia|].
      destruct (Hrow n p Hp) as (_ & Hb & Hsc).
      split; eapply lookup_lt_Some; eassumption. }
    split; [|split; [|split; [symmetry; exact Hlen | exact Hrow]]].
    + destruct (length ids) as [|n] eqn:Hn; [lia|].
      destruct (Hlast n eq_refl). lia.
    + destruct (length ids) as [|n] eqn:Hn; [lia|].
      destruct (Hlast n eq_refl). lia.
  - apply mapM_raise in Hrun as (i & Hin & Hf).
    apply elem_of_seq in Hin as [_ Hi]. cbn in Hi.
    destruct (lookup_lt_is_Some_2 ids i Hi) as [a Ha].
    unfold f in Hf. unfold item at 1 in Hf. rewrite Ha in Hf. cbn in Hf.
    destruct (item boxes i) as [b|e1] eqn:Hb; cbn in Hf.
    + destruct (item scores i) as [sc|e2] eqn:Hsc; cbn in Hf; [discriminate|].
      injection Hf as <-. apply item_raise in Hsc as [Hle ->].
      split; [right; lia | reflexivity].
    + injection Hf as <-. apply item_raise in Hb as [Hle ->].
      split; [left; lia | reflexivity].
Qed.

Module ValidateFacts.

Lemma subscript_ok {V} (d : dict V) (k : string) (v : V) :
  subscript d k = Ok v <-> dict_get k d = Some v.
Proof.
  unfold subscript. destruct (dict_get k d); split; intros Heq;
    try discriminate; congruence.
Qed.

(** [for k in keys: acc[k].append(val[k])] over distinct keys. *)
Lemma append_keys_run (val : dict Q) :
  forall (ks : list string) (acc acc' : dict (list Q)),
    NoDup ks ->
    append_keys ks val acc = Ok acc' ->
    (forall k, k ∉ ks -> dict_get k acc' = dict_get k acc) /\
    (forall k, k ∈ ks ->
       exists xs x, dict_get k acc = Some xs /\ dict_get k val = Some x /\
                    dict_get k acc' = Some (xs ++ [x])).
Proof.
  induction ks as [|k0 rest IH]; intros acc acc' Hnd Hrun.
  - cbn in Hrun. injection Hrun as <-. split; [reflexivity|].
    intros k Hk. inversion Hk.
  - apply NoDup_cons in Hnd as [Hnotin Hnd].
    cbn [append_keys] in Hrun.
    apply rbind_ok in Hrun as (old & Hold & Hrun).
    apply rbind_ok in Hrun as (x & Hx & Hrun).
    apply subscript_ok in Hold. apply subscript_ok in Hx.
    destruct (IH _ _ Hnd Hrun) as [Hout Hin].
    split.
    + intros k Hk. apply not_elem_of_cons in Hk as [Hne Hk].
      rewrite (Hout k Hk). apply dict_get_set_other. exact Hne.
    + intros k Hk. apply elem_of_cons in Hk as [->|Hk].
      * exists old, x. split; [exact Hold|]. split; [exact Hx|].
        rewrite (Hout k0 Hnotin). apply dict_get_set_same.
      * destruct (Hin k Hk) as (xs & x' & Hxs & Hx' & Hget).
        rewrite dict_get_set_other in Hxs by (intros ->; contradiction).
        exists xs, x'. auto.
Qed.

(** What the loop has collected when it ends without an exception. *)
Lemma validate_loop_columns (l : Learner) (flt : option (nat * exn)) :
  NoDup (loss_keys l) -> NoDup (met_keys l) ->
  forall (db : list ValBatch) (j : nat) (a b : dict (list Q))
    (nums : list nat) (ps : list prediction) a' b' nums' ps',
    validate_loop l flt j db a b nums ps = Ok (a', b', nums', ps') ->
    nums' = nums ++ map vb_size db /\
    (forall k xs, k ∈ loss_keys l -> dict_get k a = Some xs ->
       dict_get k a' = Some (xs ++ column k (map vb_out_loss db)) /\
       length (column k (map vb_out_loss db)) = length db) /\
    (forall k xs, k ∈ met_keys l -> dict_get k b = Some xs ->
       dict_get k b' = Some (xs ++ column k (map vb_metric db)) /\
       length (column k (map vb_metric db)) = length db) /\
    exists pss,
      ps' = ps ++ concat pss /\
      Forall2 (fun batch rows =>
                 get_predictions_list (vb_idxs batch) (vb_pred_boxes batch)
                   (vb_pred_scores batch) = Ok rows) db pss.
Proof.
  intros Hndl Hndm.
  induction db as [|batch rest IH];
    intros j a b nums ps a' b' nums' ps' Hrun.
  - cbn in Hrun. injection Hrun as <- <- <- <-.
    split; [rewrite app_nil_r; reflexivity|].
    split; [intros k xs _ Hxs; rewrite app_nil_r; auto|].
    split; [intros k xs _ Hxs; rewrite app_nil_r; auto|].
    exists []. split; [rewrite app_nil_r; reflexivity | constructor].
  - cbn [validate_loop] in Hrun.
    apply rbind_ok in Hrun as ([] & _ & Hrun).
    apply rbind_ok in Hrun as (a1 & Ha1 & Hrun).
    apply rbind_ok in Hrun as (b1 & Hb1 & Hrun).
    apply rbind_ok in Hrun as (rows & Hrows & Hrun).
    destruct (append_keys_run _ _ _ _ Hndl Ha1) as [_ Hina].
    destruct (append_keys_run _ _ _ _ Hndm Hb1) as [_ Hinb].
    destruct (IH _ _ _ _ _ _ _ _ _ Hrun) as (Hn & Ha & Hb & pss & Hps & Hall).
    split; [rewrite Hn, <- app_assoc; reflexivity|].
    split; [|split].
    + intros k xs Hk Hxs.
      destruct (Hina k Hk) as (xs0 & x & Hxs0 & Hx & Hget).
      assert (xs0 = xs) as -> by congruence.
      destruct (Ha k _ Hk Hget) as [Hget' Hlen].
      cbn [map]. rewrite column_cons, Hx. cbn [length].
      rewrite Hget', <- app_assoc, Hlen. auto.
    + intros k xs Hk Hxs.
      destruct (Hinb k Hk) as (xs0 & x & Hxs0 & Hx & Hget).
      assert (xs0 = xs) as -> by congruence.
      destruct (Hb k _ Hk Hget) as [Hget' Hlen].
      cbn [map]. rewrite column_cons, Hx. cbn [length].
      rewrite Hget', <- app_assoc, Hlen. auto.
    + exists (rows :: pss). split.
      * rewrite Hps, <- app_assoc. reflexivity.
      * constructor; assumption.
Qed.

Lemma compute_avg_dict_get (inp : dict (list Q)) (nums : list Q)
  (out : dict tscalar) (k : string) (vs : list Q) :
  compute_avg_dict inp nums = Ok out ->
  dict_get k inp = Some vs ->
  exists v, dict_get k out = Some v /\ compute_avg vs nums = Ok v.
Proof.
  revert out. induction inp as [|[k1 vs1] rest IH]; intros out Hrun Hget.
  - discriminate Hget.
  - cbn [compute_avg_dict] in Hrun.
    destruct (compute_avg vs1 nums) as [v1|e] eqn:Hv1; [|discriminate Hrun].
    destruct (compute_avg_dict rest nums) as [out1|e] eqn:Hrest;
      [|discriminate Hrun].
    injection Hrun as <-. cbn in Hget |- *.
    destruct (String.eqb k k1).
    + injection Hget as <-. eauto.
    + apply (IH out1 eq_refl Hget).
Qed.

Lemma comprehension_grows {V} (ks : list string) (v : V) :
  forall acc, exists more, SmoothenDict.comprehension ks v acc = acc ++ more.
Proof.
  induction ks as [|k rest IH]; intros acc; cbn.
  - exists []. rewrite app_nil_r. reflexivity.
  - destruct (dict_get k acc).
    + apply IH.
    + destruct (IH (acc ++ [(k, v)])) as [more ->].
      exists ((k, v) :: more). rewrite <- app_assoc. reflexivity.
Qed.

Lemma comprehension_empty {V} (ks : list string) (v : V) :
  ks <> [] ->
  exists k more, SmoothenDict.comprehension ks v [] = (k, v) :: more.
Proof.
  destruct ks as [|k rest]; [contradiction|]. intros _. cbn.
  destruct (comprehension_grows rest v [(k, v)]) as [more ->].
  exists k, more. reflexivity.
Qed.

End ValidateFacts.

(** X14.  When the loss keys are distinct and the metric keys are distinct,
    a validation pass that returns gives, for every key, the mean of the
    values of that key over the batches, weighted by the batch sizes (one
    value per batch), and the predictions of the batches one after the
    other. *)
Theorem validate_weighted_means (l : Learner) (db : list ValBatch)
  (flt : option (nat * exn)) (val_loss eval_metric : dict tscalar)
  (predicted : list prediction) :
  NoDup (loss_keys l) -> NoDup (met_keys l) ->
  validate l db flt = Ok (val_loss, eval_metric, predicted) ->
  (forall k, k ∈ loss_keys l ->
     length (column k (map vb_out_loss db)) = length db /\
     exists v, dict_get k val_loss = Some v /\
               compute_avg (column k (map vb_out_loss db)) (sizes db) = Ok v) /\
  (forall k, k ∈ met_keys l ->
     length (column k (map vb_metric db)) = length db /\
     exists v, dict_get k eval_metric = Some v /\
               compute_avg (column k (map vb_metric db)) (sizes db) = Ok v) /\
  exists pss,
    predicted = concat pss /\
    Forall2 (fun batch rows =>
               get_predictions_list (vb_idxs batch) (vb_pred_boxes batch)
                 (vb_pred_scores batch) = Ok rows) db pss.
Proof.
  intros Hndl Hndm Hrun. unfold validate in Hrun.
  apply rbind_ok in Hrun as ([[[a' b'] nums'] ps'] & Hloop & Hrun).
  apply rbind_ok in Hrun as (vl & Hvl & Hrun).
  apply rbind_ok in Hrun as (em & Hem & [= <- <- <-]).
  destruct (ValidateFacts.validate_loop_columns l flt Hndl Hndm
              _ _ _ _ _ _ _ _ _ _ Hloop) as (Hn & Ha & Hb & pss & Hps & Hall).
  cbn in Hn, Hps. subst nums' ps'.
  rewrite map_map in Hvl, Hem. fold (sizes db) in Hvl, Hem.
  split; [|split].
  - intros k Hk.
    destruct (Ha k [] Hk) as [Hget Hlen].
    { rewrite comprehension_get. cbn.
      rewrite bool_decide_eq_true_2 by exact Hk. reflexivity. }
    split; [exact Hlen|].
    exact (ValidateFacts.compute_avg_dict_get _ _ _ _ _ Hvl Hget).
  - intros k Hk.
    destruct (Hb k [] Hk) as [Hget Hlen].
    { rewrite comprehension_get. cbn.
      rewrite bool_decide_eq_true_2 by exact Hk. reflexivity. }
    split; [exact Hlen|].
    exact (ValidateFacts.compute_avg_dict_get _ _ _ _ _ Hem Hget).
  - exists pss. auto.
Qed.

(** X15.  On a loader that gives no batch, [validate] raises as soon as there
    is one loss key or one metric key: [torch.stack] gets an empty list. *)
Theorem validate_empty_loader (l : Learner) (flt : option (nat * exn)) :
  loss_keys l ++ met_keys l <> [] ->
  validate l [] flt =
    Raise (RuntimeError "stack expects a non-empty TensorList").
Proof.
  intros Hne. unfold validate. cbn [validate_loop rbind map].
  destruct (loss_keys l) as [|k0 lk] eqn:Hlk.
  - cbn. cbn in Hne.
    destruct (ValidateFacts.comprehension_empty (met_keys l) (@nil Q) Hne)
      as (k & more & ->).
    reflexivity.
  - destruct (ValidateFacts.comprehension_empty (k0 :: lk) (@nil Q))
      as (k & more & ->); [discriminate|].
    reflexivity.
Qed.

Lemma validate_weighted_means_witness :
  let l := self fresh_learner in
  let db := [valid_batch0 (1 # 2); valid_batch0 (1 # 4)] in
  exists val_loss eval_metric predicted,
    validate l db None = Ok (val_loss, eval_metric, predicted) /\
    (forall k, k ∈ loss_keys l ->
       length (column k (map vb_out_loss db)) = length db /\
       exists v, dict_get k val_loss = Some v /\
                 compute_avg (column k (map vb_out_loss db)) (sizes db) = Ok v) /\
    (forall k, k ∈ met_keys l ->
       length (column k (map vb_metric db)) = length db /\
       exists v, dict_get k eval_metric = Some v /\
                 compute_avg (column k (map vb_metric db)) (sizes db) = Ok v) /\
    exists pss,
      predicted = concat pss /\
      Forall2 (fun batch rows =>
                 get_predictions_list (vb_idxs batch) (vb_pred_boxes batch)
                   (vb_pred_scores batch) = Ok rows) db pss.
Proof.
  cbv zeta. eexists _, _, _. split; [vm_compute; reflexivity|].
  apply (validate_weighted_means (self fresh_learner)
           [valid_batch0 (1 # 2); valid_batch0 (1 # 4)] None).
  - apply (bool_decide_unpack _). vm_compute. reflexivity.
  - apply (bool_decide_unpack _). vm_compute. reflexivity.
  - vm_compute. reflexivity.
Defined.

Lemma validate_empty_loader_witness :
  validate (self fresh_learner) [] None =
    Raise (RuntimeError "stack expects a non-empty TensorList").
Proof.
  apply (validate_empty_loader (self fresh_learner) None). discriminate.
Defined.

Lemma get_predictions_list_rows_witness :
  match get_predictions_list [7; 9] [[1%Q]; [2%Q]; [3%Q]] [1%Q; 1%Q] with
  | Ok out =>
      length [7; 9] <= length [[1%Q]; [2%Q]; [3%Q]] /\
      length [7; 9] <= length [1%Q; 1%Q] /\
      length out = length [7; 9] /\
      forall i p, out !! i = Some p ->
        [7; 9] !! i = Some (id p) /\
        [[1%Q]; [2%Q]; [3%Q]] !! i = Some (pred_boxes p) /\
        [1%Q; 1%Q] !! i = Some (pred_scores p)
  | Raise e =>
      (length [[1%Q]; [2%Q]; [3%Q]] < length [7; 9] \/
       length [1%Q; 1%Q] < length [7; 9]) /\
      e = IndexError "list index out of range"
  end.
Proof.
  apply (get_predictions_list_rows [7; 9] [[1%Q]; [2%Q]; [3%Q]] [1%Q; 1%Q]).
Defined.

(** ** Runs of [fit] *)

Lemma not_below_refl (b : tscalar) : not_below b b.
Proof. left. reflexivity. Qed.

Lemma not_below_trans (a b c : tscalar) :
  not_below a b -> not_below b c -> not_below a c.
Proof.
  intros [->|Hab] [->|Hbc].
  - left. reflexivity.
  - right. exact Hbc.
  - right. exact Hab.
  - right. exact (tlt_trans _ _ _ Hab Hbc).
Qed.

Lemma running_best_not_below (ms : list tscalar) :
  forall b, not_below b (running_best b ms).
Proof.
  unfold running_best.
  induction ms as [|m rest IH]; intros b; cbn; [apply not_below_refl|].
  destruct (tlt b m) eqn:Hlt.
  - apply (not_below_trans _ m); [right; exact Hlt | apply IH].
  - apply IH.
Qed.

Lemma not_below_keeps (b b' m : tscalar) :
  not_below b b' -> tlt b m = false -> tlt b' b = false.
Proof.
  intros [->|Hlt] _; [apply tlt_irrefl|].
  destruct (tlt b' b) eqn:Hback; [|reflexivity].
  pose proof (tlt_trans _ _ _ Hlt Hback) as Hcycle.
  rewrite tlt_irrefl in Hcycle. discriminate Hcycle.
Qed.

Lemma running_best_dominates (ms : list tscalar) :
  forall b, Forall (fun m => tlt (running_best b ms) m = false) ms.
Proof.
  induction ms as [|m rest IH]; intros b; [constructor|].
  unfold running_best. cbn [fold_left].
  set (b1 := if tlt b m then m else b).
  fold (running_best b1 rest).
  constructor; [|apply IH].
  assert (H1 : tlt b1 m = false).
  { subst b1. destruct (tlt b m) eqn:Hlt; [apply tlt_irrefl | exact Hlt]. }
  destruct (running_best_not_below rest b1) as [->|Hup]; [exact H1|].
  destruct (tlt (running_best b1 rest) m) eqn:Hm; [|reflexivity].
  rewrite (tlt_trans _ _ _ Hup Hm) in H1. discriminate H1.
Qed.

Section RunFacts.
Context `{External}.

#[local] Arguments epoch_body : simpl never.
#[local] Arguments save_model_dict : simpl never.
#[local] Arguments update_log_file : simpl never.
#[local] Arguments static : simpl never.
#[local] Arguments summary_line : simpl never.

Lemma epoch_outcome_best (metric : option tscalar) (s s' : St)
  (r : result unit) :
  epoch_outcome metric s s' r ->
  not_below (best_met (self s)) (best_met (self s')).
Proof.
  intros [x _ _ Hb _ | x m _ _ _ Hb _
          | m tail _ _ _ Hb _ _
          | m ck tail _ _ Hlt Hb _ _ _ _].
  - left. exact Hb.
  - left. exact Hb.
  - left. exact Hb.
  - right. rewrite Hb. exact Hlt.
Qed.

(** The loop, whatever its outcome: [best_met] does not go down. *)
Lemma epoch_loop_best (script : nat -> EpochData) (flt : option Fault)
  (n : nat) :
  forall (a : nat) (s s' : St) (r : result unit),
    is_Some (optimizer (self s)) ->
    is_Some (lr_scheduler (self s)) ->
    epoch_loop script flt (seq a n) s = (s', r) ->
    not_below (best_met (self s)) (best_met (self s')).
Proof.
  induction n as [|n IH]; intros a s s' r Ho Hs Hrun.
  - cbn in Hrun. injection Hrun as <- _. apply not_below_refl.
  - cbn [seq] in Hrun.
    apply epoch_loop_cons in Hrun as [(s1 & Hb & Hl) | (x & Hb & _)].
    + destruct (epoch_body_spec _ _ _ _ _ _ Ho Hs Hb)
        as (_ & _ & B3 & B4 & _ & Hout).
      apply (not_below_trans _ (best_met (self s1))).
      * exact (epoch_outcome_best _ _ _ _ Hout).
      * exact (IH _ _ _ _ B3 B4 Hl).
    + destruct (epoch_body_spec _ _ _ _ _ _ Ho Hs Hb)
        as (_ & _ & _ & _ & _ & Hout).
      exact (epoch_outcome_best _ _ _ _ Hout).
Qed.

(** A loop that ends without an exception: the loop variable and
    [best_met]. *)
Lemma epoch_loop_returned (script : nat -> EpochData) (flt : option Fault)
  (n : nat) :
  forall (a : nat) (s s' : St),
    is_Some (optimizer (self s)) ->
    is_Some (lr_scheduler (self s)) ->
    epoch_loop script flt (seq a n) s = (s', Ok tt) ->
    (0 < n -> epoch (frame s') = Some (a + n - 1)) /\
    exists ms,
      Forall2 (fun e m => epoch_metric (self s) (script e) = Some m)
        (seq a n) ms /\
      best_met (self s') = running_best (best_met (self s)) ms.
Proof.
  induction n as [|n IH]; intros a s s' Ho Hs Hrun.
  - cbn in Hrun. injection Hrun as <-. split; [lia|].
    exists []. split; [constructor | reflexivity].
  - cbn [seq] in Hrun.
    apply epoch_loop_cons in Hrun as [(s1 & Hb & Hl) | (x & _ & Hx)];
      [|discriminate Hx].
    destruct (epoch_body_spec _ _ _ _ _ _ Ho Hs Hb)
      as (B1 & _ & B3 & B4 & B5 & Hout).
    destruct (completed_epoch _ _ _ Hout) as (m & Hm & _ & Hbest & _).
    destruct (IH (S a) s1 s' B3 B4 Hl) as (Hlast & ms & Hms & Hrb).
    split.
    + intros _. destruct n as [|n'].
      * cbn in Hl. injection Hl as <-. rewrite B5. f_equal. lia.
      * rewrite Hlast by lia. f_equal. lia.
    + exists (m :: ms). split.
      * constructor; [exact Hm|].
        eapply Forall2_impl; [exact Hms|]. intros e' m' He'.
        rewrite <- (epoch_metric_static _ _ _ B1). exact He'.
      * rewrite Hrb, Hbest. reflexivity.
Qed.

(** The [finally] block when the final save is not due. *)
Lemma finalize_no_save (exception : option exn) (st_time end_time : Q)
  (s : St) (e : nat) :
  epoch (frame s) = Some e ->
  final_save_due s = false ->
  finalize exception st_time end_time s =
    update_log_file (summary_line e exception (end_time - st_time)) s.
Proof.
  intros He Hdue. unfold finalize.
  unfold bind at 1. unfold get at 1. rewrite He.
  unfold bind at 1. unfold lift at 1.
  unfold bind at 1. rewrite update_log_file_run.
  unfold final_save_due in Hdue.
  destruct (met_to_use (frame s)) as [m|]; [|reflexivity].
  destruct (truthy m); cbn [andb] in Hdue; [|reflexivity].
  unfold bind at 1. unfold getself at 1. cbn [self].
  rewrite Hdue. reflexivity.
Qed.

Lemma finalize_self (exception : option exn) (st_time end_time : Q)
  (s : St) :
  is_Some (optimizer (self s)) -> is_Some (lr_scheduler (self s)) ->
  self (finalize exception st_time end_time s).1 = self s.
Proof.
  intros [o Ho] [sc Hsc].
  destruct (epoch (frame s)) as [e|] eqn:He.
  - destruct (finalize_bound exception st_time end_time s e o sc He Ho Hsc)
      as (fs' & -> & _). reflexivity.
  - destruct (finalize_unbound exception st_time end_time s He) as [x ->].
    reflexivity.
Qed.


(** X17.  A run of [fit] that returns ran at least one epoch; [num_epoch] has
    grown by the number of epochs; the last thing written is the
    trailing line of the log, which names the last value of the loop
    variable, that is one less than the number of epochs, and the
    exception [False]; no final checkpoint follows. *)
Theorem fit_completed_summary (epochs : nat) (lr : Q) (params : option nat)
  (script : nat -> EpochData) (flt : option Fault) (st_time end_time : Q)
  (s s' : St) :
  fit epochs lr params script flt st_time end_time s = (s', Ok tt) ->
  0 < epochs /\
  num_epoch (self s') = num_epoch (self s) + epochs /\
  (exists evs,
     trace s' =
       trace s ++ evs ++
       [EvWrite (log_file (self s))
          (summary_line (epochs - 1) None (end_time - st_time) +:+ nl)]) /\
  (exists chunks,
     fs s' !! log_file (self s) =
       Some (Text (chunks ++
              [summary_line (epochs - 1) None (end_time - st_time) +:+ nl]))).
Proof.
  intros Hfit.
  destruct (fit_try epochs params script flt s) as [s1 r1] eqn:Htry.
  destruct (fit_try_start epochs params script flt s)
    as (s0 & Hstart & S1 & S2 & S3 & S4 & S5 & S6 & S7).
  rewrite (fit_unfold _ _ _ _ _ _ _ _ _ _ Htry) in Hfit.
  rewrite Hstart in Htry.
  destruct (epoch_loop_basic _ _ _ _ _ _ _ S4 S5 Htry)
    as (L1 & Lo & Lsc & L4 & _ & L6 & _).
  assert (Hr1 : r1 = Ok tt).
  { injection Hfit as _ Hr.
    destruct (finalize (raised r1) st_time end_time s1).2; [|discriminate Hr].
    exact Hr. }
  subst r1. cbn [raised] in Hfit.
  assert (Hpos : 0 < epochs).
  { destruct epochs as [|n]; [|lia].
    destruct (L4 eq_refl) as [-> _].
    destruct (finalize_unbound None st_time end_time s0) as [x Hx].
    { rewrite S7. reflexivity. }
    rewrite Hx in Hfit. discriminate Hfit. }
  destruct (epoch_loop_returned _ _ _ _ _ _ S4 S5 Htry) as (Hlast & _).
  destruct (epoch_loop_completed _ _ _ _ _ _ S4 S5 Htry)
    as (_ & evs & _ & Ht & _ & Hdue).
  rewrite (finalize_no_save None st_time end_time s1 (epochs - 1)) in Hfit.
  2: { rewrite (Hlast Hpos). f_equal. }
  2: { apply Hdue. right. exact Hpos. }
  rewrite update_log_file_run in Hfit. injection Hfit as <-. cbn.
  assert (Hlog : log_file (self s1) = log_file (self s)).
  { unfold static in L1, S1. congruence. }
  split; [exact Hpos|]. split; [rewrite (L6 eq_refl), S3; reflexivity|].
  rewrite Hlog. split.
  - exists evs. rewrite Ht, S6, <- app_assoc. reflexivity.
  - apply appended_last.
Qed.

(** X18.  Whatever the outcome of [fit], [best_met] after it is [best_met]
    before it or a value above it. *)
Theorem fit_best_met_never_drops (epochs : nat) (lr : Q)
  (params : option nat) (script : nat -> EpochData) (flt : option Fault)
  (st_time end_time : Q) (s : St) :
  not_below (best_met (self s))
    (best_met (self (fit epochs lr params script flt st_time end_time s).1)).
Proof.
  destruct (fit_try epochs params script flt s) as [s1 r1] eqn:Htry.
  destruct (fit_try_start epochs params script flt s)
    as (s0 & Hstart & _ & S2 & _ & S4 & S5 & _ & _).
  rewrite (fit_unfold _ _ _ _ _ _ _ _ _ _ Htry). cbn [fst].
  rewrite Hstart in Htry.
  destruct (epoch_loop_basic _ _ _ _ _ _ _ S4 S5 Htry)
    as (_ & Lo & Lsc & _).
  rewrite (finalize_self _ _ _ _ Lo Lsc), <- S2.
  exact (epoch_loop_best _ _ _ _ _ _ _ S4 S5 Htry).
Qed.

(** X19.  After a run of [fit] that returns, every epoch had a primary
    validation metric, [best_met] is what the comparisons of the epochs
    make of the value it had before the run, and no metric of the run is
    above it. *)
Theorem fit_completed_best_met (epochs : nat) (lr : Q) (params : option nat)
  (script : nat -> EpochData) (flt : option Fault) (st_time end_time : Q)
  (s s' : St) :
  fit epochs lr params script flt st_time end_time s = (s', Ok tt) ->
  exists ms,
    Forall2 (fun e m => epoch_metric (self s) (script e) = Some m)
      (seq 0 epochs) ms /\
    best_met (self s') = running_best (best_met (self s)) ms /\
    Forall (fun m => tlt (best_met (self s')) m = false) ms.
Proof.
  intros Hfit.
  destruct (fit_try epochs params script flt s) as [s1 r1] eqn:Htry.
  destruct (fit_try_start epochs params script flt s)
    as (s0 & Hstart & S1 & S2 & _ & S4 & S5 & _ & _).
  rewrite (fit_unfold _ _ _ _ _ _ _ _ _ _ Htry) in Hfit.
  rewrite Hstart in Htry.
  destruct (epoch_loop_basic _ _ _ _ _ _ _ S4 S5 Htry)
    as (_ & Lo & Lsc & _).
  assert (Hr1 : r1 = Ok tt).
  { injection Hfit as _ Hr.
    destruct (finalize (raised r1) st_time end_time s1).2; [|discriminate Hr].
    exact Hr. }
  subst r1.
  assert (Hself : self s' = self s1).
  { injection Hfit as <- _. apply finalize_self; assumption. }
  destruct (epoch_loop_returned _ _ _ _ _ _ S4 S5 Htry) as (_ & ms & Hms & Hrb).
  exists ms. rewrite Hself, Hrb, S2.
  split; [|split; [reflexivity | apply running_best_dominates]].
  eapply Forall2_impl; [exact Hms|]. intros e m He.
  rewrite <- (epoch_metric_static _ _ _ S1). exact He.
Qed.

End RunFacts.

Lemma fit_completed_summary_witness :
  let s' := (@fit plain 2 (1 # 10) None (script_of [1 # 2; 1 # 4]) None 0 5
               fresh_learner).1 in
  0 < 2 /\
  num_epoch (self s') = num_epoch (self fresh_learner) + 2 /\
  (exists evs,
     trace s' =
       trace fresh_learner ++ evs ++
       [EvWrite (log_file (self fresh_learner))
          (@summary_line plain (2 - 1) None (5 - 0) +:+ nl)]) /\
  (exists chunks,
     fs s' !! log_file (self fresh_learner) =
       Some (Text (chunks ++ [@summary_line plain (2 - 1) None (5 - 0) +:+ nl]))).
Proof.
  apply (@fit_completed_summary plain 2 (1 # 10) None
           (script_of [1 # 2; 1 # 4]) None 0 5 fresh_learner).
  vm_compute. reflexivity.
Defined.

Lemma fit_completed_best_met_witness :
  let s' := (@fit plain 3 (1 # 10) None (script_of [1 # 2; 3 # 4; 1 # 4]) None
               0 5 fresh_learner).1 in
  exists ms,
    Forall2 (fun e m =>
               epoch_metric (self fresh_learner)
                 (script_of [1 # 2; 3 # 4; 1 # 4] e) = Some m)
      (seq 0 3) ms /\
    best_met (self s') = running_best (best_met (self fresh_learner)) ms /\
    Forall (fun m => tlt (best_met (self s')) m = false) ms.
Proof.
  apply (@fit_completed_best_met plain 3 (1 # 10) None
           (script_of [1 # 2; 3 # 4; 1 # 4]) None 0 5 fresh_learner).
  vm_compute. reflexivity.
Defined.


Lemma fit_best_met_never_drops_witness :
  not_below (best_met (self fresh_learner))
    (best_met (self (@fit plain 3 (1 # 10) None
                       (script_of [1 # 2; 3 # 4; 1 # 4]) None 0 5
                       fresh_learner).1)).
Proof.
  apply (@fit_best_met_never_drops plain 3 (1 # 10) None
           (script_of [1 # 2; 3 # 4; 1 # 4]) None 0 5 fresh_learner).
Defined.

(** ** Saving and resuming *)

Section ResumeFacts.
Context `{External}.

Lemma saved_checkpoint_loads (s : St) (o sc : nat) :
  optimizer (self s) = Some o ->
  lr_scheduler (self s) = Some sc ->
  exists fd,
    fs (save_model_dict None s).1 !! model_file (self s) = Some fd /\
    torch_load fd = Ok (checkpoint_of (self s) o sc).
Proof.
  intros Ho Hsc. rewrite (save_model_dict_run None s o sc Ho Hsc).
  cbn [fst fs]. rewrite lookup_insert_eq. eexists. split; [reflexivity|].
  unfold torch_load, written_tokens. rewrite parse_dump_checkpoint.
  reflexivity.
Qed.

(** X20.  What [save_model_dict] wrote, [load_model_dict] reads back: a
    learner that resumes from the checkpoint of another one, without the
    optimizer, returns with the iteration count, the epoch count and the
    best metric of the learner that saved, and with the saved model
    loaded when the configuration asks for it. *)
Theorem checkpoint_round_trip (s t : St) (o sc m : nat) :
  optimizer (self s) = Some o ->
  lr_scheduler (self s) = Some sc ->
  model_file (self t) = model_file (self s) ->
  fs t = fs (save_model_dict None s).1 ->
  (if load_normally (cfg (self t))
   then load_state_dict (strict_load (cfg (self t))) (mdl (self t))
          (mdl (self s)) = Ok m
   else m = mdl (self t)) ->
  exists t',
    load_model_dict (Some "") false t = (t', Ok tt) /\
    num_it (self t') = num_it (self s) /\
    num_epoch (self t') = num_epoch (self s) /\
    best_met (self t') = best_met (self s) /\
    mdl (self t') = m /\
    optimizer (self t') = optimizer (self t) /\
    fs t' = fs t.
Proof.
  intros Ho Hsc Hpath Hfs Hload.
  destruct (saved_checkpoint_loads s o sc Ho Hsc) as (fd & Hfd & Hck).
  rewrite <- Hfs, <- Hpath in Hfd. clear Hfs.
  unfold load_model_dict. run_step.
  rewrite Hfd. cbn. rewrite Hck. cbn.
  destruct (load_normally (cfg (self t))); cbn.
  - rewrite Hload. cbn. eexists. split; [reflexivity|]. cbn.
    repeat split; reflexivity.
  - eexists. split; [reflexivity|]. cbn. subst m.
    repeat split; reflexivity.
Qed.

(** X21.  Resuming with the optimizer from a checkpoint that holds a scheduler
    state never returns: [prepare_scheduler] is called without its
    argument.  When the model and the optimizer state load, the
    exception is that [TypeError], and by then the counters, the best
    metric and the optimizer have been replaced. *)
Theorem load_opt_with_scheduler_raises (p : string) (t : St)
  (fd : filedata) (ck : checkpoint) :
  fs t !! resume_file (self t) p = Some fd ->
  torch_load fd = Ok ck ->
  is_Some (scheduler_state_dict ck) ->
  exists t' e,
    load_model_dict (Some p) true t = (t', Raise e) /\
    forall osd,
      optimizer_state_dict ck = Some osd ->
      (load_normally (cfg (self t)) = false \/
       exists sd m, model_state_dict ck = Some sd /\
                    load_state_dict (strict_load (cfg (self t)))
                      (mdl (self t)) sd = Ok m) ->
      e = TypeError
            "prepare_scheduler() missing 1 required positional argument: 'opt'" /\
      num_it (self t') = default (num_it (self t)) (ck_num_it ck) /\
      num_epoch (self t') = default (num_epoch (self t)) (ck_num_epoch ck) /\
      best_met (self t') = default (best_met (self t)) (ck_best_met ck) /\
      optimizer (self t') = Some osd.
Proof.
  intros Hfile Hload [ssd Hssd]. unfold load_model_dict. run_step.
  rewrite Hfile, Hload; cbn.
  destruct (load_normally (cfg (self t))) eqn:Hnorm.
  - destruct (model_state_dict ck) as [sd|] eqn:Hsd; cbn.
    2: { eexists _, _. split; [reflexivity|].
         intros osd _ [Hf | (sd' & m & Hsd' & _)]; discriminate. }
    destruct (load_state_dict _ _ sd) as [m|e] eqn:Hm; cbn.
    2: { eexists _, _. split; [reflexivity|].
         intros osd _ [Hf | (sd' & m & Hsd' & Hm')]; [discriminate|].
         injection Hsd' as <-. rewrite Hm in Hm'. discriminate Hm'. }
    destruct (ck_num_it ck), (ck_num_epoch ck), (ck_best_met ck); cbn;
      destruct (optimizer_state_dict ck) as [osd'|]; cbn;
      rewrite ?Hssd; cbn;
      eexists _, _; (split; [reflexivity|]);
      intros osd Hosd _; try discriminate Hosd;
      injection Hosd as <-; cbn; repeat split; reflexivity.
  - cbn.
    destruct (ck_num_it ck), (ck_num_epoch ck), (ck_best_met ck); cbn;
      destruct (optimizer_state_dict ck) as [osd'|]; cbn;
      rewrite ?Hssd; cbn;
      eexists _, _; (split; [reflexivity|]);
      intros osd Hosd _; try discriminate Hosd;
      injection Hosd as <-; cbn; repeat split; reflexivity.
Qed.

End ResumeFacts.

Lemma checkpoint_round_trip_witness :
  let t := with_fs (fun _ => fs (@save_model_dict plain None armed_learner).1)
             fresh_learner in
  exists t',
    @load_model_dict plain (Some "") false t = (t', Ok tt) /\
    num_it (self t') = num_it (self armed_learner) /\
    num_epoch (self t') = num_epoch (self armed_learner) /\
    best_met (self t') = best_met (self armed_learner) /\
    mdl (self t') = 0 /\
    optimizer (self t') = optimizer (self t) /\
    fs t' = fs t.
Proof.
  apply (@checkpoint_round_trip plain armed_learner
           (with_fs (fun _ => fs (@save_model_dict plain None armed_learner).1)
              fresh_learner) 1 1 0);
    vm_compute; reflexivity.
Defined.

Lemma load_opt_with_scheduler_raises_witness :
  let t := with_fs (fun _ => fs (@save_model_dict plain None armed_learner).1)
             fresh_learner in
  let ck := @checkpoint_of plain (self armed_learner) 1 1 in
  exists t' e,
    @load_model_dict plain (Some "") true t = (t', Raise e) /\
    forall osd,
      optimizer_state_dict ck = Some osd ->
      (load_normally (cfg (self t)) = false \/
       exists sd m, model_state_dict ck = Some sd /\
                    @load_state_dict plain (strict_load (cfg (self t)))
                      (mdl (self t)) sd = Ok m) ->
      e = TypeError
            "prepare_scheduler() missing 1 required positional argument: 'opt'" /\
      num_it (self t') = default (num_it (self t)) (ck_num_it ck) /\
      num_epoch (self t') = default (num_epoch (self t)) (ck_num_epoch ck) /\
      best_met (self t') = default (best_met (self t)) (ck_best_met ck) /\
      optimizer (self t') = Some osd.
Proof.
  apply (@load_opt_with_scheduler_raises plain ""
           (with_fs (fun _ => fs (@save_model_dict plain None armed_learner).1)
              fresh_learner)
           (Binary (dump_checkpoint (@checkpoint_of plain (self armed_learner) 1 1)))
           (@checkpoint_of plain (self armed_learner) 1 1)).
  - vm_compute. reflexivity.
  - vm_compute. reflexivity.
  - eexists. vm_compute. reflexivity.
Defined.

(** ** The files a run touches *)

Lemma files_kept_refl (l : Learner) (fs0 : FS) : files_kept l fs0 fs0.
Proof.
  split; [reflexivity|]. intros _ _. exists []. rewrite app_nil_r. reflexivity.
Qed.

Lemma files_kept_trans (l : Learner) (a b c : FS) :
  files_kept l a b -> files_kept l b c -> files_kept l a c.
Proof.
  intros [Hab Lab] [Hbc Lbc]. split.
  - intros p H1 H2 H3. rewrite (Hbc p H1 H2 H3). exact (Hab p H1 H2 H3).
  - intros H1 H2. destruct (Lab H1 H2) as [m1 E1].
    destruct (Lbc H1 H2) as [m2 E2].
    exists (m1 ++ m2). rewrite E2, E1, app_assoc. reflexivity.
Qed.

Lemma files_kept_static (l l' : Learner) (a b : FS) :
  static l' = static l -> files_kept l a b -> files_kept l' a b.
Proof.
  intros Hs. unfold static in Hs.
  assert (Hl : log_file l' = log_file l) by congruence.
  assert (Hm : model_file l' = model_file l) by congruence.
  assert (Hp : predictions_file l' = predictions_file l) by congruence.
  unfold files_kept. rewrite Hl, Hm, Hp. auto.
Qed.

Lemma files_kept_binary (l : Learner) (p : string) (toks : list token)
  (fs0 : FS) :
  p = model_file l \/ p = predictions_file l ->
  files_kept l fs0 (<[p := Binary toks]> fs0).
Proof.
  intros Hp. split.
  - intros q H1 H2 H3. apply lookup_insert_ne.
    destruct Hp as [->| ->]; congruence.
  - intros H1 H2. exists []. rewrite app_nil_r. unfold log_chunks.
    rewrite lookup_insert_ne; [reflexivity|].
    destruct Hp as [->| ->]; congruence.
Qed.

Lemma files_kept_append (l : Learner) (line : string) (fs0 : FS) :
  files_kept l fs0 (write_text (log_file l) line (open_a (log_file l) fs0)).
Proof.
  assert (Hother : forall q, q <> log_file l ->
            write_text (log_file l) line (open_a (log_file l) fs0) !! q =
              fs0 !! q).
  { intros q Hq. unfold write_text, open_a.
    destruct (fs0 !! log_file l) as [[chunks|toks]|] eqn:Hlog.
    - rewrite Hlog. apply lookup_insert_ne. congruence.
    - rewrite Hlog. apply lookup_insert_ne. congruence.
    - rewrite lookup_insert_eq, insert_insert_eq.
      apply lookup_insert_ne. congruence. }
  split.
  - intros q H1 _ _. apply Hother. exact H1.
  - intros _ _. exists [line]. unfold log_chunks, write_text, open_a.
    destruct (fs0 !! log_file l) as [[chunks|toks]|] eqn:Hlog.
    + rewrite Hlog, lookup_insert_eq. reflexivity.
    + rewrite Hlog, lookup_insert_eq. reflexivity.
    + rewrite lookup_insert_eq, insert_insert_eq, lookup_insert_eq.
      reflexivity.
Qed.

Lemma tidy_quiet {A} (m : M St A) : quiet m -> tidy m.
Proof.
  intros Hq s. destruct (Hq s) as (Hfs & _ & _ & Hk & _).
  split; [exact Hk|]. rewrite Hfs. apply files_kept_refl.
Qed.

Lemma tidy_ret {A} (a : A) : tidy (ret (S := St) a).
Proof. intros s. split; [reflexivity | apply files_kept_refl]. Qed.

Lemma tidy_still {A} (m : M St A) : (forall s, (m s).1 = s) -> tidy m.
Proof.
  intros Hm s. rewrite Hm. split; [reflexivity | apply files_kept_refl].
Qed.

Lemma tidy_modify (f : St -> St) :
  (forall s, static (self (f s)) = static (self s) /\ fs (f s) = fs s) ->
  tidy (modify f).
Proof.
  intros Hf s. cbn. destruct (Hf s) as [Hs Hfs].
  split; [exact Hs|]. rewrite Hfs. apply files_kept_refl.
Qed.

Lemma tidy_bind {A B} (m : M St A) (k : A -> M St B) :
  tidy m -> (forall a, tidy (k a)) -> tidy (bind m k).
Proof.
  intros Hm Hk s. unfold bind. destruct (Hm s) as [Hs Hf].
  destruct (m s) as [s1 [a|e]]; cbn in *.
  - destruct (Hk a s1) as [Hs1 Hf1]. split; [congruence|].
    apply (files_kept_trans _ _ (fs s1)); [exact Hf|].
    apply (files_kept_static (self s1)); [symmetry; exact Hs | exact Hf1].
  - split; assumption.
Qed.

Section FileFacts.
Context `{External}.

Lemma tidy_save_model_dict (interrupt : option (nat * exn)) :
  tidy (save_model_dict interrupt).
Proof.
  intros s.
  destruct (optimizer (self s)) as [o|] eqn:Ho.
  - destruct (lr_scheduler (self s)) as [sc|] eqn:Hsc.
    + rewrite (save_model_dict_run interrupt s o sc Ho Hsc). cbn.
      split; [reflexivity|]. apply files_kept_binary. left. reflexivity.
    + unfold save_model_dict. run_step. rewrite Ho, Hsc. cbn.
      split; [reflexivity | apply files_kept_refl].
  - unfold save_model_dict. run_step. rewrite Ho. cbn.
    split; [reflexivity | apply files_kept_refl].
Qed.

Lemma tidy_update_prediction_file (ps : list prediction)
  (interrupt : option (nat * exn)) :
  tidy (update_prediction_file ps interrupt).
Proof.
  intros s. rewrite update_prediction_file_run. cbn.
  split; [reflexivity|]. apply files_kept_binary. right. reflexivity.
Qed.

Lemma tidy_update_log_file (towrite : string) :
  tidy (update_log_file towrite).
Proof.
  intros s. rewrite update_log_file_run. cbn.
  split; [reflexivity|]. apply files_kept_append.
Qed.

Lemma tidy_scheduler_step (v : tscalar) (sched : nat) (flt : option exn) :
  tidy (scheduler_step v sched flt).
Proof.
  intros s. rewrite scheduler_step_run. destruct flt; cbn;
    (split; [reflexivity | apply files_kept_refl]).
Qed.

#[local] Arguments train_epoch : simpl never.
#[local] Arguments validate : simpl never.
#[local] Arguments prepare_to_write : simpl never.
#[local] Arguments save_model_dict : simpl never.
#[local] Arguments update_prediction_file : simpl never.
#[local] Arguments update_log_file : simpl never.
#[local] Arguments scheduler_step : simpl never.
#[local] Arguments good_format_stats : simpl never.
#[local] Arguments static : simpl never.
#[local] Arguments summary_line : simpl never.

Lemma tidy_epoch_body (script : nat -> EpochData) (flt : option Fault)
  (e : nat) :
  tidy (epoch_body script flt e).
Proof.
  unfold epoch_body.
  apply tidy_bind; [apply tidy_modify; intros s; split; reflexivity|].
  intros _.
  apply tidy_bind; [apply tidy_modify; intros s; split; reflexivity|].
  intros _.
  apply tidy_bind; [apply tidy_quiet, quiet_train_epoch|]. intros trn.
  apply tidy_bind; [apply tidy_still; reflexivity|]. intros l.
  apply tidy_bind; [apply tidy_still; reflexivity|].
  intros [[valid_loss valid_acc] predictions].
  apply tidy_bind; [apply tidy_still; reflexivity|]. intros k0.
  apply tidy_bind; [apply tidy_still; reflexivity|]. intros v.
  apply tidy_bind; [apply tidy_scheduler_step|]. intros _.
  apply tidy_bind; [apply tidy_still; reflexivity|]. intros m.
  apply tidy_bind; [apply tidy_modify; intros s; split; reflexivity|].
  intros _.
  apply tidy_bind; [apply tidy_still; intros s; destruct (fault_at _ _ _);
                    reflexivity|].
  intros _.
  apply tidy_bind; [apply tidy_still; reflexivity|]. intros l1.
  apply tidy_bind.
  { destruct (tlt (best_met l1) m); [|apply tidy_ret].
    apply tidy_bind; [apply tidy_modify; intros s; split; reflexivity|].
    intros _.
    apply tidy_bind; [apply tidy_save_model_dict|]. intros _.
    apply tidy_update_prediction_file. }
  intros _.
  apply tidy_bind; [apply tidy_still; intros s; destruct (fault_at _ _ _);
                    reflexivity|].
  intros _.
  apply tidy_bind; [apply tidy_still, prepare_to_write_state|].
  intros to_write.
  apply tidy_bind; [apply tidy_still; intros s; destruct (fault_at _ _ _);
                    reflexivity|].
  intros _.
  apply tidy_bind; [apply tidy_still; intros s; destruct (fault_at _ _ _);
                    reflexivity|].
  intros _.
  apply tidy_bind; [apply tidy_still; reflexivity|]. intros l2.
  apply tidy_update_log_file.
Qed.

Lemma tidy_epoch_loop (script : nat -> EpochData) (flt : option Fault)
  (es : list nat) :
  tidy (epoch_loop script flt es).
Proof.
  induction es as [|e rest IH]; cbn [epoch_loop]; [apply tidy_ret|].
  apply tidy_bind; [apply tidy_epoch_body|]. intros _. exact IH.
Qed.

Lemma tidy_fit_try (epochs : nat) (params : option nat)
  (script : nat -> EpochData) (flt : option Fault) :
  tidy (fit_try epochs params script flt).
Proof.
  unfold fit_try.
  apply tidy_bind; [apply tidy_still; reflexivity|]. intros l.
  apply tidy_bind; [apply tidy_modify; intros s; split; reflexivity|].
  intros _.
  apply tidy_bind.
  { unfold prepare_scheduler.
    apply tidy_bind; [apply tidy_modify; intros s; split; reflexivity|].
    intros _.
    apply tidy_bind; [apply tidy_still; reflexivity|]. intros l1.
    destruct (sfn (cfg l1)) as [name|]; [|apply tidy_ret].
    apply tidy_bind; [apply tidy_modify; intros s; split; reflexivity|].
    intros _. apply tidy_ret. }
  intros sched.
  apply tidy_bind; [apply tidy_modify; intros s; split; reflexivity|].
  intros _.
  apply tidy_bind; [apply tidy_modify; intros s; split; reflexivity|].
  intros _.
  apply tidy_epoch_loop.
Qed.

Lemma tidy_finalize (exception : option exn) (st_time end_time : Q) :
  tidy (finalize exception st_time end_time).
Proof.
  unfold finalize.
  apply tidy_bind; [apply tidy_still; reflexivity|]. intros s0.
  apply tidy_bind; [apply tidy_still; reflexivity|]. intros e.
  apply tidy_bind; [apply tidy_update_log_file|]. intros _.
  destruct (met_to_use (frame s0)) as [m|]; [|apply tidy_ret].
  destruct (truthy m); [|apply tidy_ret].
  apply tidy_bind; [apply tidy_still; reflexivity|]. intros l.
  destruct (tlt (best_met l) m); [|apply tidy_ret].
  apply tidy_save_model_dict.
Qed.

(** X22.  Whatever its outcome, a call of [fit] keeps the paths of the
    learner, leaves every file other than its log, its checkpoint and
    its predictions as it was, and only adds to the log. *)
Theorem fit_keeps_files (epochs : nat) (lr : Q) (params : option nat)
  (script : nat -> EpochData) (flt : option Fault) (st_time end_time : Q)
  (s : St) :
  let s' := (fit epochs lr params script flt st_time end_time s).1 in
  static (self s') = static (self s) /\
  files_kept (self s) (fs s) (fs s').
Proof.
  cbv zeta.
  destruct (fit_try epochs params script flt s) as [s1 r1] eqn:Htry.
  rewrite (fit_unfold _ _ _ _ _ _ _ _ _ _ Htry). cbn [fst].
  destruct (tidy_fit_try epochs params script flt s) as [Hs1 Hf1].
  rewrite Htry in Hs1, Hf1. cbn [fst] in Hs1, Hf1.
  destruct (tidy_finalize (raised r1) st_time end_time s1) as [Hs2 Hf2].
  split; [congruence|].
  apply (files_kept_trans _ _ (fs s1)); [exact Hf1|].
  apply (files_kept_static (self s1)); [symmetry; exact Hs1 | exact Hf2].
Qed.

End FileFacts.

Lemma fit_keeps_files_witness :
  let s' := (@fit plain 2 (1 # 10) None (script_of [1 # 2; 1 # 4]) None 0 5
               fresh_learner).1 in
  static (self s') = static (self fresh_learner) /\
  files_kept (self fresh_learner) (fs fresh_learner) (fs s').
Proof.
  apply (@fit_keeps_files plain 2 (1 # 10) None (script_of [1 # 2; 1 # 4]) None
           0 5 fresh_learner).
Defined.

(** ** The count of iterations *)

Lemma counts_still {A} (m : M St A) :
  (forall s, num_it (self (m s).1) = num_it (self s)) -> counts 0 m.
Proof. intros Hm s. rewrite Hm. split; [lia|]. intros _ _. lia. Qed.

Lemma counts_bind {A B} (n k : nat) (m : M St A) (f : A -> M St B) :
  counts n m -> (forall a, counts k (f a)) -> counts (n + k) (bind m f).
Proof.
  intros Hm Hf s. unfold bind. destruct (Hm s) as [Hb Hok].
  destruct (m s) as [s1 [a|e]]; cbn in *.
  - destruct (Hf a s1) as [Hb1 Hok1]. specialize (Hok a eq_refl).
    split; [lia|]. intros b Hrun. rewrite (Hok1 b Hrun). lia.
  - split; [lia|]. intros b Hrun. discriminate Hrun.
Qed.

Lemma counts_bind_still {A B} (k : nat) (m : M St A) (f : A -> M St B) :
  counts 0 m -> (forall a, counts k (f a)) -> counts k (bind m f).
Proof. intros Hm Hf. exact (counts_bind 0 k m f Hm Hf). Qed.

Lemma counts_train_epoch (dl : list TrainBatch) (flt : option (nat * exn)) :
  counts (length dl) (train_epoch dl flt).
Proof.
  intros s. destruct (train_epoch dl flt s) as [s' r] eqn:Hrun.
  destruct (train_epoch_outcome _ _ _ _ _ Hrun) as (Hbound & _ & Hok).
  cbn [fst snd]. split; [exact Hbound|].
  intros a ->. apply (Hok a eq_refl).
Qed.

Section CountFacts.
Context `{External}.

Lemma counts_save_model_dict (interrupt : option (nat * exn)) :
  counts 0 (save_model_dict interrupt).
Proof.
  apply counts_still. intros s.
  destruct (optimizer (self s)) as [o|] eqn:Ho.
  - destruct (lr_scheduler (self s)) as [sc|] eqn:Hsc.
    + rewrite (save_model_dict_run interrupt s o sc Ho Hsc). reflexivity.
    + unfold save_model_dict. run_step. rewrite Ho, Hsc. reflexivity.
  - unfold save_model_dict. run_step. rewrite Ho. reflexivity.
Qed.

#[local] Arguments train_epoch : simpl never.
#[local] Arguments validate : simpl never.
#[local] Arguments prepare_to_write : simpl never.
#[local] Arguments save_model_dict : simpl never.
#[local] Arguments update_prediction_file : simpl never.
#[local] Arguments update_log_file : simpl never.
#[local] Arguments scheduler_step : simpl never.
#[local] Arguments good_format_stats : simpl never.
#[local] Arguments summary_line : simpl never.

Lemma counts_epoch_body (script : nat -> EpochData) (flt : option Fault)
  (e : nat) :
  counts (length (ed_train (script e))) (epoch_body script flt e).
Proof.
  unfold epoch_body.
  apply counts_bind_still; [apply counts_still; reflexivity|]. intros _.
  apply counts_bind_still; [apply counts_still; reflexivity|]. intros _.
  rewrite <- (Nat.add_0_r (length (ed_train (script e)))).
  apply counts_bind; [apply counts_train_epoch|]. intros trn.
  apply counts_bind_still; [apply counts_still; reflexivity|]. intros l.
  apply counts_bind_still; [apply counts_still; reflexivity|].
  intros [[valid_loss valid_acc] predictions].
  apply counts_bind_still; [apply counts_still; reflexivity|]. intros k0.
  apply counts_bind_still; [apply counts_still; reflexivity|]. intros v.
  apply counts_bind_still.
  { apply counts_still. intros s. rewrite scheduler_step_run.
    destruct (fault_at flt e PSchedulerStep); reflexivity. }
  intros _.
  apply counts_bind_still; [apply counts_still; reflexivity|]. intros m.
  apply counts_bind_still; [apply counts_still; reflexivity|]. intros _.
  apply counts_bind_still;
    [apply counts_still; intros s; destruct (fault_at _ _ _); reflexivity|].
  intros _.
  apply counts_bind_still; [apply counts_still; reflexivity|]. intros l1.
  apply counts_bind_still.
  { destruct (tlt (best_met l1) m); [|apply counts_still; reflexivity].
    apply counts_bind_still; [apply counts_still; reflexivity|]. intros _.
    apply counts_bind_still; [apply counts_save_model_dict|]. intros _.
    apply counts_still. intros s. rewrite update_prediction_file_run.
    reflexivity. }
  intros _.
  apply counts_bind_still;
    [apply counts_still; intros s; destruct (fault_at _ _ _); reflexivity|].
  intros _.
  apply counts_bind_still.
  { apply counts_still. intros s. rewrite prepare_to_write_state.
    reflexivity. }
  intros to_write.
  apply counts_bind_still;
    [apply counts_still; intros s; destruct (fault_at _ _ _); reflexivity|].
  intros _.
  apply counts_bind_still;
    [apply counts_still; intros s; destruct (fault_at _ _ _); reflexivity|].
  intros _.
  apply counts_bind_still; [apply counts_still; reflexivity|]. intros l2.
  apply counts_still. intros s. rewrite update_log_file_run. reflexivity.
Qed.

Lemma counts_epoch_loop (script : nat -> EpochData) (flt : option Fault)
  (es : list nat) :
  counts (sum_list (map (fun e => length (ed_train (script e))) es))
    (epoch_loop script flt es).
Proof.
  induction es as [|e rest IH]; cbn [epoch_loop map sum_list].
  - apply counts_still. reflexivity.
  - apply counts_bind; [apply counts_epoch_body|]. intros _. exact IH.
Qed.

Lemma counts_fit_try (epochs : nat) (params : option nat)
  (script : nat -> EpochData) (flt : option Fault) :
  counts (batches_of script epochs) (fit_try epochs params script flt).
Proof.
  unfold fit_try.
  apply counts_bind_still; [apply counts_still; reflexivity|]. intros l.
  apply counts_bind_still; [apply counts_still; reflexivity|]. intros _.
  apply counts_bind_still.
  { apply counts_still. intros s. unfold prepare_scheduler. run_step.
    destruct (sfn (cfg (self s))); reflexivity. }
  intros sched.
  apply counts_bind_still; [apply counts_still; reflexivity|]. intros _.
  apply counts_bind_still; [apply counts_still; reflexivity|]. intros _.
  apply counts_epoch_loop.
Qed.

Lemma counts_finalize (exception : option exn) (st_time end_time : Q) :
  counts 0 (finalize exception st_time end_time).
Proof.
  unfold finalize.
  apply counts_bind_still; [apply counts_still; reflexivity|]. intros s0.
  apply counts_bind_still; [apply counts_still; reflexivity|]. intros e.
  apply counts_bind_still.
  { apply counts_still. intros s. rewrite update_log_file_run. reflexivity. }
  intros _.
  destruct (met_to_use (frame s0)) as [m|]; [|apply counts_still; reflexivity].
  destruct (truthy m); [|apply counts_still; reflexivity].
  apply counts_bind_still; [apply counts_still; reflexivity|]. intros l.
  destruct (tlt (best_met l) m); [|apply counts_still; reflexivity].
  apply counts_save_model_dict.
Qed.

(** X23.  [num_it] counts the training batches: a call of [fit] adds to it at
    most the number of batches of its epochs, whatever its outcome, and
    exactly that number when it returns. *)
Theorem fit_counts_iterations (epochs : nat) (lr : Q) (params : option nat)
  (script : nat -> EpochData) (flt : option Fault) (st_time end_time : Q)
  (s : St) :
  let run := fit epochs lr params script flt st_time end_time s in
  num_it (self s) <= num_it (self run.1) <=
    num_it (self s) + batches_of script epochs /\
  (run.2 = Ok tt ->
   num_it (self run.1) = num_it (self s) + batches_of script epochs).
Proof.
  cbv zeta.
  destruct (fit_try epochs params script flt s) as [s1 r1] eqn:Htry.
  rewrite (fit_unfold _ _ _ _ _ _ _ _ _ _ Htry). cbn [fst snd].
  destruct (counts_fit_try epochs params script flt s) as [Hb1 Hok1].
  rewrite Htry in Hb1, Hok1. cbn [fst snd] in Hb1, Hok1.
  destruct (counts_finalize (raised r1) st_time end_time s1) as [Hb2 _].
  split; [lia|]. intros Hrun.
  destruct (finalize (raised r1) st_time end_time s1) as [s2 [u|e2]];
    [|discriminate Hrun].
  cbn [fst snd] in *. subst r1. rewrite <- (Hok1 tt eq_refl). lia.
Qed.

End CountFacts.

Lemma fit_counts_iterations_witness :
  let run := @fit plain 2 (1 # 10) None (script_of [1 # 2; 1 # 4]) None 0 5
               fresh_learner in
  num_it (self fresh_learner) <= num_it (self run.1) <=
    num_it (self fresh_learner) + batches_of (script_of [1 # 2; 1 # 4]) 2 /\
  (run.2 = Ok tt ->
   num_it (self run.1) =
     num_it (self fresh_learner) + batches_of (script_of [1 # 2; 1 # 4]) 2).
Proof.
  apply (@fit_counts_iterations plain 2 (1 # 10) None
           (script_of [1 # 2; 1 # 4]) None 0 5 fresh_learner).
Defined.
